(** * ADDMYNOTES: the notes application of [script.js]

    A shallow embedding of the class [NotesApp]: the note list it keeps in
    memory, the [localStorage] slot it mirrors the list into, the part of
    the page it rewrites, the notice it puts up and the timers it
    schedules.

    State.  A method is a function from a [World] to a [World] and a
    completion, a returned value or a thrown exception; an exception keeps
    the changes made before it.  [this.notes] is a JSON value, as
    [loadNotes] may store there whatever [JSON.parse] returns.

    The host.  What the browser decides is an argument of the method that
    asks for it: the clock, the random number and the date texts of one
    [saveNote] are a [Reading]; the answer to [confirm] is a boolean; the
    storage is enabled or not and has a capacity.  A timer is a pending
    [Task]; any pending task may fire next, delays are not measured.

    Strings.  A JavaScript string is a sequence of UTF-16 code units.  The
    development covers the strings whose code units lie below 256 (Basic
    Latin and Latin-1 Supplement): a [string] of this file is read as such
    a sequence, one [ascii] per code unit.  On this domain [trim],
    [toLowerCase], [includes], the JSON text format and the serialisation
    of a text node are given as the language and the HTML standard define
    them.  Module [Wide] has strings of arbitrary code units, to show
    where [toLowerCase] leaves the mapping of single code units.

    The page.  The notes container holds its children, each with the
    markup assigned to its [innerHTML]; what the parser makes of that
    markup is given by [parse_fragment] for a part of HTML, and is
    [Unmodelled] outside it.  The page around the container is taken to
    have no element with the attribute [data-note-id].  [message] is the
    notice that [showMessage] made last, while it is attached: an element
    of class [message] that the markup of a note puts on the page, and a
    notice that stays on the page because such an element was removed in
    its place, are not shown. *)

From Stdlib Require Import List String Ascii Bool Arith ZArith NArith Lia.
Import ListNotations.

#[local] Set Warnings "-register-all".

Local Open Scope list_scope.
Local Open Scope string_scope.

(* ================================================================== *)
(** ** Code units and strings *)

Module Str.

Definition code (c : ascii) : nat := nat_of_ascii c.

(** The quotation mark, U+0022, and the reverse solidus, U+005C. *)
Definition dquote : ascii := "034"%char.
Definition backslash : ascii := "092"%char.
Definition dq : string := String dquote EmptyString.

Definition eqc (a b : ascii) : bool := Ascii.eqb a b.

(** [WhiteSpace] and [LineTerminator] of ECMAScript below U+0100: TAB, LF,
    VT, FF, CR, SPACE and NO-BREAK SPACE. *)
Definition is_space (c : ascii) : bool :=
  let n := code c in
  (((9 <=? n) && (n <=? 13)) || (n =? 32) || (n =? 160))%nat.

Fixpoint trimStart (s : string) : string :=
  match s with
  | EmptyString => EmptyString
  | String c r => if is_space c then trimStart r else s
  end.

(** [trimEnd] keeps a character when it is not white space or when
    something remains after it. *)
Fixpoint trimEnd (s : string) : string :=
  match s with
  | EmptyString => EmptyString
  | String c r =>
      match trimEnd r with
      | EmptyString => if is_space c then EmptyString else String c EmptyString
      | r' => String c r'
      end
  end.

(** [String.prototype.trim]. *)
Definition trim (s : string) : string := trimEnd (trimStart s).

Definition is_empty (s : string) : bool :=
  match s with EmptyString => true | _ => false end.

(** Lower-case mapping of one code unit below U+0100: A-Z, and the
    Latin-1 capitals U+00C0-U+00DE without the multiplication sign
    U+00D7, move up by 32; every other code unit is its own image. *)
Definition lower_char (c : ascii) : ascii :=
  let n := code c in
  if (((65 <=? n) && (n <=? 90))
      || ((192 <=? n) && (n <=? 222) && negb (n =? 215)))%nat
  then ascii_of_nat (n + 32) else c.

(** [String.prototype.toLowerCase] on code units below U+0100, where it
    maps each code unit by itself; [Wide.toLowerCase] has the same
    strings among others. *)
Fixpoint toLowerCase (s : string) : string :=
  match s with
  | EmptyString => EmptyString
  | String c r => String (lower_char c) (toLowerCase r)
  end.

Fixpoint startsWith (p s : string) : bool :=
  match p with
  | EmptyString => true
  | String a p' =>
      match s with
      | EmptyString => false
      | String b s' => eqc a b && startsWith p' s'
      end
  end.

(** [String.prototype.includes]: the needle starts at some position of
    the haystack. *)
Fixpoint includes (hay needle : string) : bool :=
  startsWith needle hay
  || match hay with
     | EmptyString => false
     | String _ r => includes r needle
     end.

(** [String.prototype.substr(k)] for a non-negative [k]: the string
    without its first [k] code units. *)
Fixpoint substr (k : nat) (s : string) : string :=
  match k, s with
  | O, _ => s
  | S k', String _ r => substr k' r
  | S _, EmptyString => EmptyString
  end.

Fixpoint concat_all (l : list string) : string :=
  match l with
  | [] => EmptyString
  | x :: r => x ++ concat_all r
  end.

(** [Array.prototype.join] with separator [sep]. *)
Fixpoint join (sep : string) (l : list string) : string :=
  match l with
  | [] => EmptyString
  | [x] => x
  | x :: r => x ++ sep ++ join sep r
  end.

(** Digits of the radix-36 rendering, 0-9 then a-z. *)
Definition digit36 (d : N) : ascii :=
  if (d <? 10)%N then ascii_of_N (48 + d) else ascii_of_N (87 + d).

Fixpoint to_radix36_pos (fuel : nat) (n : N) (acc : string) : string :=
  match fuel with
  | O => acc
  | S f =>
      let acc' := String (digit36 (n mod 36)) acc in
      if (n / 36 =? 0)%N then acc' else to_radix36_pos f (n / 36) acc'
  end.

(** [Number.prototype.toString(36)] of an integer. *)
Definition toString36 (z : Z) : string :=
  let n := Z.abs_N z in
  let body := to_radix36_pos (S (N.size_nat n)) n EmptyString in
  if (z <? 0)%Z then String "-" body else body.

End Str.

(* ================================================================== *)
(** ** Strings beyond U+00FF

    A string of the language is a sequence of UTF-16 code units.  The
    strings of the rest of this development keep to the code units below
    256; this module takes in the Greek letters, for what [toLowerCase]
    does to a capital sigma. *)

Module Wide.
Import Str.

Definition ustring : Type := list N.

(** The code units of a string of the rest of the development. *)
Fixpoint of_string (s : string) : ustring :=
  match s with
  | EmptyString => []
  | String c r => N_of_ascii c :: of_string r
  end.

Definition latin (u : N) : bool := (u <? 256)%N.

(** The capital letters U+0391-U+03A9, of which U+03A2 is not assigned,
    and the small letters U+03B1-U+03C9 with the final sigma U+03C2. *)
Definition greek_capital (u : N) : bool :=
  ((913 <=? u) && (u <=? 937) && negb (u =? 930))%N.

Definition greek_small (u : N) : bool := ((945 <=? u) && (u <=? 969))%N.

Definition greek (u : N) : bool := greek_capital u || greek_small u.

Definition lower_latin (u : N) : N := N_of_ascii (lower_char (ascii_of_N u)).

(** The small letter of a Greek letter taken alone: the capitals move up
    by 32. *)
Definition lower_greek (u : N) : N :=
  if greek_capital u then (u + 32)%N else u.

Definition is_nil {A} (l : list A) : bool :=
  match l with [] => true | _ => false end.

(** Lower case of a run of Greek letters.  A capital sigma, U+03A3, with
    a letter before it and none after it becomes the final sigma
    U+03C2. *)
Fixpoint lower_greek_word (first : bool) (l : ustring) : ustring :=
  match l with
  | [] => []
  | u :: r =>
      (if (u =? 931)%N && negb first && is_nil r then 962%N
       else lower_greek u)
      :: lower_greek_word false r
  end.

(** [String.prototype.toLowerCase], for a string of code units below 256
    and for a string of Greek letters; nothing is said of another
    string. *)
Definition toLowerCase (l : ustring) : option ustring :=
  if forallb latin l then Some (map lower_latin l)
  else if forallb greek l then Some (lower_greek_word true l)
  else None.

Fixpoint startsWith (p s : ustring) : bool :=
  match p with
  | [] => true
  | a :: p' =>
      match s with
      | [] => false
      | b :: s' => (a =? b)%N && startsWith p' s'
      end
  end.

(** [String.prototype.includes]. *)
Fixpoint includes (hay needle : ustring) : bool :=
  startsWith needle hay
  || match hay with
     | [] => false
     | _ :: r => includes r needle
     end.

(** [content.toLowerCase().includes(query.toLowerCase())], the test of
    [searchNotes] on the content of a note. *)
Definition content_matches (query content : ustring) : option bool :=
  match toLowerCase content, toLowerCase query with
  | Some c, Some q => Some (includes c q)
  | _, _ => None
  end.

(** The words [ΟΣ] and [ΟΣΑ], in capitals: omicron, sigma, and alpha. *)
Definition omicron_sigma : ustring := [927; 931]%N.
Definition omicron_sigma_alpha : ustring := [927; 931; 913]%N.

End Wide.

(* ================================================================== *)
(** ** Completions: a value or a thrown exception *)

(** The exceptions the program can meet.  [Unmodelled] is not a JavaScript
  exception: it marks an evaluation that leaves the part of the language
  this development describes (a numeric comparison, the conversion of an
  object to a string, a code unit above U+00FF, a selector with
  characters that are significant to the selector grammar).  No handler
  of the program catches it, and no theorem below relies on what happens
  after it. *)
Inductive exn : Type :=
| TypeError
| SyntaxError
| QuotaExceededError
| SecurityError
| Unmodelled.

Inductive outcome (A : Type) : Type :=
| Return (a : A)
| Throw (e : exn).
Arguments Return {A} a.
Arguments Throw {A} e.

Definition is_js_exception (e : exn) : bool :=
match e with Unmodelled => false | _ => true end.

Definition obind {A B} (m : outcome A) (k : A -> outcome B) : outcome B :=
match m with
| Return a => k a
| Throw e => Throw e
end.

Declare Scope outcome_scope.
Delimit Scope outcome_scope with outcome.
Notation "'let*' x := m 'in' k" :=
(obind m (fun x => k))
  (at level 10, x pattern, m at level 100, k at level 200) : outcome_scope.

(* ================================================================== *)
(** ** JSON values, [JSON.stringify] and [JSON.parse] *)

Module Json.
Import Str.
Local Open Scope outcome_scope.

(** The values [JSON.parse] can build.  A number is kept as the text of
    its literal: the program never computes with a number, a number only
    reaches it inside a stored value that it did not write itself. An
    object is the list of its own properties in property order. *)
Inductive json : Type :=
| JNull
| JBool (b : bool)
| JNum (lit : string)
| JStr (s : string)
| JArr (l : list json)
| JObj (o : list (string * json)).

(** *** Property order *)

Definition is_digit (c : ascii) : bool :=
  ((48 <=? code c) && (code c <=? 57))%nat.

Fixpoint all_digits (s : string) : bool :=
  match s with
  | EmptyString => true
  | String c r => is_digit c && all_digits r
  end.

Fixpoint digits_value (s : string) (acc : N) : N :=
  match s with
  | EmptyString => acc
  | String c r => digits_value r (10 * acc + (N_of_ascii c - 48))%N
  end.

(** An array index is the canonical decimal text of an integer below
    2^32 - 1. *)
Definition array_index (k : string) : option N :=
  match k with
  | EmptyString => None
  | String c r =>
      if all_digits k
         && (negb (eqc c "0") || is_empty r)
         && (String.length k <=? 10)%nat
         && (digits_value k 0 <? 4294967295)%N
      then Some (digits_value k 0) else None
  end.

Fixpoint has_key (k : string) (o : list (string * json)) : bool :=
  match o with
  | [] => false
  | (k', _) :: r => String.eqb k k' || has_key k r
  end.

Fixpoint replace_key (k : string) (v : json) (o : list (string * json))
  : list (string * json) :=
  match o with
  | [] => []
  | (k', v') :: r =>
      if String.eqb k k' then (k', v) :: r else (k', v') :: replace_key k v r
  end.

(** A new array-index key goes before the first key that is not a smaller
    array index. *)
Fixpoint insert_index (i : N) (k : string) (v : json)
         (o : list (string * json)) : list (string * json) :=
  match o with
  | [] => [(k, v)]
  | (k', v') :: r =>
      match array_index k' with
      | Some j => if (j <? i)%N then (k', v') :: insert_index i k v r
                  else (k, v) :: o
      | None => (k, v) :: o
      end
  end.

(** Defining the property [k] of an object: an existing property keeps
    its place and takes the new value; a new array index is placed in
    ascending order before the other keys; any other new key goes last. *)
Definition obj_set (k : string) (v : json) (o : list (string * json))
  : list (string * json) :=
  if has_key k o then replace_key k v o
  else match array_index k with
       | Some i => insert_index i k v o
       | None => (o ++ [(k, v)])%list
       end.

Fixpoint obj_get (k : string) (o : list (string * json)) : option json :=
  match o with
  | [] => None
  | (k', v) :: r => if String.eqb k k' then Some v else obj_get k r
  end.

(** *** [JSON.stringify] *)

Definition hex_digit (n : nat) : ascii :=
  if (n <? 10)%nat then ascii_of_nat (48 + n) else ascii_of_nat (87 + n).

(** [QuoteJSONString], one code unit. *)
Definition quote_char (c : ascii) : string :=
  let n := code c in
  if (n =? 8)%nat then String backslash "b"
  else if (n =? 9)%nat then String backslash "t"
  else if (n =? 10)%nat then String backslash "n"
  else if (n =? 12)%nat then String backslash "f"
  else if (n =? 13)%nat then String backslash "r"
  else if (n =? 34)%nat then String backslash dq
  else if (n =? 92)%nat then String backslash (String backslash "")
  else if (n <? 32)%nat then
    String backslash
      (String "u" (String "0" (String "0"
         (String (hex_digit (n / 16)) (String (hex_digit (n mod 16)) "")))))
  else String c "".

Fixpoint quote_body (s : string) : string :=
  match s with
  | EmptyString => EmptyString
  | String c r => quote_char c ++ quote_body r
  end.

Definition quote (s : string) : string := dq ++ quote_body s ++ dq.

(** [JSON.stringify] of a value that [JSON.parse] built.  A number is
    written as the literal it was read from, where the language writes
    the shortest text of its value: the two agree on a literal that is
    such a text already, and a list of notes holds no number. *)
Fixpoint stringify (j : json) : string :=
  match j with
  | JNull => "null"
  | JBool true => "true"
  | JBool false => "false"
  | JNum lit => lit
  | JStr s => quote s
  | JArr l => "[" ++ join "," (map stringify l) ++ "]"
  | JObj o =>
      "{" ++ join "," (map (fun kv => quote (fst kv) ++ ":" ++ stringify (snd kv)) o)
          ++ "}"
  end.

(** *** [JSON.parse] *)

(** JSON white space: TAB, LF, CR and SPACE. *)
Definition is_json_ws (c : ascii) : bool :=
  let n := code c in ((n =? 9) || (n =? 10) || (n =? 13) || (n =? 32))%nat.

Fixpoint skip_ws (s : string) : string :=
  match s with
  | EmptyString => EmptyString
  | String c r => if is_json_ws c then skip_ws r else s
  end.

Definition hex_value (c : ascii) : option nat :=
  let n := code c in
  if ((48 <=? n) && (n <=? 57))%nat then Some (n - 48)
  else if ((97 <=? n) && (n <=? 102))%nat then Some (n - 87)
  else if ((65 <=? n) && (n <=? 70))%nat then Some (n - 55)
  else None.

Definition hex4 (a b c d : ascii) : option nat :=
  match hex_value a, hex_value b, hex_value c, hex_value d with
  | Some x, Some y, Some z, Some w => Some (((x * 16 + y) * 16 + z) * 16 + w)
  | _, _, _, _ => None
  end.

(** The character a one-letter escape stands for. *)
Definition simple_escape (e : ascii) : option ascii :=
  let n := code e in
  if (n =? 34)%nat then Some dquote
  else if (n =? 92)%nat then Some backslash
  else if (n =? 47)%nat then Some "/"%char
  else if (n =? 98)%nat then Some (ascii_of_nat 8)
  else if (n =? 102)%nat then Some (ascii_of_nat 12)
  else if (n =? 110)%nat then Some (ascii_of_nat 10)
  else if (n =? 114)%nat then Some (ascii_of_nat 13)
  else if (n =? 116)%nat then Some (ascii_of_nat 9)
  else None.

Definition cons_char (c : ascii) (r : outcome (string * string))
  : outcome (string * string) :=
  let* p := r in Return (String c (fst p), snd p).

(** The characters of a string literal after its opening quotation mark,
    up to and including the closing one: the string denoted and the rest
    of the input. *)
Fixpoint parse_chars (s : string) : outcome (string * string) :=
  match s with
  | EmptyString => Throw SyntaxError
  | String c r =>
      if eqc c dquote then Return (EmptyString, r)
      else if eqc c backslash then
        match r with
        | EmptyString => Throw SyntaxError
        | String e r1 =>
            match simple_escape e with
            | Some ch => cons_char ch (parse_chars r1)
            | None =>
                if eqc e "u" then
                  match r1 with
                  | String h1 (String h2 (String h3 (String h4 r2))) =>
                      match hex4 h1 h2 h3 h4 with
                      | Some n =>
                          if (n <? 256)%nat
                          then cons_char (ascii_of_nat n) (parse_chars r2)
                          else Throw Unmodelled
                      | None => Throw SyntaxError
                      end
                  | _ => Throw SyntaxError
                  end
                else Throw SyntaxError
            end
        end
      else if (code c <? 32)%nat then Throw SyntaxError
      else cons_char c (parse_chars r)
  end.

(** The longest prefix of digits, and what follows it. *)
Fixpoint span_digits (s : string) : string * string :=
  match s with
  | EmptyString => (EmptyString, EmptyString)
  | String c r =>
      if is_digit c
      then let p := span_digits r in (String c (fst p), snd p)
      else (EmptyString, s)
  end.

(** A JSON number: an optional minus, an integer part without a leading
    zero, an optional fraction and an optional exponent.  The result is
    the text of the literal and the rest of the input. *)
Definition parse_number (s : string) : outcome (string * string) :=
  let sr := match s with
            | String c r => if eqc c "-" then ("-", r) else ("", s)
            | EmptyString => ("", s)
            end in
  let sign := fst sr in
  let* ir :=
    match snd sr with
    | String c r =>
        if eqc c "0" then Return ("0", r)
        else if is_digit c
        then let p := span_digits r in Return (String c (fst p), snd p)
        else Throw SyntaxError
    | EmptyString => Throw SyntaxError
    end in
  let* fr :=
    match snd ir with
    | String c r =>
        if eqc c "." then
          let p := span_digits r in
          if is_empty (fst p) then Throw SyntaxError
          else Return (String c (fst p), snd p)
        else Return ("", snd ir)
    | EmptyString => Return ("", snd ir)
    end in
  let* er :=
    match snd fr with
    | String c r =>
        if eqc c "e" || eqc c "E" then
          let gr := match r with
                    | String g r' =>
                        if eqc g "+" || eqc g "-"
                        then (String g "", r') else ("", r)
                    | EmptyString => ("", r)
                    end in
          let p := span_digits (snd gr) in
          if is_empty (fst p) then Throw SyntaxError
          else Return (String c (fst gr ++ fst p), snd p)
        else Return ("", snd fr)
    | EmptyString => Return ("", snd fr)
    end in
  Return (sign ++ fst ir ++ fst fr ++ fst er, snd er).

(** The recursive-descent reading of one value.  [fuel] bounds the chain
    of nested calls; [JSON_parse] supplies more than any input needs. *)
Fixpoint parse_value (fuel : nat) (s : string) : outcome (json * string) :=
  match fuel with
  | O => Throw Unmodelled
  | S f =>
      match skip_ws s with
      | EmptyString => Throw SyntaxError
      | String c r =>
          if eqc c "{" then
            match skip_ws r with
            | EmptyString => Throw SyntaxError
            | String c' r' =>
                if eqc c' "}" then Return (JObj [], r')
                else parse_members f r []
            end
          else if eqc c "[" then
            match skip_ws r with
            | EmptyString => Throw SyntaxError
            | String c' r' =>
                if eqc c' "]" then Return (JArr [], r')
                else parse_elements f r []
            end
          else if eqc c dquote then
            let* p := parse_chars r in Return (JStr (fst p), snd p)
          else if startsWith "true" (String c r)
          then Return (JBool true, substr 4 (String c r))
          else if startsWith "false" (String c r)
          then Return (JBool false, substr 5 (String c r))
          else if startsWith "null" (String c r)
          then Return (JNull, substr 4 (String c r))
          else
            let* p := parse_number (String c r) in
            Return (JNum (fst p), snd p)
      end
  end

with parse_elements (fuel : nat) (s : string) (acc : list json)
  : outcome (json * string) :=
  match fuel with
  | O => Throw Unmodelled
  | S f =>
      let* p := parse_value f s in
      match skip_ws (snd p) with
      | EmptyString => Throw SyntaxError
      | String c r =>
          if eqc c "," then parse_elements f r (fst p :: acc)
          else if eqc c "]" then Return (JArr (rev (fst p :: acc)), r)
          else Throw SyntaxError
      end
  end

with parse_members (fuel : nat) (s : string) (acc : list (string * json))
  : outcome (json * string) :=
  match fuel with
  | O => Throw Unmodelled
  | S f =>
      match skip_ws s with
      | EmptyString => Throw SyntaxError
      | String c r =>
          if eqc c dquote then
            let* k := parse_chars r in
            match skip_ws (snd k) with
            | EmptyString => Throw SyntaxError
            | String c1 r1 =>
                if eqc c1 ":" then
                  let* p := parse_value f r1 in
                  match skip_ws (snd p) with
                  | EmptyString => Throw SyntaxError
                  | String c2 r2 =>
                      if eqc c2 "," then
                        parse_members f r2 (obj_set (fst k) (fst p) acc)
                      else if eqc c2 "}" then
                        Return (JObj (obj_set (fst k) (fst p) acc), r2)
                      else Throw SyntaxError
                  end
                else Throw SyntaxError
            end
          else Throw SyntaxError
      end
  end.

(** [JSON.parse]: one value, then nothing but white space. *)
Definition parse (s : string) : outcome json :=
  let* p := parse_value (2 * String.length s + 2) s in
  if is_empty (skip_ws (snd p)) then Return (fst p) else Throw SyntaxError.

End Json.

(* ================================================================== *)
(** ** The page: text serialisation, elements, notices *)

Module Html.
Import Str.
Local Open Scope outcome_scope.

(** The serialisation of one code unit of a text node (HTML standard,
    escaping a string outside attribute mode). *)
Definition escape_char (c : ascii) : string :=
  if eqc c "&" then "&amp;"
  else if (code c =? 160)%nat then "&nbsp;"
  else if eqc c "<" then "&lt;"
  else if eqc c ">" then "&gt;"
  else String c "".

Fixpoint escape_text (s : string) : string :=
  match s with
  | EmptyString => EmptyString
  | String c r => escape_char c ++ escape_text r
  end.

(** The character references the reader below knows, with the number of
    code units after the ampersand. *)
Definition named_reference (s : string) : option (ascii * nat) :=
  if startsWith "amp;" s then Some ("&"%char, 4)
  else if startsWith "lt;" s then Some ("<"%char, 3)
  else if startsWith "gt;" s then Some (">"%char, 3)
  else if startsWith "nbsp;" s then Some (ascii_of_nat 160, 5)
  else if startsWith "quot;" s then Some (dquote, 5)
  else None.

Definition is_alnum (c : ascii) : bool :=
  let n := code c in
  (((48 <=? n) && (n <=? 57)) || ((65 <=? n) && (n <=? 90))
   || ((97 <=? n) && (n <=? 122)))%nat.

Definition cons_text (c : ascii) (r : outcome (string * string))
  : outcome (string * string) :=
  let* p := r in Return (String c (fst p), snd p).

(** The tokenizer's data state: the text read from [s] up to the first
    less-than sign, where a tag begins, with character references
    replaced by the characters they name; and the input that remains.
    [skip] code units of a reference already decoded are passed over.
    Only the references of [named_reference] are known: any other
    ampersand that could start a reference is [Unmodelled].  The
    normalisation of newlines comes before this state and the tree
    builder's handling of U+0000 after it: [normalize_newlines] and
    [drop_nul] below, put together in [parse_fragment]. *)
Fixpoint character_data (skip : nat) (s : string) : outcome (string * string) :=
  match s with
  | EmptyString => Return (EmptyString, EmptyString)
  | String c r =>
      match skip with
      | S k => character_data k r
      | O =>
          if eqc c "<" then Return (EmptyString, s)
          else if eqc c "&" then
            match named_reference r with
            | Some (ch, n) => cons_text ch (character_data n r)
            | None =>
                match r with
                | String d _ =>
                    if is_alnum d || eqc d "#" then Throw Unmodelled
                    else cons_text c (character_data 0 r)
                | EmptyString => cons_text c (character_data 0 r)
                end
            end
          else cons_text c (character_data 0 r)
      end
  end.

(** An element made by [document.createElement('div')]: its class list,
    its attributes other than [class], and the markup assigned to its
    [innerHTML]. *)
Record Element : Type := {
  classList : list string;
  attributes : list (string * string);
  innerHTML : string
}.

(** A child of the notes container. *)
Inductive Node : Type :=
| Parsed (markup : string)
    (** what the parser builds from markup assigned to the container's
        [innerHTML] *)
| Built (e : Element)
    (** an element appended with [appendChild] *).

Fixpoint attr_get (k : string) (l : list (string * string)) : option string :=
  match l with
  | [] => None
  | (k', v) :: r => if String.eqb k k' then Some v else attr_get k r
  end.

Definition mem_string (x : string) (l : list string) : bool :=
  existsb (String.eqb x) l.

(** [classList.add]. *)
Definition classList_add (c : string) (e : Element) : Element :=
  {| classList := if mem_string c (classList e) then classList e
                  else (classList e ++ [c])%list;
     attributes := attributes e;
     innerHTML := innerHTML e |}.

(** The notice element of [showMessage]. *)
Record Message : Type := {
  node : nat;              (** which element it is, in order of creation *)
  className : string;
  background : string;
  textContent : string;
  leaving : bool           (** the slide-out animation has been set *)
}.

(** *** Markup as the parser reads it

    The part of the HTML parser that the markup of this program needs,
    for markup assigned to the [innerHTML] of a division: newlines are
    normalised before anything is read; text runs up to a less-than
    sign; a tag is a start tag with attributes, or an end tag, of one of
    a few elements that the tree builder inserts where they stand.
    Whatever lies outside that part (comments, other elements, a solidus
    in a tag, a character reference that is not listed, U+0000 inside a
    tag) is [Unmodelled]. *)

(** Preprocessing of the input stream: a carriage return followed by a
    line feed, and a carriage return alone, are one line feed.
    [after_cr] tells that the character before was a carriage return. *)
Fixpoint newlines (after_cr : bool) (s : string) : string :=
  match s with
  | EmptyString => EmptyString
  | String c r =>
      if (code c =? 13)%nat then String (ascii_of_nat 10) (newlines true r)
      else if (code c =? 10)%nat && after_cr then newlines false r
      else String c (newlines false r)
  end.

Definition normalize_newlines (s : string) : string := newlines false s.

(** In the body of a document the tree builder ignores the characters
    U+0000 of a text. *)
Fixpoint drop_nul (s : string) : string :=
  match s with
  | EmptyString => EmptyString
  | String c r =>
      if (code c =? 0)%nat then drop_nul r else String c (drop_nul r)
  end.

(** What the tree builder receives, in the order of the document: the
    data of a text node, the start tag that opens an element, with its
    attributes, and an end tag. *)
Inductive Token : Type :=
| Text (data : string)
| StartTag (name : string) (attrs : list (string * string))
| EndTag (name : string).

(** The elements described: each is inserted at the place of its start
    tag, and none changes the way the text after it is read. *)
Definition known_element (name : string) : bool :=
  mem_string name ["div"; "span"; "p"; "button"; "img"].

(** White space inside a tag: TAB, LF, FF and SPACE. *)
Definition is_tag_space (c : ascii) : bool :=
  let n := code c in ((n =? 9) || (n =? 10) || (n =? 12) || (n =? 32))%nat.

Fixpoint skip_space (s : string) : string :=
  match s with
  | EmptyString => EmptyString
  | String c r => if is_tag_space c then skip_space r else s
  end.

(** The letters and digits a tag name starts with, in lower case, and
    what follows them. *)
Fixpoint tag_name (s : string) : string * string :=
  match s with
  | EmptyString => (EmptyString, EmptyString)
  | String c r =>
      if is_alnum c
      then (String (lower_char c) (fst (tag_name r)), snd (tag_name r))
      else (EmptyString, s)
  end.

(** The same for an attribute name, which may hold hyphens as well. *)
Fixpoint attr_name (s : string) : string * string :=
  match s with
  | EmptyString => (EmptyString, EmptyString)
  | String c r =>
      if is_alnum c || eqc c "-"
      then (String (lower_char c) (fst (attr_name r)), snd (attr_name r))
      else (EmptyString, s)
  end.

(** An attribute value between two marks [q], after the first: the value,
    with the known character references replaced, and what follows the
    closing mark. *)
Fixpoint quoted_value (q : ascii) (skip : nat) (s : string)
  : outcome (string * string) :=
  match s with
  | EmptyString => Throw Unmodelled
  | String c r =>
      match skip with
      | S k => quoted_value q k r
      | O =>
          if eqc c q then Return (EmptyString, r)
          else if (code c =? 0)%nat then Throw Unmodelled
          else if eqc c "&" then
            match named_reference r with
            | Some (ch, n) => cons_text ch (quoted_value q n r)
            | None =>
                match r with
                | String d _ =>
                    if is_alnum d || eqc d "#" then Throw Unmodelled
                    else cons_text c (quoted_value q 0 r)
                | EmptyString => cons_text c (quoted_value q 0 r)
                end
            end
          else cons_text c (quoted_value q 0 r)
      end
  end.

(** An attribute value without marks: it runs up to white space or the
    end of the tag, which stay in the input. *)
Fixpoint unquoted_value (skip : nat) (s : string) : outcome (string * string) :=
  match s with
  | EmptyString => Throw Unmodelled
  | String c r =>
      match skip with
      | S k => unquoted_value k r
      | O =>
          if is_tag_space c || eqc c ">" then Return (EmptyString, s)
          else if (code c =? 0)%nat then Throw Unmodelled
          else if eqc c "&" then
            match named_reference r with
            | Some (ch, n) => cons_text ch (unquoted_value n r)
            | None =>
                match r with
                | String d _ =>
                    if is_alnum d || eqc d "#" then Throw Unmodelled
                    else cons_text c (unquoted_value 0 r)
                | EmptyString => Throw Unmodelled
                end
            end
          else cons_text c (unquoted_value 0 r)
      end
  end.

(** An attribute is added to a tag unless the tag has one of that name
    already. *)
Definition put_attr (k v : string) (l : list (string * string))
  : list (string * string) :=
  (k, v) :: filter (fun a => negb (String.eqb (fst a) k)) l.

(** The attributes of a start tag, from after its name up to its
    greater-than sign, and what follows the tag. *)
Fixpoint attributes_of (fuel : nat) (s : string)
  : outcome (list (string * string) * string) :=
  match fuel with
  | O => Throw Unmodelled
  | S f =>
      match skip_space s with
      | EmptyString => Throw Unmodelled
      | String c r =>
          if eqc c ">" then Return ([], r)
          else
            let name := fst (attr_name (String c r)) in
            let s2 := skip_space (snd (attr_name (String c r))) in
            if is_empty name then Throw Unmodelled
            else
              match s2 with
              | String e r2 =>
                  if eqc e "=" then
                    match skip_space r2 with
                    | EmptyString => Throw Unmodelled
                    | String q r3 =>
                        if eqc q ">" then Throw Unmodelled
                        else
                          let* v :=
                            if eqc q dquote || eqc q "'"
                            then quoted_value q 0 r3
                            else unquoted_value 0 (String q r3) in
                          let* p := attributes_of f (snd v) in
                          Return (put_attr name (fst v) (fst p), snd p)
                    end
                  else
                    let* p := attributes_of f s2 in
                    Return (put_attr name EmptyString (fst p), snd p)
              | EmptyString => Throw Unmodelled
              end
      end
  end.

(** The next token of [s], from the data state, and the input after it;
    nothing at the end of the input. *)
Definition next_token (s : string) : outcome (option (Token * string)) :=
  match s with
  | EmptyString => Return None
  | String c r =>
      if eqc c "<" then
        match r with
        | EmptyString => Throw Unmodelled
        | String d r' =>
            if eqc d "/" then
              let name := fst (tag_name r') in
              if known_element name then
                match skip_space (snd (tag_name r')) with
                | String e r2 =>
                    if eqc e ">" then Return (Some (EndTag name, r2))
                    else Throw Unmodelled
                | EmptyString => Throw Unmodelled
                end
              else Throw Unmodelled
            else
              let name := fst (tag_name r) in
              let s2 := snd (tag_name r) in
              if known_element name then
                match s2 with
                | String e _ =>
                    if is_tag_space e || eqc e ">" then
                      let* p := attributes_of (String.length s2) s2 in
                      Return (Some (StartTag name (fst p), snd p))
                    else Throw Unmodelled
                | EmptyString => Throw Unmodelled
                end
              else Throw Unmodelled
        end
      else
        let* p := character_data 0 s in
        Return (Some (Text (drop_nul (fst p)), snd p))
  end.

(** A text without data makes no node. *)
Definition cons_token (t : Token) (l : list Token) : list Token :=
  match t with
  | Text EmptyString => l
  | _ => t :: l
  end.

(** The tokens of the first [k] steps from [s], and the input left. *)
Fixpoint take_tokens (k : nat) (s : string) : outcome (list Token * string) :=
  match k with
  | O => Return ([], s)
  | S k' =>
      let* o := next_token s in
      match o with
      | None => Return ([], EmptyString)
      | Some (t, rest) =>
          let* p := take_tokens k' rest in
          Return (cons_token t (fst p), snd p)
      end
  end.

(** The tokens of markup assigned to [innerHTML].  Every step takes at
    least one character, so as many steps as characters suffice. *)
Definition parse_fragment (markup : string) : outcome (list Token) :=
  let s := normalize_newlines markup in
  let* p := take_tokens (S (String.length s)) s in
  match snd p with
  | EmptyString => Return (fst p)
  | _ => Throw Unmodelled
  end.

(** The input begins with a line feed. *)
Definition starts_lf (s : string) : bool :=
  match s with
  | String c _ => (code c =? 10)%nat
  | EmptyString => false
  end.


(** The markup a child of the container was made from. *)
Definition markup_of (n : Node) : string :=
  match n with
  | Parsed m => m
  | Built e => innerHTML e
  end.

(** The start tag [t] has the attribute [k] with the value [v]. *)
Definition has_attr (k v : string) (t : Token) : bool :=
  match t with
  | StartTag _ attrs =>
      match attr_get k attrs with
      | Some v' => String.eqb v' v
      | None => false
      end
  | _ => false
  end.

(** Whether the markup of the child [n] holds an element with the
    attribute [k] of value [v]. *)
Definition holds_element (k v : string) (n : Node) : outcome bool :=
  let* ts := parse_fragment (markup_of n) in
  Return (existsb (has_attr k v) ts).

End Html.

(* ================================================================== *)
(** ** The application *)

Module App.
Import Str Json Html.

(** A note as [saveNote] builds it. *)
Record Note : Type := {
  id : string;
  content : string;
  timestamp : string;
  dateCreated : string
}.

Definition note_to_json (n : Note) : json :=
  JObj [("id", JStr (id n)); ("content", JStr (content n));
        ("timestamp", JStr (timestamp n));
        ("dateCreated", JStr (dateCreated n))].

Definition notes_to_json (l : list Note) : json := JArr (map note_to_json l).

(** A [Date] object, seen through the two renderings the program asks
    of it. *)
Record Date : Type := {
  toISOString : string;
  toLocaleDateString : string
    (** with locale ['en-US'] and the options of [formatDate] *)
}.

(** What the host answers during one call of [saveNote], in the order of
    the calls: [Date.now()], [Math.random().toString(36)], and the two
    [new Date()]. *)
Record Reading : Type := {
  date_now : Z;
  random36 : string;
  date_timestamp : Date;
  date_created : Date
}.

(** A pending timer callback. *)
Inductive Task : Type :=
| RemoveNote (noteId : string)   (** scheduled by [deleteNote], 300 ms *)
| DismissMessage (m : nat)       (** scheduled by [showMessage], 3000 ms *)
| DetachMessage (m : nat)        (** scheduled by the former, 300 ms *).

(** What the program does to its surroundings, newest first. *)
Inductive Event : Type :=
| EvGetItem (key : string)
| EvSetItem (key value : string) (failure : option exn)
| EvRender
    (** the notes container is emptied to be rebuilt *)
| EvMessage (text type : string)
| EvConsoleError (text : string) (e : exn)
| EvFocus
| EvRemoving (noteId : string)
    (** the class [removing] went to the element the selector of
        [noteId] matched, which is no child of the container that the
        page shows *).

Record World : Type := {
  notes : json;                          (** [this.notes] *)
  noteInput : string;                    (** [this.noteInput.value] *)
  notesContainer : list Node;            (** children of the container *)
  message : option Message;              (** the notice made last, while
                                             it is attached *)
  created : nat;                         (** notice elements made so far *)
  timers : list Task;                    (** pending, oldest first *)
  storage : list (string * string);      (** [localStorage] *)
  storage_enabled : bool;
  storage_capacity : nat;                (** code units it can hold *)
  log : list Event
}.

Definition set_notes (j : json) (w : World) : World :=
  {| notes := j; noteInput := noteInput w;
     notesContainer := notesContainer w; message := message w;
     created := created w; timers := timers w; storage := storage w;
     storage_enabled := storage_enabled w;
     storage_capacity := storage_capacity w; log := log w |}.

Definition set_noteInput (s : string) (w : World) : World :=
  {| notes := notes w; noteInput := s;
     notesContainer := notesContainer w; message := message w;
     created := created w; timers := timers w; storage := storage w;
     storage_enabled := storage_enabled w;
     storage_capacity := storage_capacity w; log := log w |}.

Definition set_notesContainer (c : list Node) (w : World) : World :=
  {| notes := notes w; noteInput := noteInput w;
     notesContainer := c; message := message w;
     created := created w; timers := timers w; storage := storage w;
     storage_enabled := storage_enabled w;
     storage_capacity := storage_capacity w; log := log w |}.

Definition set_message (m : option Message) (w : World) : World :=
  {| notes := notes w; noteInput := noteInput w;
     notesContainer := notesContainer w; message := m;
     created := created w; timers := timers w; storage := storage w;
     storage_enabled := storage_enabled w;
     storage_capacity := storage_capacity w; log := log w |}.

Definition set_created (n : nat) (w : World) : World :=
  {| notes := notes w; noteInput := noteInput w;
     notesContainer := notesContainer w; message := message w;
     created := n; timers := timers w; storage := storage w;
     storage_enabled := storage_enabled w;
     storage_capacity := storage_capacity w; log := log w |}.

Definition set_timers (t : list Task) (w : World) : World :=
  {| notes := notes w; noteInput := noteInput w;
     notesContainer := notesContainer w; message := message w;
     created := created w; timers := t; storage := storage w;
     storage_enabled := storage_enabled w;
     storage_capacity := storage_capacity w; log := log w |}.

Definition set_storage (s : list (string * string)) (w : World) : World :=
  {| notes := notes w; noteInput := noteInput w;
     notesContainer := notesContainer w; message := message w;
     created := created w; timers := timers w; storage := s;
     storage_enabled := storage_enabled w;
     storage_capacity := storage_capacity w; log := log w |}.

Definition emit (e : Event) (w : World) : World :=
  {| notes := notes w; noteInput := noteInput w;
     notesContainer := notesContainer w; message := message w;
     created := created w; timers := timers w; storage := storage w;
     storage_enabled := storage_enabled w;
     storage_capacity := storage_capacity w; log := e :: log w |}.

(** *** Computations: a world in, a world and a completion out *)

Definition M (A : Type) : Type := World -> World * outcome A.

Definition ret {A} (a : A) : M A := fun w => (w, Return a).
Definition throw {A} (e : exn) : M A := fun w => (w, Throw e).
Definition lift {A} (o : outcome A) : M A := fun w => (w, o).
Definition bind {A B} (m : M A) (k : A -> M B) : M B :=
  fun w => match m w with
           | (w', Return a) => k a w'
           | (w', Throw e) => (w', Throw e)
           end.
Definition gets {A} (f : World -> A) : M A := fun w => (w, Return (f w)).
Definition modify (f : World -> World) : M unit := fun w => (f w, Return tt).

(** [try { m } catch (error) { h error }]. *)
Definition try_catch {A} (m : M A) (h : exn -> M A) : M A :=
  fun w => match m w with
           | (w', Throw e) =>
               if is_js_exception e then h e w' else (w', Throw e)
           | r => r
           end.

Declare Scope app_scope.
Delimit Scope app_scope with app.
Notation "x <- m ;; k" := (bind m (fun x => k))
  (at level 61, m at next level, right associativity) : app_scope.
Notation "m ;; k" := (bind m (fun _ => k))
  (at level 61, right associativity) : app_scope.
Local Open Scope app_scope.

Fixpoint for_each {A} (f : A -> M unit) (l : list A) : M unit :=
  match l with
  | [] => ret tt
  | x :: r => f x ;; for_each f r
  end.

(** *** Values of the language *)

(** A value read from a property: [None] is [undefined]. *)
Definition jsval : Type := option json.

(** [o.k] for a key [k] that no prototype defines ([id], [content],
    [dateCreated]): reading a property of [null] throws, an object
    answers with its own property, any other value with [undefined]. *)
Definition get_prop (o : json) (k : string) : outcome jsval :=
  match o with
  | JNull => Throw TypeError
  | JObj l => Return (obj_get k l)
  | _ => Return None
  end.

(** [ToString].  The texts of numbers, arrays and objects are not
    described. *)
Definition to_string (v : jsval) : outcome string :=
  match v with
  | None => Return "undefined"
  | Some JNull => Return "null"
  | Some (JBool true) => Return "true"
  | Some (JBool false) => Return "false"
  | Some (JStr s) => Return s
  | Some _ => Throw Unmodelled
  end.

(** [v !== s] for a string [s]. *)
Definition strict_neq (v : jsval) (s : string) : bool :=
  match v with
  | Some (JStr s') => negb (String.eqb s' s)
  | _ => true
  end.

(** *** [localStorage] *)

Fixpoint store_get (k : string) (l : list (string * string)) : option string :=
  match l with
  | [] => None
  | (k', v) :: r => if String.eqb k k' then Some v else store_get k r
  end.

Fixpoint store_set (k v : string) (l : list (string * string))
  : list (string * string) :=
  match l with
  | [] => [(k, v)]
  | (k', v') :: r =>
      if String.eqb k k' then (k, v) :: r else (k', v') :: store_set k v r
  end.

Fixpoint store_size (l : list (string * string)) : nat :=
  match l with
  | [] => 0
  | (k, v) :: r => String.length k + String.length v + store_size r
  end.

(** [localStorage.getItem]: [None] is [null]. *)
Definition getItem (key : string) : M (option string) :=
  modify (emit (EvGetItem key)) ;;
  enabled <- gets storage_enabled ;;
  if enabled : bool then gets (fun w => store_get key (storage w))
  else throw SecurityError.

(** Why [setItem] would refuse [value] under [key], if it would:
    storage is disabled, or the new contents do not fit. *)
Definition write_failure (key value : string) (w : World) : option exn :=
  if storage_enabled w then
    if (store_size (store_set key value (storage w)) <=? storage_capacity w)%nat
    then None else Some QuotaExceededError
  else Some SecurityError.

(** [localStorage.setItem]. *)
Definition setItem (key value : string) : M unit :=
  fun w =>
    match write_failure key value w with
    | None =>
        (emit (EvSetItem key value None)
              (set_storage (store_set key value (storage w)) w), Return tt)
    | Some e => (emit (EvSetItem key value (Some e)) w, Throw e)
    end.

Definition console_error (text : string) (e : exn) : M unit :=
  modify (emit (EvConsoleError text e)).

Definition setTimeout (t : Task) : M unit :=
  modify (fun w => set_timers (timers w ++ [t])%list w).

(** *** The methods of [NotesApp] *)

Definition nl : string := String (ascii_of_nat 10) EmptyString.

(** [showMessage(message, type)]: the notice in place, if any, is
    removed; a new element is appended to the body; its dismissal is
    scheduled. *)
Definition showMessage (text type : string) : M unit :=
  modify (set_message None) ;;
  m <- gets created ;;
  modify (set_created (S m)) ;;
  modify (set_message
            (Some {| node := m;
                     className := "message message-" ++ type;
                     background :=
                       if String.eqb type "success" then "#2ed573"
                       else if String.eqb type "error" then "#ff4757"
                       else "#5352ed";
                     textContent := text;
                     leaving := false |})) ;;
  modify (emit (EvMessage text type)) ;;
  setTimeout (DismissMessage m).

(** [escapeHtml(text)] for a string: the text is stored in a fresh
    element's [textContent] and read back as [innerHTML], the
    serialisation of that one text node. *)
Definition escapeHtml (text : string) : string := escape_text text.

(** Assigning a value to [textContent]: [null] and [undefined] give the
    empty text, any other value its [ToString]. *)
Definition textContent_of (v : jsval) : outcome string :=
  match v with
  | None | Some JNull => Return EmptyString
  | _ => to_string v
  end.

(** [formatDate(date)]. *)
Definition formatDate (date : Date) : string := toLocaleDateString date.

(** [generateId()]. *)
Definition generateId (r : Reading) : string :=
  toString36 (date_now r) ++ substr 2 (random36 r).

(** The three pieces of the template of [createNoteElement], around the
    escaped content, the date and the id.  The pictograph of the button
    label lies above U+00FF; it is written by the bytes of its UTF-8
    form, which no function here looks into. *)
Definition template_open : string :=
  nl ++ "            <div class=" ++ dq ++ "note-content" ++ dq ++ ">".

Definition template_date : string :=
  "</div>" ++ nl ++
  "            <div class=" ++ dq ++ "note-footer" ++ dq ++ ">" ++ nl ++
  "                <span class=" ++ dq ++ "note-date" ++ dq ++ ">".

Definition template_id : string :=
  "</span>" ++ nl ++
  "                <button class=" ++ dq ++ "delete-btn" ++ dq ++
  " onclick=" ++ dq ++ "notesApp.deleteNote('".

Definition template_close : string :=
  "')" ++ dq ++ ">" ++ nl ++
  "                    🗑️ Delete" ++ nl ++
  "                </button>" ++ nl ++
  "            </div>" ++ nl ++
  "        ".

(** [createNoteElement(note)]. *)
Definition createNoteElement (note : json) : outcome Element :=
  (let* attr := obind (get_prop note "id") to_string in
   let* text := obind (get_prop note "content") textContent_of in
   let* date := obind (get_prop note "dateCreated") to_string in
   let* ident := obind (get_prop note "id") to_string in
   Return {| classList := ["note"];
             attributes := [("data-note-id", attr)];
             innerHTML := template_open ++ escapeHtml text
                          ++ template_date ++ date
                          ++ template_id ++ ident
                          ++ template_close |})%outcome.

Definition empty_state_markup : string :=
  nl ++ "            <div class=" ++ dq ++ "empty-state" ++ dq ++ ">" ++ nl ++
  "                <p>No notes yet. Add your first note above!</p>" ++ nl ++
  "            </div>" ++ nl ++
  "        ".

Definition no_match_markup : string :=
  nl ++ "                <div class=" ++ dq ++ "empty-state" ++ dq ++ ">" ++ nl ++
  "                    <p>No notes found matching your search.</p>" ++ nl ++
  "                </div>" ++ nl ++
  "            ".

(** [showEmptyState()]. *)
Definition showEmptyState : M unit :=
  modify (set_notesContainer [Parsed empty_state_markup]).

Definition appendChild (e : Element) : M unit :=
  modify (fun w => set_notesContainer (notesContainer w ++ [Built e])%list w).

(** [this.notes.length === 0].  A string has a length, [null] has no
    properties, a number or a boolean answers [undefined]; an object
    answers with its own [length], and the comparison of a number with
    zero is not described. *)
Definition length_is_zero (j : json) : outcome bool :=
  match j with
  | JNull => Throw TypeError
  | JArr l => Return (Nat.eqb (List.length l) 0)
  | JStr s => Return (is_empty s)
  | JObj o => match obj_get "length" o with
              | Some (JNum _) => Throw Unmodelled
              | _ => Return false
              end
  | _ => Return false
  end.

(** The elements of [j] when [j.forEach], [j.filter] or [j.unshift] is
    the array method; on any other value the call throws. *)
Definition as_array (j : json) : outcome (list json) :=
  match j with
  | JArr l => Return l
  | _ => Throw TypeError
  end.

Definition render_list (l : list json) : M unit :=
  for_each (fun note => e <- lift (createNoteElement note) ;; appendChild e) l.

(** [showNotes()]. *)
Definition showNotes : M unit :=
  modify (emit EvRender) ;;
  modify (set_notesContainer []) ;;
  j <- gets notes ;;
  z <- lift (length_is_zero j) ;;
  if z : bool then showEmptyState
  else l <- lift (as_array j) ;; render_list l.

(** [displayFilteredNotes(filteredNotes)]. *)
Definition displayFilteredNotes (filteredNotes : list json) : M unit :=
  modify (emit EvRender) ;;
  modify (set_notesContainer []) ;;
  if Nat.eqb (List.length filteredNotes) 0
  then modify (set_notesContainer [Parsed no_match_markup])
  else render_list filteredNotes.

Definition storage_key : string := "notesApp".

(** [saveToLocalStorage()]. *)
Definition saveToLocalStorage : M unit :=
  try_catch
    (j <- gets notes ;; setItem storage_key (stringify j))
    (fun error =>
       console_error "Error saving notes to localStorage:" error ;;
       showMessage "Error saving notes. Storage might be full." "error").

(** [loadNotes()]. *)
Definition loadNotes : M unit :=
  try_catch
    (storedNotes <- getItem storage_key ;;
     match storedNotes with
     | None => ret tt
     | Some s =>
         if is_empty s then ret tt
         else j <- lift (Json.parse s) ;; modify (set_notes j)
     end)
    (fun error =>
       console_error "Error loading notes from localStorage:" error ;;
       modify (set_notes (JArr []))).

(** [clearInput()]. *)
Definition clearInput : M unit :=
  modify (set_noteInput EmptyString) ;;
  modify (emit EvFocus).

(** [saveNote()], with the host's answers [r]. *)
Definition saveNote (r : Reading) : M unit :=
  value <- gets noteInput ;;
  let noteText := trim value in
  if is_empty noteText
  then showMessage "Please enter a note before adding!" "error"
  else
    let note := JObj [("id", JStr (generateId r));
                      ("content", JStr noteText);
                      ("timestamp", JStr (toISOString (date_timestamp r)));
                      ("dateCreated", JStr (formatDate (date_created r)))] in
    j <- gets notes ;;
    l <- lift (as_array j) ;;
    modify (set_notes (JArr (note :: l))) ;;
    saveToLocalStorage ;;
    showNotes ;;
    clearInput ;;
    showMessage "Note added successfully!" "success".

(** Characters that end or escape the quoted value of the attribute
    selector built in [deleteNote]: quotation mark, reverse solidus, the
    newlines LF, FF, CR, and U+0000. *)
Definition selector_special (c : ascii) : bool :=
  let n := code c in
  ((n =? 34) || (n =? 92) || (n =? 10) || (n =? 12) || (n =? 13) || (n =? 0))%nat.

Fixpoint selector_plain (s : string) : bool :=
  match s with
  | EmptyString => true
  | String c r => negb (selector_special c) && selector_plain r
  end.

Definition has_note_id (noteId : string) (n : Node) : bool :=
  match n with
  | Built e => match attr_get "data-note-id" (attributes e) with
               | Some v => String.eqb v noteId
               | None => false
               end
  | Parsed _ => false
  end.

(** Position of the first child of the container that the selector
    matches. *)
Fixpoint find_note (noteId : string) (l : list Node) : option nat :=
  match l with
  | [] => None
  | n :: r => if has_note_id noteId n then Some 0
              else option_map S (find_note noteId r)
  end.

Fixpoint all_alnum (s : string) : bool :=
  match s with
  | EmptyString => true
  | String c r => is_alnum c && all_alnum r
  end.

(** Ids with which the text built in [deleteNote] is no selector, so
    that [querySelector] throws a [SyntaxError].  The first special
    character of the id is a newline, which ends the quoted string as a
    bad string; or it is a quotation mark, which closes the string, with
    nothing or only letters and digits after it: the quotation mark of
    the template then opens a second string, and no attribute selector
    has two. *)
Fixpoint selector_broken (s : string) : bool :=
  match s with
  | EmptyString => false
  | String c r =>
      let n := code c in
      if ((n =? 10) || (n =? 12) || (n =? 13))%nat then true
      else if (n =? 34)%nat then all_alnum r
      else if selector_special c then false
      else selector_broken r
  end.

(** What [document.querySelector] finds. *)
Inductive Hit : Type :=
| At (k : nat)
    (** the [k]-th child of the notes container *)
| Elsewhere
    (** an element made from the markup of a child; or, when markup
        before a matching child is not described, that child or an
        element before it *).

(** The first element of the page, in document order, whose
    [data-note-id] is [noteId].  A child of the container comes before
    the elements made from its markup.  [sure] tells that the markup
    passed so far is described and holds no such element.  Nothing is
    found only when all the markup is described; a matching child is
    found whatever the markup holds.  The page outside the container is
    taken to have no element with that attribute. *)
Fixpoint query_note (noteId : string) (sure : bool) (k : nat) (l : list Node)
  : outcome (option Hit) :=
  match l with
  | [] => if sure then Return None else Throw Unmodelled
  | n :: r =>
      if has_note_id noteId n
      then Return (Some (if sure then At k else Elsewhere))
      else
        match holds_element "data-note-id" noteId n with
        | Return true => Return (Some Elsewhere)
        | Return false => query_note noteId sure (S k) r
        | Throw _ => query_note noteId false (S k) r
        end
  end.

(** [document.querySelector] on the selector of [deleteNote]. *)
Definition querySelector_note (noteId : string) : M (option Hit) :=
  if selector_plain noteId
  then page <- gets notesContainer ;; lift (query_note noteId true 0 page)
  else if selector_broken noteId then throw SyntaxError
  else throw Unmodelled.

Fixpoint update_node (k : nat) (f : Element -> Element) (l : list Node)
  : list Node :=
  match l, k with
  | [], _ => []
  | Built e :: r, O => Built (f e) :: r
  | n :: r, O => n :: r
  | n :: r, S k' => n :: update_node k' f r
  end.

(** [noteElement.classList.add('removing')]. *)
Definition add_removing (noteId : string) (h : Hit) (w : World) : World :=
  match h with
  | At k => set_notesContainer
              (update_node k (classList_add "removing") (notesContainer w)) w
  | Elsewhere => emit (EvRemoving noteId) w
  end.

(** [deleteNote(noteId)], where [answer] is what the user chose in the
    confirmation dialog. *)
Definition deleteNote (noteId : string) (answer : bool) : M unit :=
  if answer then
    noteElement <- querySelector_note noteId ;;
    match noteElement with
    | Some h =>
        modify (add_removing noteId h) ;;
        setTimeout (RemoveNote noteId)
    | None => ret tt
    end
  else ret tt.

(** [l.filter(note => note.id !== noteId)]. *)
Fixpoint filter_out (noteId : string) (l : list json) : outcome (list json) :=
  match l with
  | [] => Return []
  | note :: r =>
      (let* v := get_prop note "id" in
       let* r' := filter_out noteId r in
       Return (if strict_neq v noteId then note :: r' else r'))%outcome
  end.

(** The callback [deleteNote] hands to [setTimeout]. *)
Definition removeNote (noteId : string) : M unit :=
  j <- gets notes ;;
  l <- lift (as_array j) ;;
  l' <- lift (filter_out noteId l) ;;
  modify (set_notes (JArr l')) ;;
  saveToLocalStorage ;;
  showNotes ;;
  showMessage "Note deleted successfully!" "success".

Definition attached (m : nat) (w : World) : bool :=
  match message w with
  | Some x => Nat.eqb (node x) m
  | None => false
  end.

(** The outer callback of [showMessage]: an element that still has a
    parent starts to slide out and its removal is scheduled. *)
Definition dismissMessage (m : nat) : M unit :=
  a <- gets (attached m) ;;
  if a : bool then
    modify (fun w =>
              set_message
                (option_map (fun x => {| node := node x;
                                         className := className x;
                                         background := background x;
                                         textContent := textContent x;
                                         leaving := true |})
                            (message w)) w) ;;
    setTimeout (DetachMessage m)
  else ret tt.

(** The inner callback: [messageDiv.remove()]. *)
Definition detachMessage (m : nat) : M unit :=
  a <- gets (attached m) ;;
  if a : bool then modify (set_message None) else ret tt.

Definition run_task (t : Task) : M unit :=
  match t with
  | RemoveNote noteId => removeNote noteId
  | DismissMessage m => dismissMessage m
  | DetachMessage m => detachMessage m
  end.

Fixpoint remove_nth {A} (k : nat) (l : list A) : list A :=
  match l, k with
  | [], _ => []
  | _ :: r, O => r
  | x :: r, S k' => x :: remove_nth k' r
  end.

(** The [k]-th pending timer fires. *)
Definition fire (k : nat) : M unit :=
  ts <- gets timers ;;
  match nth_error ts k with
  | Some t => modify (set_timers (remove_nth k ts)) ;; run_task t
  | None => ret tt
  end.

(** [note.content.toLowerCase().includes(query.toLowerCase())]: the
    method [toLowerCase] exists on strings only. *)
Definition matches (query : string) (note : json) : outcome bool :=
  (let* v := get_prop note "content" in
   match v with
   | Some (JStr c) => Return (includes (toLowerCase c) (toLowerCase query))
   | _ => Throw TypeError
   end)%outcome.

Fixpoint filter_matching (query : string) (l : list json)
  : outcome (list json) :=
  match l with
  | [] => Return []
  | note :: r =>
      (let* b := matches query note in
       let* r' := filter_matching query r in
       Return (if b : bool then note :: r' else r'))%outcome
  end.

(** [searchNotes(query)]. *)
Definition searchNotes (query : string) : M unit :=
  if is_empty (trim query) then showNotes
  else
    j <- gets notes ;;
    l <- lift (as_array j) ;;
    filteredNotes <- lift (filter_matching query l) ;;
    displayFilteredNotes filteredNotes.

(** [getNotesCount()]: the length of [this.notes] when it is an array. *)
Definition getNotesCount (w : World) : option nat :=
  match notes w with
  | JArr l => Some (List.length l)
  | _ => None
  end.

(** The world a page load starts from: the constructor's empty array, an
    empty input and page, and the storage it finds. *)
Definition page_load (st : list (string * string)) (enabled : bool)
           (capacity : nat) : World :=
  {| notes := JArr []; noteInput := EmptyString; notesContainer := [];
     message := None; created := 0; timers := [];
     storage := st; storage_enabled := enabled;
     storage_capacity := capacity; log := [] |}.

(** [init()] without [bindEvents], which only registers listeners. *)
Definition init : M unit := loadNotes ;; showNotes.

End App.

(* ================================================================== *)
(** ** Notions used to state the properties *)

Module Props.
Import Str Json Html App.

(** The element [createNoteElement] builds for a note. *)
Definition note_element (n : Note) : Element :=
  {| classList := ["note"];
     attributes := [("data-note-id", id n)];
     innerHTML := template_open ++ escapeHtml (content n)
                  ++ template_date ++ dateCreated n
                  ++ template_id ++ id n ++ template_close |}.

(** The elements of the notes [l], in list order. *)
Definition rendered (l : list Note) : list Node :=
  map (fun n => Built (note_element n)) l.

(** What [showNotes] leaves in the container for the notes [l]. *)
Definition view (l : list Note) : list Node :=
  match l with
  | [] => [Parsed empty_state_markup]
  | _ => rendered l
  end.

(** What [displayFilteredNotes] leaves there for the matching notes [l]. *)
Definition search_view (l : list Note) : list Node :=
  match l with
  | [] => [Parsed no_match_markup]
  | _ => rendered l
  end.

Definition is_write (e : Event) : bool :=
  match e with EvSetItem _ _ _ => true | _ => false end.

Definition is_render (e : Event) : bool :=
  match e with EvRender => true | _ => false end.

Definition count (p : Event -> bool) (l : list Event) : nat :=
  List.length (filter p l).

(** The notice element number [m] with the given text, type and colour. *)
Definition notice (m : nat) (text type colour : string) : Message :=
  {| node := m; className := "message message-" ++ type;
     background := colour; textContent := text; leaving := false |}.

Definition background_of (type : string) : string :=
  if String.eqb type "success" then "#2ed573"
  else if String.eqb type "error" then "#ff4757"
  else "#5352ed".

(** The world after [showMessage text type]. *)
Definition posted (text type : string) (w : World) : World :=
  set_timers (timers w ++ [DismissMessage (created w)])%list
    (emit (EvMessage text type)
       (set_message (Some (notice (created w) text type (background_of type)))
          (set_created (S (created w)) w))).

(** The world after [saveToLocalStorage] wrote [value], or was refused
    with [failure]. *)
Definition written (value : string) (failure : option exn) (w : World) : World :=
  match failure with
  | None => emit (EvSetItem storage_key value None)
              (set_storage (store_set storage_key value (storage w)) w)
  | Some e =>
      posted "Error saving notes. Storage might be full." "error"
        (emit (EvConsoleError "Error saving notes to localStorage:" e)
           (emit (EvSetItem storage_key value (Some e)) w))
  end.

(** The note [saveNote] builds from the input of [w] and the answers [r]. *)
Definition new_note (r : Reading) (w : World) : Note :=
  {| id := generateId r;
     content := trim (noteInput w);
     timestamp := toISOString (date_timestamp r);
     dateCreated := formatDate (date_created r) |}.

(** The notes of [l] that are not called [noteId]. *)
Definition without (noteId : string) (l : list Note) : list Note :=
  filter (fun n => negb (String.eqb (id n) noteId)) l.

(** The code unit [c] occurs in [s]. *)
Fixpoint has_char (c : ascii) (s : string) : bool :=
  match s with
  | EmptyString => false
  | String x r => eqc x c || has_char c r
  end.

(** Two strings that differ at most in the case of their letters. *)
Fixpoint same_ignoring_case (a b : string) : Prop :=
  match a, b with
  | EmptyString, EmptyString => True
  | String x a', String y b' =>
      lower_char x = lower_char y /\ same_ignoring_case a' b'
  | _, _ => False
  end.

(** [q] occurs in [c] as a substring, case not counting. *)
Definition occurs_ignoring_case (q c : string) : Prop :=
  exists before found after,
    c = before ++ found ++ after /\ same_ignoring_case found q.

(** The test of [searchNotes] on the content of a note. *)
Definition note_matches (query : string) (n : Note) : bool :=
  includes (toLowerCase (content n)) (toLowerCase query).

(** The id of an element of [this.notes], when it has a string id. *)
Definition id_of (j : json) : option string :=
  match j with
  | JObj o => match obj_get "id" o with
              | Some (JStr s) => Some s
              | _ => None
              end
  | _ => None
  end.

(** The ids of the notes in memory, in list order. *)
Definition note_ids (w : World) : list (option string) :=
  match notes w with
  | JArr l => map id_of l
  | _ => []
  end.

(** The operations a user, or a caller of the methods, can start. *)
Inductive Op : Type :=
| OpCreate (input : string) (r : Reading)
    (** type [input] into the text area, then [saveNote] *)
| OpDelete (noteId : string) (answer : bool)
| OpSearch (query : string)
| OpPersist
| OpLoad
| OpTimer (k : nat)
    (** the [k]-th pending timer fires *).

Definition perform (o : Op) : M unit :=
  match o with
  | OpCreate input r => bind (modify (set_noteInput input)) (fun _ => saveNote r)
  | OpDelete noteId answer => deleteNote noteId answer
  | OpSearch query => searchNotes query
  | OpPersist => saveToLocalStorage
  | OpLoad => loadNotes
  | OpTimer k => fire k
  end.

(** The world after an operation, whether it returned or threw. *)
Definition step (w : World) (o : Op) : World := fst (perform o w).

Definition run (ops : list Op) (w : World) : World := fold_left step ops w.

(** No note in memory carries the id [g]. *)
Definition unused_id (g : string) (w : World) : bool :=
  negb (existsb (fun i => match i with
                          | Some s => String.eqb s g
                          | None => false
                          end) (note_ids w)).

(** Along [ops], every [OpCreate] that adds a note generates an id that no
    note in memory carries at that moment. *)
Fixpoint fresh_ids (ops : list Op) (w : World) : bool :=
  match ops with
  | [] => true
  | o :: r =>
      match o with
      | OpCreate input rd =>
          is_empty (trim input) || unused_id (generateId rd) w
      | _ => true
      end && fresh_ids r (step w o)
  end.

(** [deleteNote] answered with yes and then, if it scheduled its timer,
    that timer, the newest pending one. *)
Definition delete_confirmed (noteId : string) (w : World) : World :=
  let w1 := fst (deleteNote noteId true w) in
  if Nat.ltb (List.length (timers w)) (List.length (timers w1))
  then fst (fire (List.length (timers w)) w1)
  else w1.

(** The element of the note [noteId] is on the page. *)
Definition displayed (noteId : string) (w : World) : bool :=
  match find_note noteId (notesContainer w) with
  | Some _ => true
  | None => false
  end.

(** A computation that leaves the notes and the storage alone, however it
    ends. *)
Definition keeps_data {A} (m : M A) : Prop :=
  forall w, notes (fst (m w)) = notes w /\ storage (fst (m w)) = storage w.

(** The notes in memory are a list of notes with distinct ids, and so is
    whatever the slot of the application holds. *)
Definition sound (w : World) : Prop :=
  (exists l, notes w = notes_to_json l /\ NoDup (map id l))
  /\ (forall s, store_get storage_key (storage w) = Some s ->
                exists l, s = stringify (notes_to_json l) /\ NoDup (map id l)).

(** The text a text node holds for the characters [s] of markup that
    stand for themselves. *)
Definition shown_text (s : string) : string :=
  drop_nul (normalize_newlines s).

(** The text node with the data [s], if there is one. *)
Definition text_node (s : string) : list Token := cons_token (Text s) [].

(** The steps the parser takes on a text. *)
Definition text_steps (s : string) : nat := if is_empty s then 0 else 1.


(** What the parser reads at the head of the markup of a note, down to
    the end tag of the division of the content. *)
Definition content_tokens (n : Note) : list Token :=
  ([Text (nl ++ "            "); StartTag "div" [("class", "note-content")]]
   ++ text_node (shown_text (content n))
   ++ [EndTag "div"])%list.

(** From there to the start tag of the span of the date. *)
Definition footer_tokens : list Token :=
  [Text (nl ++ "            "); StartTag "div" [("class", "note-footer")];
   Text (nl ++ "                "); StartTag "span" [("class", "note-date")]].




End Props.

(* ================================================================== *)
(** ** Sample data *)

Module Sample.
Import Str Json Html App Props.

Definition morning : Date :=
  {| toISOString := "2026-11-02T09:40:00.000Z";
     toLocaleDateString := "Nov 2, 2026, 09:40 AM" |}.

Definition first_reading : Reading :=
  {| date_now := 1700000000000; random36 := "0.4fzyo82mvyr";
     date_timestamp := morning; date_created := morning |}.

Definition second_reading : Reading :=
  {| date_now := 1700000000001; random36 := "0.abc";
     date_timestamp := morning; date_created := morning |}.

Definition fresh_page : World := page_load [] true 4096.

Definition hello : Note :=
  {| id := "loyw3v284fzyo82mvyr"; content := "Hello";
     timestamp := "2026-11-02T09:40:00.000Z";
     dateCreated := "Nov 2, 2026, 09:40 AM" |}.

Definition world : Note :=
  {| id := "loyw3v29abc"; content := "World";
     timestamp := "2026-11-02T09:40:00.000Z";
     dateCreated := "Nov 2, 2026, 09:40 AM" |}.

(** The scenario of the specification: [Hello], then [World]. *)
Definition two_notes : World :=
  run [OpCreate "  Hello " first_reading; OpCreate "World" second_reading]
      fresh_page.

(** Both notes were created under the same answers of the host. *)
Definition twins : World :=
  run [OpCreate "a" first_reading; OpCreate "b" first_reading] fresh_page.


Definition shopping : list Note :=
  [ {| id := "n3"; content := "Buy milk"; timestamp := ""; dateCreated := "" |};
    {| id := "n2"; content := "Call mom"; timestamp := ""; dateCreated := "" |};
    {| id := "n1"; content := "BUY bread"; timestamp := ""; dateCreated := "" |} ].

Definition shopping_page : World :=
  set_notes (notes_to_json shopping) fresh_page.

(** A note whose content, date and id all carry markup. *)
Definition hostile : Note :=
  {| id := "x'); alert(1); ('";
     content := "<script>alert(1)</script>";
     timestamp := "";
     dateCreated := "<img src=x onerror=alert(1)>" |}.

(** A text with a quotation mark, a reverse solidus, a line feed, a tab,
    the control character U+0001, a no-break space and markup. *)
Definition awkward_text : string :=
  "say " ++ dq ++ "hi" ++ dq ++ String backslash nl
  ++ String (ascii_of_nat 9) (String (ascii_of_nat 1) (String (ascii_of_nat 160) ""))
  ++ "<b>&amp;".

Definition awkward : Note :=
  {| id := "k1"; content := awkward_text; timestamp := ""; dateCreated := "" |}.

(** A page whose storage has room for two code units only. *)
Definition cramped : World := page_load [] true 2.

Definition long_session : list Op :=
  [ OpCreate "  Hello " first_reading; OpCreate "World" second_reading;
    OpCreate "   " first_reading; OpPersist;
    OpDelete "loyw3v284fzyo82mvyr" true; OpTimer 3; OpLoad; OpSearch "wor" ].

(** A note whose content holds a carriage return and the character
    U+0000. *)
Definition carriage : Note :=
  {| id := "c1";
     content := "one" ++ String (ascii_of_nat 13) "two"
                ++ String (ascii_of_nat 0) "!";
     timestamp := ""; dateCreated := "" |}.



(** A note whose id holds a quotation mark, on the page after a load. *)
Definition quoted : Note :=
  {| id := "a" ++ dq ++ "b"; content := "Quoted"; timestamp := "";
     dateCreated := "" |}.





End Sample.

(* ================================================================== *)
(** ** Notions used to state the further properties *)

Module More.
Import Str Json Html App Props.

(** A computation that keeps the property [I] of the world, however it
    ends. *)
Definition maintains {A} (I : World -> Prop) (m : M A) : Prop :=
  forall w, I w -> I (fst (m w)).

(** The key [k] of the storage holds [v], or nothing. *)
Definition holds_under (k : string) (v : option string) (w : World) : Prop :=
  store_get k (storage w) = v.

(** A timer of a notice belongs to a notice element made before the
    [n]-th. *)
Definition task_before (n : nat) (t : Task) : Prop :=
  match t with
  | RemoveNote _ => True
  | DismissMessage m | DetachMessage m => m < n
  end.

(** The notice on the page and the notices the pending timers belong to
    were all made already. *)
Definition notices_numbered (w : World) : Prop :=
  (forall x, message w = Some x -> node x < created w)
  /\ Forall (task_before (created w)) (timers w).

(** The timer [t] belongs to a notice. *)
Definition notice_task (t : Task) : bool :=
  match t with
  | RemoveNote _ => false
  | _ => true
  end.

(** The number a radix-36 digit stands for. *)
Definition digit36_value (c : ascii) : N :=
  let n := N_of_ascii c in if (n <? 58)%N then (n - 48)%N else (n - 87)%N.

(** The number a radix-36 text stands for, after the digits [a]. *)
Fixpoint from36 (a : N) (s : string) : N :=
  match s with
  | EmptyString => a
  | String c r => from36 (36 * a + digit36_value c) r
  end.

(** The number [z] is written with [S k] digits in radix 36: a time in
    milliseconds has eight from the middle of 1972 to the middle of 2059
    ([k] is 7). *)
Definition in_digits (k : nat) (z : Z) : Prop :=
  (36 ^ Z.of_nat k <= z < 36 ^ Z.of_nat (S k))%Z.

(** The notes in memory are a list of notes with the property [Q], and so
    is whatever the slot of the application holds. *)
Definition all_notes (Q : list Note -> Prop) (w : World) : Prop :=
  (exists l, notes w = notes_to_json l /\ Q l)
  /\ (forall s, store_get storage_key (storage w) = Some s ->
                exists l, s = stringify (notes_to_json l) /\ Q l).

(** A content as [saveNote] stores it: not empty, and without white space
    at either end. *)
Definition tidy (n : Note) : Prop :=
  content n <> "" /\ trim (content n) = content n.

(** The readings of the creations of [ops] that add a note. *)
Fixpoint readings_of (ops : list Op) : list Reading :=
  match ops with
  | [] => []
  | OpCreate input r :: rest =>
      if is_empty (trim input) then readings_of rest else r :: readings_of rest
  | _ :: rest => readings_of rest
  end.

(** The clock showed a different time, of [S k] radix-36 digits, at each
    of the readings [rs]. *)
Definition clock_ticks (k : nat) (rs : list Reading) : Prop :=
  NoDup (map date_now rs) /\ Forall (fun r => in_digits k (date_now r)) rs.

(** The ids of [l] are distinct and were generated at the readings [rs]. *)
Definition ids_from (rs : list Reading) (l : list Note) : Prop :=
  NoDup (map id l) /\ Forall (fun n => In (id n) (map generateId rs)) l.

(** A value on which [showNotes] throws for want of [forEach]: a number,
    a boolean, a string that is not empty, an object whose [length] is no
    number; or [null], which has no [length]. *)
Definition no_list (j : json) : bool :=
  match j with
  | JNull | JNum _ | JBool _ => true
  | JStr s => negb (is_empty s)
  | JObj o => match obj_get "length" o with
              | Some (JNum _) => false
              | _ => true
              end
  | JArr _ => false
  end.

(** The note a creation with input and reading [c] adds. *)
Definition made (c : string * Reading) : Note :=
  {| id := generateId (snd c);
     content := trim (fst c);
     timestamp := toISOString (date_timestamp (snd c));
     dateCreated := formatDate (date_created (snd c)) |}.

Definition creations (cs : list (string * Reading)) : list Op :=
  map (fun c => OpCreate (fst c) (snd c)) cs.

(** None of the four characters [escapeHtml] replaces occurs in [s]. *)
Definition plain_text (s : string) : bool :=
  negb (has_char "&" s) && negb (has_char "<" s) && negb (has_char ">" s)
  && negb (has_char (ascii_of_nat 160) s).

End More.

(* ================================================================== *)
(** ** More sample data *)

Module Cases.
Import Str Json Html App Props Sample.

(** A page whose storage holds a setting of another script. *)
Definition settings_page : World := page_load [("theme", "dark")] true 4096.

Definition call_mom : Note :=
  {| id := "n2"; content := "Call mom"; timestamp := ""; dateCreated := "" |}.

(** A page whose slot holds a text cut short. *)
Definition corrupt_page : World := page_load [(storage_key, "[1,2")] true 64.

(** A page whose slot holds a number. *)
Definition number_page : World := page_load [(storage_key, "42")] true 64.

Definition stored_shopping : list (string * string) :=
  [(storage_key, stringify (notes_to_json shopping))].

Definition two_creations : list (string * Reading) :=
  [("  Hello ", first_reading); ("World", second_reading)].

End Cases.

(* ================================================================== *)
(** ** Strings: basic facts *)

Module StrFacts.
Import Str.

Lemma append_nil_r (s : string) : s ++ "" = s.
Proof. induction s as [|c s IH]; simpl; [reflexivity | now rewrite IH]. Qed.

Lemma append_assoc (a b c : string) : (a ++ b) ++ c = a ++ (b ++ c).
Proof. induction a as [|x a IH]; simpl; [reflexivity | now rewrite IH]. Qed.

Lemma length_append (a b : string) :
  String.length (a ++ b) = String.length a + String.length b.
Proof. induction a as [|x a IH]; simpl; [reflexivity | now rewrite IH]. Qed.

Lemma eqc_eq (a b : ascii) : eqc a b = true <-> a = b.
Proof. apply Ascii.eqb_eq. Qed.

End StrFacts.

(* ================================================================== *)
(** ** The strings below U+0100 among all strings *)

Module WideFacts.
Import Str StrFacts.

Lemma latin_of_string (s : string) :
  forallb Wide.latin (Wide.of_string s) = true.
Proof.
  induction s as [|c s IH]; [reflexivity|].
  cbn [Wide.of_string forallb]. rewrite IH, andb_true_r.
  unfold Wide.latin. apply N.ltb_lt.
  destruct c as [[] [] [] [] [] [] [] []]; reflexivity.
Qed.

Lemma lower_latin_of_string (s : string) :
  map Wide.lower_latin (Wide.of_string s) = Wide.of_string (toLowerCase s).
Proof.
  induction s as [|c s IH]; [reflexivity|].
  cbn [Wide.of_string map toLowerCase]. rewrite IH. f_equal.
  unfold Wide.lower_latin. now rewrite ascii_N_embedding.
Qed.

Lemma toLowerCase_of_string (s : string) :
  Wide.toLowerCase (Wide.of_string s)
  = Some (Wide.of_string (toLowerCase s)).
Proof.
  unfold Wide.toLowerCase.
  now rewrite latin_of_string, lower_latin_of_string.
Qed.

Lemma eqb_of_ascii (a b : ascii) :
  (N_of_ascii a =? N_of_ascii b)%N = eqc a b.
Proof.
  unfold eqc. destruct (Ascii.eqb_spec a b) as [->|H].
  - apply N.eqb_refl.
  - apply N.eqb_neq. intros E. apply H.
    rewrite <- (ascii_N_embedding a), <- (ascii_N_embedding b).
    now rewrite E.
Qed.

Lemma startsWith_of_string (p s : string) :
  Wide.startsWith (Wide.of_string p) (Wide.of_string s) = startsWith p s.
Proof.
  revert s. induction p as [|a p IH]; intros s; [reflexivity|].
  destruct s as [|b s]; [reflexivity|].
  cbn [Wide.of_string Wide.startsWith startsWith].
  now rewrite eqb_of_ascii, IH.
Qed.

Lemma includes_of_string (hay needle : string) :
  Wide.includes (Wide.of_string hay) (Wide.of_string needle)
  = includes hay needle.
Proof.
  induction hay as [|c hay IH].
  - destruct needle; reflexivity.
  - change (Wide.includes (Wide.of_string (String c hay))
                          (Wide.of_string needle))
      with (Wide.startsWith (Wide.of_string needle)
                            (Wide.of_string (String c hay))
            || Wide.includes (Wide.of_string hay) (Wide.of_string needle)).
    rewrite startsWith_of_string, IH. reflexivity.
Qed.

(** On strings of code units below 256 the test is the one of the rest
    of the development. *)
Lemma content_matches_of_string (query content : string) :
  Wide.content_matches (Wide.of_string query) (Wide.of_string content)
  = Some (includes (toLowerCase content) (toLowerCase query)).
Proof.
  unfold Wide.content_matches.
  now rewrite !toLowerCase_of_string, includes_of_string.
Qed.

End WideFacts.

(* ================================================================== *)
(** ** [JSON.parse] reads back what [JSON.stringify] writes for notes *)

Module JsonFacts.
Import Str Json StrFacts App.

(** Reading one quoted code unit gives the code unit back. *)
Lemma parse_chars_quote_char (c : ascii) (rest : string) :
  parse_chars (quote_char c ++ rest) = cons_char c (parse_chars rest).
Proof.
  destruct c as [[] [] [] [] [] [] [] []]; reflexivity.
Qed.

Lemma parse_chars_quote_body (s rest : string) :
  parse_chars (quote_body s ++ dq ++ rest) = Return (s, rest).
Proof.
  induction s as [|c s IH].
  - reflexivity.
  - change (quote_body (String c s)) with (quote_char c ++ quote_body s).
    rewrite append_assoc, parse_chars_quote_char, IH. reflexivity.
Qed.

Lemma parse_value_at_quote (f : nat) (r : string) :
  parse_value (S f) (String dquote r)
  = obind (parse_chars r) (fun p => Return (JStr (fst p), snd p)).
Proof. reflexivity. Qed.

(** A quoted string is read back as the string. *)
Lemma parse_value_quote (f : nat) (s rest : string) :
  parse_value (S f) (quote s ++ rest) = Return (JStr s, rest).
Proof.
  unfold quote. rewrite !append_assoc.
  change (dq ++ quote_body s ++ dq ++ rest)
    with (String dquote (quote_body s ++ dq ++ rest)).
  rewrite parse_value_at_quote, parse_chars_quote_body. reflexivity.
Qed.

Lemma parse_members_at_quote (f : nat) (r : string) (acc : list (string * json)) :
  parse_members (S f) (String dquote r) acc
  = obind (parse_chars r) (fun k =>
      match skip_ws (snd k) with
      | EmptyString => Throw SyntaxError
      | String c1 r1 =>
          if eqc c1 ":" then
            obind (parse_value f r1) (fun p =>
              match skip_ws (snd p) with
              | EmptyString => Throw SyntaxError
              | String c2 r2 =>
                  if eqc c2 "," then
                    parse_members f r2 (obj_set (fst k) (fst p) acc)
                  else if eqc c2 "}" then
                    Return (JObj (obj_set (fst k) (fst p) acc), r2)
                  else Throw SyntaxError
              end)
          else Throw SyntaxError
      end).
Proof. reflexivity. Qed.

(** One member with a string value, followed by a comma. *)
Lemma parse_members_more (f : nat) (k v rest : string)
      (acc : list (string * json)) :
  parse_members (S (S f)) (quote k ++ ":" ++ quote v ++ "," ++ rest) acc
  = parse_members (S f) rest (obj_set k (JStr v) acc).
Proof.
  unfold quote at 1. rewrite !append_assoc.
  change (dq ++ quote_body k ++ dq ++ ":" ++ quote v ++ "," ++ rest)
    with (String dquote (quote_body k ++ dq ++ ":" ++ quote v ++ "," ++ rest)).
  rewrite parse_members_at_quote, parse_chars_quote_body.
  cbn [obind fst snd].
  change (skip_ws (":" ++ quote v ++ "," ++ rest))
    with (String ":"%char (quote v ++ "," ++ rest)).
  cbn [eqc]. rewrite Ascii.eqb_refl, parse_value_quote.
  reflexivity.
Qed.

(** The last member, followed by the closing brace. *)
Lemma parse_members_last (f : nat) (k v rest : string)
      (acc : list (string * json)) :
  parse_members (S (S f)) (quote k ++ ":" ++ quote v ++ "}" ++ rest) acc
  = Return (JObj (obj_set k (JStr v) acc), rest).
Proof.
  unfold quote at 1. rewrite !append_assoc.
  change (dq ++ quote_body k ++ dq ++ ":" ++ quote v ++ "}" ++ rest)
    with (String dquote (quote_body k ++ dq ++ ":" ++ quote v ++ "}" ++ rest)).
  rewrite parse_members_at_quote, parse_chars_quote_body.
  cbn [obind fst snd].
  change (skip_ws (":" ++ quote v ++ "}" ++ rest))
    with (String ":"%char (quote v ++ "}" ++ rest)).
  cbn [eqc]. rewrite Ascii.eqb_refl, parse_value_quote.
  reflexivity.
Qed.

Lemma stringify_note (n : Note) :
  stringify (note_to_json n)
  = "{" ++ quote "id" ++ ":" ++ quote (id n) ++ "," ++
           quote "content" ++ ":" ++ quote (content n) ++ "," ++
           quote "timestamp" ++ ":" ++ quote (timestamp n) ++ "," ++
           quote "dateCreated" ++ ":" ++ quote (dateCreated n) ++ "}".
Proof.
  unfold note_to_json, stringify. cbn [map join fst snd].
  rewrite !append_assoc. reflexivity.
Qed.

Lemma parse_value_at_brace (f : nat) (r : string) :
  parse_value (S f) (String "{" (String dquote r))
  = parse_members f (String dquote r) [].
Proof. reflexivity. Qed.

Lemma parse_value_note (f : nat) (n : Note) (rest : string) :
  parse_value (6 + f) (stringify (note_to_json n) ++ rest)
  = Return (note_to_json n, rest).
Proof.
  rewrite stringify_note, !append_assoc.
  change (parse_value (6 + f)) with (parse_value (S (5 + f))).
  match goal with
  | |- parse_value _ ("{" ++ quote ?k ++ ?r) = _ =>
      change ("{" ++ quote k ++ r)
        with (String "{" (String dquote (quote_body k ++ dq ++ r)))
  end.
  rewrite parse_value_at_brace.
  match goal with
  | |- parse_members _ (String dquote (quote_body ?k ++ dq ++ ?r)) _ = _ =>
      change (String dquote (quote_body k ++ dq ++ r)) with (quote k ++ r)
  end.
  change (5 + f) with (S (S (3 + f))). rewrite parse_members_more.
  change (S (3 + f)) with (S (S (2 + f))). rewrite parse_members_more.
  change (S (2 + f)) with (S (S (1 + f))). rewrite parse_members_more.
  change (S (1 + f)) with (S (S f)). rewrite parse_members_last.
  reflexivity.
Qed.

Lemma parse_elements_step (f : nat) (s : string) (acc : list json) :
  parse_elements (S f) s acc
  = obind (parse_value f s) (fun p =>
      match skip_ws (snd p) with
      | EmptyString => Throw SyntaxError
      | String c r =>
          if eqc c "," then parse_elements f r (fst p :: acc)
          else if eqc c "]" then Return (JArr (rev (fst p :: acc)), r)
          else Throw SyntaxError
      end).
Proof. reflexivity. Qed.

Lemma parse_elements_notes (l : list Note) :
  forall (n : Note) (f : nat) (rest : string) (acc : list json),
    parse_elements (List.length l + 7 + f)
      (join "," (map stringify (map note_to_json (n :: l))) ++ "]" ++ rest) acc
    = Return (JArr (rev acc ++ map note_to_json (n :: l))%list, rest).
Proof.
  induction l as [|m l IH]; intros n f rest acc.
  - change (List.length (@nil Note) + 7 + f) with (S (6 + f)).
    cbn [map join].
    rewrite parse_elements_step, parse_value_note. cbn [obind fst snd].
    reflexivity.
  - change (List.length (m :: l) + 7 + f) with (S (List.length l + 7 + f)).
    change (join "," (map stringify (map note_to_json (n :: m :: l))))
      with (stringify (note_to_json n) ++ "," ++
            join "," (map stringify (map note_to_json (m :: l)))).
    rewrite !append_assoc, parse_elements_step.
    replace (List.length l + 7 + f) with (6 + (List.length l + 1 + f)) at 1 by lia.
    rewrite parse_value_note. cbn [obind fst snd].
    change (skip_ws ("," ++ join "," (map stringify (map note_to_json (m :: l))) ++ "]" ++ rest))
      with (String ","%char (join "," (map stringify (map note_to_json (m :: l))) ++ "]" ++ rest)).
    cbn [eqc]. rewrite Ascii.eqb_refl, IH.
    cbn [rev map]. rewrite <- app_assoc. reflexivity.
Qed.

Lemma stringify_note_head (n : Note) :
  exists r, stringify (note_to_json n) = String "{" (String dquote r).
Proof. rewrite stringify_note. eexists. reflexivity. Qed.

Lemma parse_value_at_bracket (f : nat) (r : string) :
  parse_value (S f) (String "[" (String "{" r))
  = parse_elements f (String "{" r) [].
Proof. reflexivity. Qed.

Lemma length_stringify_notes (l : list Note) :
  List.length l <= String.length (join "," (map stringify (map note_to_json l))).
Proof.
  induction l as [|n l IH]; [apply Nat.le_0_l|].
  destruct (stringify_note_head n) as [r Hr].
  destruct l as [|m l].
  - cbn [map join]. rewrite Hr. cbn [String.length List.length]. lia.
  - change (join "," (map stringify (map note_to_json (n :: m :: l))))
      with (stringify (note_to_json n) ++ "," ++
            join "," (map stringify (map note_to_json (m :: l)))).
    rewrite Hr, !length_append. cbn [String.length List.length] in *. lia.
Qed.

(** [JSON.parse(JSON.stringify(notes))] is [notes] for a list of notes. *)
Lemma parse_stringify_notes (l : list Note) :
  Json.parse (stringify (notes_to_json l)) = Return (notes_to_json l).
Proof.
  destruct l as [|n l]; [reflexivity|].
  unfold Json.parse, notes_to_json.
  change (stringify (JArr (map note_to_json (n :: l))))
    with ("[" ++ join "," (map stringify (map note_to_json (n :: l))) ++ "]").
  set (body := join "," (map stringify (map note_to_json (n :: l)))).
  assert (Hlen : List.length (n :: l) <= String.length body)
    by apply length_stringify_notes.
  assert (Hhead : exists r, body = String "{" r).
  { subst body. destruct (stringify_note_head n) as [r Hr].
    destruct l as [|m l]; cbn [map join]; rewrite Hr; eexists; reflexivity. }
  destruct Hhead as [r Hr].
  assert (Hf : exists f, 2 * String.length ("[" ++ body ++ "]") + 2
                         = S (List.length l + 7 + f)).
  { exists (2 * String.length ("[" ++ body ++ "]") + 2 - (List.length l + 8)).
    rewrite !length_append. cbn [String.length List.length] in *. lia. }
  destruct Hf as [f Hf]. rewrite Hf.
  change ("[" ++ body ++ "]") with (String "[" (body ++ "]")).
  rewrite Hr.
  change (String "{" r ++ "]") with (String "{" (r ++ "]")).
  rewrite parse_value_at_bracket.
  change (String "{" (r ++ "]")) with (String "{" r ++ "]").
  rewrite <- Hr.
  rewrite <- (append_nil_r (body ++ "]")), append_assoc.
  subst body. rewrite parse_elements_notes.
  reflexivity.
Qed.

End JsonFacts.

(* ================================================================== *)
(** ** The methods in closed form *)

Module AppFacts.
Import Str Json Html App Props StrFacts JsonFacts.

(** *** Running a sequence *)

Lemma bind_return {A B} (m : M A) (k : A -> M B) (w w1 : World) (a : A) :
  m w = (w1, Return a) -> bind m k w = k a w1.
Proof. intros H. unfold bind. now rewrite H. Qed.

(** *** Rendering a list of notes *)

Lemma createNoteElement_note (n : Note) :
  createNoteElement (note_to_json n) = Return (note_element n).
Proof. destruct n; reflexivity. Qed.

Lemma render_list_notes (l : list Note) :
  forall w, render_list (map note_to_json l) w
            = (set_notesContainer (notesContainer w ++ rendered l) w, Return tt).
Proof.
  induction l as [|n l IH]; intros w.
  - destruct w; cbn. now rewrite app_nil_r.
  - cbn [map]. unfold render_list in *. cbn [for_each].
    unfold bind at 1. unfold bind at 1. unfold lift.
    rewrite createNoteElement_note.
    unfold appendChild at 1, modify at 1.
    rewrite IH. cbn [notesContainer set_notesContainer rendered map].
    rewrite <- app_assoc. reflexivity.
Qed.

(** What [showNotes] leaves in the container for the notes [l]. *)
Lemma showNotes_notes (l : list Note) (w : World) :
  notes w = notes_to_json l ->
  showNotes w
  = (set_notesContainer (view l) (emit EvRender w), Return tt).
Proof.
  intros H. unfold showNotes.
  unfold bind at 1, modify at 1. unfold bind at 1, modify at 1.
  unfold bind at 1, gets at 1. cbn [notes set_notesContainer emit].
  rewrite H. destruct l as [|n l].
  - reflexivity.
  - unfold bind at 1, lift at 1. cbn [notes_to_json map length_is_zero List.length Nat.eqb].
    unfold bind at 1, lift at 1.
    change (as_array (notes_to_json (n :: l)))
      with (Return (map note_to_json (n :: l))).
    cbv iota beta. rewrite render_list_notes. reflexivity.
Qed.


Lemma showMessage_run (text type : string) (w : World) :
  showMessage text type w = (posted text type w, Return tt).
Proof. destruct w; reflexivity. Qed.

Lemma write_failure_js (key value : string) (w : World) (e : exn) :
  write_failure key value w = Some e ->
  (e = QuotaExceededError \/ e = SecurityError) /\ is_js_exception e = true.
Proof.
  unfold write_failure.
  destruct (storage_enabled w);
    [destruct (store_size _ <=? storage_capacity w)%nat|];
    intros H; inversion H; subst; auto.
Qed.

Lemma saveToLocalStorage_run (w : World) :
  saveToLocalStorage w
  = (written (stringify (notes w))
             (write_failure storage_key (stringify (notes w)) w) w, Return tt).
Proof.
  unfold saveToLocalStorage, try_catch.
  unfold bind at 1, gets at 1, setItem.
  destruct (write_failure storage_key (stringify (notes w)) w) as [e|] eqn:F.
  - destruct (write_failure_js _ _ _ _ F) as [_ ->].
    unfold bind, console_error, modify. rewrite showMessage_run. reflexivity.
  - reflexivity.
Qed.

Lemma clearInput_run (w : World) :
  clearInput w = (emit EvFocus (set_noteInput EmptyString w), Return tt).
Proof. reflexivity. Qed.


Lemma is_empty_true (s : string) : is_empty s = true <-> s = "".
Proof. destruct s; simpl; split; congruence. Qed.

Lemma is_empty_false (s : string) : is_empty s = false <-> s <> "".
Proof. destruct s; simpl; split; congruence. Qed.

Lemma saveNote_blank (r : Reading) (w : World) :
  trim (noteInput w) = "" ->
  saveNote r w
  = (posted "Please enter a note before adding!" "error" w, Return tt).
Proof.
  intros H. unfold saveNote, bind at 1, gets at 1.
  rewrite H. cbn [is_empty]. apply showMessage_run.
Qed.

Lemma saveNote_run (r : Reading) (w : World) (l : list Note) :
  trim (noteInput w) <> "" ->
  notes w = notes_to_json l ->
  let added := set_notes (notes_to_json (new_note r w :: l)) w in
  let value := stringify (notes_to_json (new_note r w :: l)) in
  saveNote r w
  = (posted "Note added successfully!" "success"
       (emit EvFocus
          (set_noteInput EmptyString
             (set_notesContainer (rendered (new_note r w :: l))
                (emit EvRender
                   (written value (write_failure storage_key value added)
                            added))))),
     Return tt).
Proof.
  intros Hin Hl added value. unfold saveNote, bind at 1, gets at 1.
  apply is_empty_false in Hin. rewrite Hin.
  unfold bind at 1, gets at 1. rewrite Hl.
  unfold bind at 1, lift at 1. cbn [notes_to_json as_array].
  unfold bind at 1, modify at 1.
  change (set_notes _ w) with added.
  rewrite (bind_return _ _ _ _ _ (saveToLocalStorage_run added)).
  change (stringify (notes added)) with value.
  erewrite bind_return.
  2:{ apply (showNotes_notes (new_note r w :: l)).
      destruct (write_failure storage_key value added); reflexivity. }
  rewrite (bind_return _ _ _ _ _ (clearInput_run _)).
  rewrite showMessage_run. reflexivity.
Qed.

Lemma store_get_set (k v : string) (st : list (string * string)) :
  store_get k (store_set k v st) = Some v.
Proof.
  induction st as [|[k' v'] st IH]; cbn.
  - now rewrite String.eqb_refl.
  - destruct (String.eqb k k') eqn:E; cbn; rewrite ?String.eqb_refl, ?E; auto.
Qed.

End AppFacts.

(* ================================================================== *)
(** ** Escaping and the reader of character data *)

Module HtmlFacts.
Import Str Json Html App Props StrFacts JsonFacts.

Lemma character_data_escape_char (c : ascii) (rest : string) :
  character_data 0 (escape_char c ++ rest)
  = cons_text c (character_data 0 rest).
Proof. destruct c as [[] [] [] [] [] [] [] []]; reflexivity. Qed.

(** The reader gives back an escaped text, and stops at the tag after
    it. *)
Lemma character_data_escape_text (s rest : string) :
  character_data 0 (escape_text s ++ String "<" rest)
  = Return (s, String "<" rest).
Proof.
  induction s as [|c s IH].
  - reflexivity.
  - change (escape_text (String c s)) with (escape_char c ++ escape_text s).
    rewrite append_assoc, character_data_escape_char, IH. reflexivity.
Qed.

Lemma has_char_append (c : ascii) (a b : string) :
  has_char c (a ++ b) = has_char c a || has_char c b.
Proof.
  induction a as [|x a IH]; cbn; [reflexivity|].
  now rewrite IH, orb_assoc.
Qed.

Lemma escape_char_no_angle (c : ascii) :
  has_char "<" (escape_char c) = false /\ has_char ">" (escape_char c) = false.
Proof. destruct c as [[] [] [] [] [] [] [] []]; split; reflexivity. Qed.

Lemma escape_text_no_angle (s : string) :
  has_char "<" (escape_text s) = false /\ has_char ">" (escape_text s) = false.
Proof.
  induction s as [|c s [IH1 IH2]]; [split; reflexivity|].
  change (escape_text (String c s)) with (escape_char c ++ escape_text s).
  rewrite !has_char_append, IH1, IH2.
  destruct (escape_char_no_angle c) as [-> ->]. split; reflexivity.
Qed.

End HtmlFacts.

(* ================================================================== *)
(** ** The markup of a note as the parser reads it *)

Module TokenFacts.
Import Str Json Html App Props StrFacts JsonFacts.
Import AppFacts HtmlFacts.

(** *** Newlines *)

Lemma newlines_flag (s : string) :
  starts_lf s = false -> newlines true s = newlines false s.
Proof.
  destruct s as [|c r]; [reflexivity|]. cbn [starts_lf newlines].
  intros ->. now rewrite andb_false_l.
Qed.

Lemma newlines_append (a b : string) :
  starts_lf b = false ->
  forall f, newlines f (a ++ b) = newlines f a ++ newlines false b.
Proof.
  intros Hb. induction a as [|c a IH]; intros f.
  - cbn [append newlines]. destruct f; [now apply newlines_flag | reflexivity].
  - cbn [append newlines].
    destruct (code c =? 13)%nat; [cbn; now rewrite IH|].
    destruct ((code c =? 10)%nat && f); [apply IH | cbn; now rewrite IH].
Qed.

Lemma newlines_escape_char (c : ascii) (x : string) (f : bool) :
  (code c =? 13)%nat = false -> (code c =? 10)%nat = false ->
  newlines f (escape_char c ++ x) = escape_char c ++ newlines false x.
Proof.
  destruct c as [[] [] [] [] [] [] [] []]; intros H1 H2;
    first [discriminate H1 | discriminate H2 | reflexivity].
Qed.

Lemma newlines_escape_text (s : string) :
  forall f, newlines f (escape_text s) = escape_text (newlines f s).
Proof.
  induction s as [|c s IH]; intros f; [reflexivity|].
  change (escape_text (String c s)) with (escape_char c ++ escape_text s).
  cbn [newlines].
  destruct (code c =? 13)%nat eqn:H13.
  - apply Nat.eqb_eq in H13.
    assert (c = ascii_of_nat 13) as ->
        by (rewrite <- (ascii_nat_embedding c); unfold code in H13; now rewrite H13).
    change (newlines f (escape_char (ascii_of_nat 13) ++ escape_text s))
      with (String (ascii_of_nat 10) (newlines true (escape_text s))).
    change (escape_text (String (ascii_of_nat 10) (newlines true s)))
      with (String (ascii_of_nat 10) (escape_text (newlines true s))).
    now rewrite IH.
  - destruct (code c =? 10)%nat eqn:H10.
    + apply Nat.eqb_eq in H10.
      assert (c = ascii_of_nat 10) as ->
          by (rewrite <- (ascii_nat_embedding c); unfold code in H10; now rewrite H10).
      destruct f; cbn [andb].
      * change (newlines true (escape_char (ascii_of_nat 10) ++ escape_text s))
          with (newlines false (escape_text s)).
        apply IH.
      * change (newlines false (escape_char (ascii_of_nat 10) ++ escape_text s))
          with (String (ascii_of_nat 10) (newlines false (escape_text s))).
        change (escape_text (String (ascii_of_nat 10) (newlines false s)))
          with (String (ascii_of_nat 10) (escape_text (newlines false s))).
        now rewrite IH.
    + rewrite newlines_escape_char by assumption. cbn [andb].
      change (escape_text (String c (newlines false s)))
        with (escape_char c ++ escape_text (newlines false s)).
      now rewrite IH.
Qed.


(** *** Text and quoted values *)




(** *** Tokens *)

Lemma newlines_nonempty (c : ascii) (r : string) :
  exists x t, newlines false (String c r) = String x t.
Proof.
  cbn [newlines]. destruct (code c =? 13)%nat; [eauto|].
  rewrite andb_false_r. eauto.
Qed.

Lemma take_tokens_end (k : nat) : take_tokens k "" = Return ([], "").
Proof. destruct k; reflexivity. Qed.

Lemma cons_token_app (t : Token) (a b : list Token) :
  cons_token t (a ++ b)%list = (cons_token t a ++ b)%list.
Proof. destruct t as [[|c d]| |]; reflexivity. Qed.

Lemma take_tokens_app (k1 : nat) :
  forall k2 s ts1 s1 ts2 s2,
    take_tokens k1 s = Return (ts1, s1) ->
    take_tokens k2 s1 = Return (ts2, s2) ->
    take_tokens (k1 + k2) s = Return ((ts1 ++ ts2)%list, s2).
Proof.
  induction k1 as [|k1 IH]; intros k2 s ts1 s1 ts2 s2 H1 H2.
  - cbn in H1. inversion H1; subst. exact H2.
  - cbn [Nat.add take_tokens] in *.
    destruct (next_token s) as [[[t rest]|]|e]; cbn [obind] in *;
      [| |discriminate].
    + destruct (take_tokens k1 rest) as [[ts r]|e] eqn:E; cbn [obind] in *;
        [|discriminate].
      cbn [fst snd] in H1. inversion H1; subst.
      rewrite (IH k2 rest ts s1 ts2 s2 E H2). cbn [obind fst snd].
      now rewrite cons_token_app.
    + inversion H1; subst. rewrite take_tokens_end in H2.
      inversion H2; subst. reflexivity.
Qed.


Lemma escape_char_head (c : ascii) :
  exists h t, escape_char c = String h t /\ eqc h "<" = false.
Proof.
  destruct c as [[] [] [] [] [] [] [] []]; eexists; eexists; split; reflexivity.
Qed.

(** An escaped text is read as one text, whatever it holds. *)
Lemma take_tokens_escaped (s rest : string) :
  take_tokens (text_steps s) (escape_text s ++ String "<" rest)
  = Return (text_node (drop_nul s), String "<" rest).
Proof.
  destruct s as [|c s]; [reflexivity|].
  cbn [text_steps is_empty take_tokens].
  assert (E : next_token (escape_text (String c s) ++ String "<" rest)
              = Return (Some (Text (drop_nul (String c s)), String "<" rest))).
  { pose proof (character_data_escape_text (String c s) rest) as H.
    change (escape_text (String c s)) with (escape_char c ++ escape_text s)
      in *.
    destruct (escape_char_head c) as [h [t [Eh Hh]]]. rewrite Eh in *.
    cbn [append] in *. unfold next_token. rewrite Hh, H. reflexivity. }
  rewrite E. reflexivity.
Qed.


Lemma take_tokens_open (x : string) :
  take_tokens 2 (template_open ++ x)
  = Return ([Text (nl ++ "            ");
             StartTag "div" [("class", "note-content")]], x).
Proof. reflexivity. Qed.

Lemma take_tokens_date (x : string) :
  take_tokens 5 (template_date ++ x)
  = Return (EndTag "div" :: footer_tokens, x).
Proof. reflexivity. Qed.

(** *** Tags *)











Lemma text_steps_newlines (s : string) :
  text_steps (normalize_newlines s) = text_steps s.
Proof.
  destruct s as [|c r]; [reflexivity|].
  destruct (newlines_nonempty c r) as [x [t E]].
  unfold normalize_newlines. now rewrite E.
Qed.


(** What the parser reads at the head of the markup of any note. *)
Lemma take_tokens_content (n : Note) (x : string) :
  take_tokens (2 + text_steps (content n) + 1)
    (template_open ++ escape_text (normalize_newlines (content n))
     ++ template_date ++ x)
  = Return (content_tokens n,
            nl ++ "            <div class=" ++ dq ++ "note-footer" ++ dq
            ++ ">" ++ nl ++ "                <span class=" ++ dq
            ++ "note-date" ++ dq ++ ">" ++ x).
Proof.
  unfold content_tokens.
  rewrite <- Nat.add_assoc.
  apply (take_tokens_app 2 _ _ _ _ _ _ (take_tokens_open _)).
  rewrite <- (text_steps_newlines (content n)).
  eapply take_tokens_app; [apply take_tokens_escaped | reflexivity].
Qed.




(** *** What the page holds for a selector *)









(** *** A date that is markup *)



Lemma newlines_plain (s : string) :
  has_char (ascii_of_nat 13) s = false -> normalize_newlines s = s.
Proof.
  unfold normalize_newlines. induction s as [|c s IH]; intros H;
    [reflexivity|].
  cbn [has_char] in H. apply orb_false_iff in H. destruct H as [H1 H2].
  cbn [newlines]. rewrite andb_false_r.
  replace (code c =? 13)%nat with false; [now rewrite (IH H2)|].
  symmetry. apply Nat.eqb_neq. intros E.
  unfold eqc in H1. apply Ascii.eqb_neq in H1. apply H1.
  rewrite <- (ascii_nat_embedding c). unfold code in E. now rewrite E.
Qed.

Lemma drop_nul_plain (s : string) :
  has_char (ascii_of_nat 0) s = false -> drop_nul s = s.
Proof.
  induction s as [|c s IH]; intros H; [reflexivity|].
  cbn [has_char] in H. apply orb_false_iff in H. destruct H as [H1 H2].
  cbn [drop_nul].
  replace (code c =? 0)%nat with false; [now rewrite (IH H2)|].
  symmetry. apply Nat.eqb_neq. intros E.
  unfold eqc in H1. apply Ascii.eqb_neq in H1. apply H1.
  rewrite <- (ascii_nat_embedding c). unfold code in E. now rewrite E.
Qed.

Lemma shown_text_plain (s : string) :
  has_char (ascii_of_nat 13) s = false ->
  has_char (ascii_of_nat 0) s = false ->
  shown_text s = s.
Proof.
  intros H1 H2. unfold shown_text.
  now rewrite (newlines_plain s H1), (drop_nul_plain s H2).
Qed.

(** The markup of a note, normalised, around the date and what follows
    it. *)
Lemma normalize_note_markup_date (n : Note) :
  normalize_newlines (innerHTML (note_element n))
  = template_open ++ escape_text (normalize_newlines (content n))
    ++ template_date
    ++ normalize_newlines (dateCreated n ++ template_id ++ id n
                           ++ template_close).
Proof.
  unfold normalize_newlines, note_element, innerHTML, escapeHtml.
  change (newlines false (template_open ++ ?x))
    with (template_open ++ newlines false x).
  rewrite (newlines_append (escape_text (content n))) by reflexivity.
  rewrite newlines_escape_text.
  reflexivity.
Qed.

End TokenFacts.


(* ================================================================== *)
(** ** Searching *)

Module SearchFacts.
Import Str Json Html App Props StrFacts JsonFacts.
Import AppFacts.

Lemma startsWith_spec (p s : string) :
  startsWith p s = true <-> exists r, s = p ++ r.
Proof.
  revert s. induction p as [|a p IH]; intros s; cbn.
  - split; [intros _; now exists s | reflexivity].
  - destruct s as [|b s].
    + split; [discriminate | intros [r H]; discriminate].
    + rewrite andb_true_iff, eqc_eq, IH. split.
      * intros [-> [r ->]]. now exists r.
      * intros [r H]. inversion H. split; [reflexivity | now exists r].
Qed.

Lemma includes_spec (hay needle : string) :
  includes hay needle = true <-> exists a b, hay = a ++ needle ++ b.
Proof.
  induction hay as [|c hay IH].
  - cbn. rewrite orb_false_r, startsWith_spec. split.
    + intros [r H]. now exists EmptyString, r.
    + intros [a [b H]]. destruct a; [now exists b | discriminate].
  - cbn [includes]. rewrite orb_true_iff, startsWith_spec, IH. split.
    + intros [[r H] | [a [b H]]].
      * now exists EmptyString, r.
      * exists (String c a), b. cbn. now rewrite H.
    + intros [a [b H]]. destruct a as [|x a].
      * left. now exists b.
      * right. inversion H. now exists a, b.
Qed.

Lemma toLowerCase_append (a b : string) :
  toLowerCase (a ++ b) = toLowerCase a ++ toLowerCase b.
Proof. induction a as [|x a IH]; cbn; [reflexivity | now rewrite IH]. Qed.

(** Lower-casing keeps positions: a split of the image is the image of a
    split. *)
Lemma toLowerCase_split (s a b : string) :
  toLowerCase s = a ++ b ->
  exists s1 s2, s = s1 ++ s2 /\ toLowerCase s1 = a /\ toLowerCase s2 = b.
Proof.
  revert s. induction a as [|x a IH]; intros s H.
  - now exists EmptyString, s.
  - destruct s as [|c s]; [discriminate|].
    cbn in H. inversion H as [[Hc Hs]].
    destruct (IH s Hs) as [s1 [s2 [-> [H1 H2]]]].
    exists (String c s1), s2. cbn. now rewrite H1, H2.
Qed.

Lemma same_ignoring_case_spec (a b : string) :
  same_ignoring_case a b <-> toLowerCase a = toLowerCase b.
Proof.
  revert b. induction a as [|x a IH]; intros [|y b]; cbn;
    try (split; [contradiction || reflexivity | discriminate || trivial]).
  rewrite IH. split.
  - intros [-> ->]. reflexivity.
  - intros H. inversion H. now split.
Qed.

(** The test of [searchNotes] is containment, case not counting. *)
Lemma includes_ignoring_case (q c : string) :
  includes (toLowerCase c) (toLowerCase q) = true
  <-> occurs_ignoring_case q c.
Proof.
  rewrite includes_spec. unfold occurs_ignoring_case. split.
  - intros [a [b H]].
    destruct (toLowerCase_split _ _ _ H) as [s1 [s2 [-> [H1 H2]]]].
    destruct (toLowerCase_split _ _ _ H2) as [s3 [s4 [-> [H3 H4]]]].
    exists s1, s3, s4. split; [reflexivity|].
    now apply same_ignoring_case_spec.
  - intros [s1 [s3 [s4 [-> H]]]]. apply same_ignoring_case_spec in H.
    exists (toLowerCase s1), (toLowerCase s4).
    now rewrite !toLowerCase_append, H.
Qed.

Lemma matches_note (q : string) (n : Note) :
  matches q (note_to_json n) = Return (note_matches q n).
Proof. destruct n; reflexivity. Qed.

Lemma filter_matching_notes (q : string) (l : list Note) :
  filter_matching q (map note_to_json l)
  = Return (map note_to_json (filter (note_matches q) l)).
Proof.
  induction l as [|n l IH]; [reflexivity|].
  cbn [map filter_matching filter]. rewrite matches_note, IH. cbn [obind].
  now destruct (note_matches q n).
Qed.

Lemma displayFilteredNotes_notes (l : list Note) (w : World) :
  displayFilteredNotes (map note_to_json l) w
  = (set_notesContainer (search_view l) (emit EvRender w), Return tt).
Proof.
  unfold displayFilteredNotes.
  unfold bind at 1, modify at 1. unfold bind at 1, modify at 1.
  destruct l as [|n l]; [reflexivity|].
  rewrite length_map. cbn [List.length Nat.eqb].
  rewrite render_list_notes. reflexivity.
Qed.

Lemma searchNotes_notes (q : string) (l : list Note) (w : World) :
  notes w = notes_to_json l ->
  trim q <> "" ->
  searchNotes q w
  = (set_notesContainer (search_view (filter (note_matches q) l))
                        (emit EvRender w), Return tt).
Proof.
  intros Hl Hq. unfold searchNotes. apply is_empty_false in Hq. rewrite Hq.
  unfold bind at 1, gets at 1. rewrite Hl.
  unfold bind at 1, lift at 1. cbn [notes_to_json as_array].
  unfold bind at 1, lift at 1. rewrite filter_matching_notes.
  apply displayFilteredNotes_notes.
Qed.

End SearchFacts.

(* ================================================================== *)
(** ** What leaves the notes and the storage alone *)

Module FrameFacts.
Import Str Json Html App Props StrFacts JsonFacts.
Import AppFacts.

Lemma keeps_ret {A} (a : A) : keeps_data (ret a).
Proof. intros w. split; reflexivity. Qed.

Lemma keeps_throw {A} (e : exn) : keeps_data (@throw A e).
Proof. intros w. split; reflexivity. Qed.

Lemma keeps_lift {A} (o : outcome A) : keeps_data (lift o).
Proof. intros w. split; reflexivity. Qed.

Lemma keeps_gets {A} (f : World -> A) : keeps_data (gets f).
Proof. intros w. split; reflexivity. Qed.

Lemma keeps_modify (f : World -> World) :
  (forall w, notes (f w) = notes w /\ storage (f w) = storage w) ->
  keeps_data (modify f).
Proof. intros H w. apply H. Qed.

Lemma keeps_bind {A B} (m : M A) (k : A -> M B) :
  keeps_data m -> (forall a, keeps_data (k a)) -> keeps_data (bind m k).
Proof.
  intros Hm Hk w. unfold bind. specialize (Hm w).
  destruct (m w) as [w1 [a|e]]; cbn [fst] in *.
  - destruct (Hk a w1) as [H1 H2]. destruct Hm as [H3 H4].
    split; congruence.
  - exact Hm.
Qed.

Create HintDb keeps_db.

Ltac keeps :=
  repeat first
    [ solve [auto 1 with keeps_db nocore]
    | apply keeps_ret | apply keeps_throw | apply keeps_lift
    | apply keeps_gets
    | apply keeps_modify; intros ?; split; reflexivity
    | apply keeps_bind; [|intros ?]
    | match goal with
      | |- keeps_data (if ?b then _ else _) => destruct b
      | |- keeps_data (match ?o with Some _ => _ | None => _ end) => destruct o
      end ].

Lemma keeps_for_each {A} (f : A -> M unit) (l : list A) :
  (forall a, keeps_data (f a)) -> keeps_data (for_each f l).
Proof.
  intros H. induction l as [|x l IH]; cbn [for_each].
  - apply keeps_ret.
  - apply keeps_bind; [apply H | intros _; exact IH].
Qed.

Lemma keeps_render_list (l : list json) : keeps_data (render_list l).
Proof.
  apply keeps_for_each. intros a. unfold appendChild. keeps.
Qed.

#[local] Hint Resolve keeps_render_list : keeps_db.

Lemma keeps_showNotes : keeps_data showNotes.
Proof. unfold showNotes, showEmptyState. keeps. Qed.

#[local] Hint Resolve keeps_showNotes : keeps_db.

Lemma keeps_displayFilteredNotes (l : list json) :
  keeps_data (displayFilteredNotes l).
Proof.
  unfold displayFilteredNotes. keeps.
Qed.

#[local] Hint Resolve keeps_displayFilteredNotes : keeps_db.

Lemma keeps_searchNotes (q : string) : keeps_data (searchNotes q).
Proof.
  unfold searchNotes. keeps.
Qed.

Lemma keeps_showMessage (text type : string) :
  keeps_data (showMessage text type).
Proof. intros w. rewrite showMessage_run. split; reflexivity. Qed.

Lemma keeps_add_removing (noteId : string) (h : Hit) :
  keeps_data (modify (add_removing noteId h)).
Proof. apply keeps_modify. intros w. destruct h; split; reflexivity. Qed.

#[local] Hint Resolve keeps_add_removing : keeps_db.

Lemma keeps_deleteNote (noteId : string) (answer : bool) :
  keeps_data (deleteNote noteId answer).
Proof.
  unfold deleteNote, querySelector_note, setTimeout.
  keeps.
Qed.

Lemma keeps_dismissMessage (m : nat) : keeps_data (dismissMessage m).
Proof. unfold dismissMessage, setTimeout. keeps. Qed.

Lemma keeps_detachMessage (m : nat) : keeps_data (detachMessage m).
Proof. unfold detachMessage. keeps. Qed.

End FrameFacts.

(* ================================================================== *)
(** ** Deleting *)

Module DeleteFacts.
Import Str Json Html App Props StrFacts JsonFacts.
Import AppFacts.

Lemma filter_out_notes (noteId : string) (l : list Note) :
  filter_out noteId (map note_to_json l)
  = Return (map note_to_json (without noteId l)).
Proof.
  induction l as [|n l IH]; [reflexivity|].
  cbn [map filter_out]. rewrite IH. destruct n as [i c t d].
  cbn. now destruct (String.eqb i noteId).
Qed.

Lemma removeNote_run (noteId : string) (w : World) (l : list Note) :
  notes w = notes_to_json l ->
  let removed := set_notes (notes_to_json (without noteId l)) w in
  let value := stringify (notes_to_json (without noteId l)) in
  removeNote noteId w
  = (posted "Note deleted successfully!" "success"
       (set_notesContainer (view (without noteId l))
          (emit EvRender
             (written value (write_failure storage_key value removed)
                      removed))),
     Return tt).
Proof.
  intros Hl removed value. unfold removeNote.
  unfold bind at 1, gets at 1. rewrite Hl.
  unfold bind at 1, lift at 1. cbn [notes_to_json as_array].
  unfold bind at 1, lift at 1. rewrite filter_out_notes.
  unfold bind at 1, modify at 1.
  change (set_notes _ w) with removed.
  rewrite (bind_return _ _ _ _ _ (saveToLocalStorage_run removed)).
  change (stringify (notes removed)) with value.
  erewrite bind_return.
  2:{ apply (showNotes_notes (without noteId l)).
      destruct (write_failure storage_key value removed); reflexivity. }
  rewrite showMessage_run. reflexivity.
Qed.

Lemma nth_error_last {A} (l : list A) (x : A) :
  nth_error (l ++ [x]) (List.length l) = Some x.
Proof. induction l; cbn; auto. Qed.

Lemma remove_nth_last {A} (l : list A) (x : A) :
  remove_nth (List.length l) (l ++ [x]) = l.
Proof. induction l as [|y l IH]; cbn; [reflexivity | now rewrite IH]. Qed.

(** The timer [deleteNote] has just scheduled fires. *)
Lemma fire_last (t : Task) (w : World) :
  fire (List.length (timers w)) (set_timers (timers w ++ [t]) w)
  = run_task t w.
Proof.
  unfold fire, bind at 1, gets at 1. cbn [timers set_timers].
  rewrite nth_error_last, remove_nth_last.
  unfold bind, modify. destruct w; reflexivity.
Qed.

(** A child of the container that the selector matches is found, or an
    element before it is. *)
Lemma query_note_found (noteId : string) (l : list Node) :
  forall j sure k,
    find_note noteId l = Some j ->
    exists h, query_note noteId sure k l = Return (Some h).
Proof.
  induction l as [|n l IH]; intros j sure k H; [discriminate|].
  cbn [find_note query_note] in *.
  destruct (has_note_id noteId n); [eexists; reflexivity|].
  destruct (find_note noteId l) as [j'|] eqn:Hf; [|discriminate].
  destruct (holds_element "data-note-id" noteId n) as [[|]|e];
    [eexists; reflexivity | eapply IH; reflexivity | eapply IH; reflexivity].
Qed.

Lemma add_removing_frame (noteId : string) (h : Hit) (w : World) :
  notes (add_removing noteId h w) = notes w
  /\ storage (add_removing noteId h w) = storage w
  /\ storage_enabled (add_removing noteId h w) = storage_enabled w
  /\ storage_capacity (add_removing noteId h w) = storage_capacity w
  /\ timers (add_removing noteId h w) = timers w
  /\ message (add_removing noteId h w) = message w
  /\ created (add_removing noteId h w) = created w
  /\ noteInput (add_removing noteId h w) = noteInput w.
Proof. destruct h; repeat split. Qed.


Lemma deleteNote_found (noteId : string) (w : World) (k : nat) :
  selector_plain noteId = true ->
  find_note noteId (notesContainer w) = Some k ->
  exists h,
    deleteNote noteId true w
    = (set_timers (timers w ++ [RemoveNote noteId])
         (add_removing noteId h w), Return tt).
Proof.
  intros Hp Hf. unfold deleteNote, querySelector_note. rewrite Hp.
  destruct (query_note_found noteId _ k true 0 Hf) as [h Hq].
  exists h. unfold bind, gets, lift, modify, setTimeout, ret.
  rewrite Hq. destruct h; reflexivity.
Qed.


Lemma delete_confirmed_scheduled (noteId : string) (h : Hit) (w : World) :
  deleteNote noteId true w
  = (set_timers (timers w ++ [RemoveNote noteId])
       (add_removing noteId h w), Return tt) ->
  delete_confirmed noteId w
  = fst (removeNote noteId (add_removing noteId h w)).
Proof.
  intros E. unfold delete_confirmed. rewrite E.
  cbn [fst timers set_timers]. rewrite length_app. cbn [List.length].
  replace (List.length (timers w) <? List.length (timers w) + 1)%nat with true
    by (symmetry; apply Nat.ltb_lt; lia).
  destruct (add_removing_frame noteId h w) as [_ [_ [_ [_ [Ht _]]]]].
  rewrite <- Ht. rewrite fire_last. reflexivity.
Qed.

Lemma delete_confirmed_found (noteId : string) (w : World) (k : nat) :
  selector_plain noteId = true ->
  find_note noteId (notesContainer w) = Some k ->
  exists h,
    delete_confirmed noteId w
    = fst (removeNote noteId (add_removing noteId h w)).
Proof.
  intros Hp Hf. destruct (deleteNote_found noteId w k Hp Hf) as [h E].
  exists h. now apply delete_confirmed_scheduled.
Qed.



(** The world a removal starts from after [deleteNote] holds the notes
    and the storage of the world before. *)
Lemma removeNote_after_mark (noteId : string) (h : Hit) (w : World)
      (l : list Note) :
  notes w = notes_to_json l ->
  let w1 := add_removing noteId h w in
  let removed := set_notes (notes_to_json (without noteId l)) w1 in
  let value := stringify (notes_to_json (without noteId l)) in
  removeNote noteId w1
  = (posted "Note deleted successfully!" "success"
       (set_notesContainer (view (without noteId l))
          (emit EvRender
             (written value
                (write_failure storage_key value
                   (set_notes (notes_to_json (without noteId l)) w))
                removed))),
     Return tt).
Proof.
  intros Hl w1 removed value.
  destruct (add_removing_frame noteId h w) as [Hn _].
  rewrite (removeNote_run noteId w1 l (eq_trans Hn Hl)).
  fold removed. fold value.
  replace (write_failure storage_key value removed)
    with (write_failure storage_key value
            (set_notes (notes_to_json (without noteId l)) w));
    [reflexivity|].
  subst removed w1. destruct h; reflexivity.
Qed.




Lemma NoDup_unique_target {A} (l1 l2 : list A) (x : A) :
  NoDup (l1 ++ x :: l2) -> ~ In x (l1 ++ l2).
Proof. apply NoDup_remove_2. Qed.

End DeleteFacts.

(* ================================================================== *)
(** ** Loading, and what every reachable world satisfies *)

Module ReachFacts.
Import Str Json Html App Props StrFacts JsonFacts.
Import AppFacts FrameFacts DeleteFacts.

Lemma getItem_run (key : string) (w : World) :
  storage_enabled w = true ->
  getItem key w = (emit (EvGetItem key) w, Return (store_get key (storage w))).
Proof. intros H. unfold getItem, bind, modify, gets. cbn. now rewrite H. Qed.

Lemma loadNotes_stored (w : World) (s : string) (j : json) :
  storage_enabled w = true ->
  store_get storage_key (storage w) = Some s ->
  s <> "" ->
  Json.parse s = Return j ->
  loadNotes w = (set_notes j (emit (EvGetItem storage_key) w), Return tt).
Proof.
  intros He Hs Hn Hp. unfold loadNotes, try_catch.
  rewrite (bind_return _ _ _ _ _ (getItem_run storage_key w He)), Hs.
  apply is_empty_false in Hn. rewrite Hn.
  unfold bind, lift, modify. rewrite Hp. reflexivity.
Qed.

Lemma stringify_notes_not_empty (l : list Note) :
  stringify (notes_to_json l) <> "".
Proof. discriminate. Qed.

Lemma loadNotes_absent (w : World) :
  storage_enabled w = true ->
  store_get storage_key (storage w) = None ->
  loadNotes w = (emit (EvGetItem storage_key) w, Return tt).
Proof.
  intros He Hs. unfold loadNotes, try_catch.
  rewrite (bind_return _ _ _ _ _ (getItem_run storage_key w He)), Hs.
  reflexivity.
Qed.

Lemma loadNotes_disabled (w : World) :
  storage_enabled w = false ->
  loadNotes w
  = (set_notes (JArr [])
       (emit (EvConsoleError "Error loading notes from localStorage:"
                             SecurityError)
             (emit (EvGetItem storage_key) w)), Return tt).
Proof.
  intros He. destruct w. cbn [storage_enabled] in He. subst.
  reflexivity.
Qed.

Lemma sound_frame (w w' : World) :
  sound w -> notes w' = notes w -> storage w' = storage w -> sound w'.
Proof. intros [H1 H2] Hn Hs. split; [rewrite Hn | rewrite Hs]; assumption. Qed.

Lemma sound_keeps {A} (m : M A) (w : World) :
  keeps_data m -> sound w -> sound (fst (m w)).
Proof. intros Hk Hw. destruct (Hk w). eapply sound_frame; eauto. Qed.

Lemma store_get_set_inv (k v s : string) (st : list (string * string)) :
  store_get k (store_set k v st) = Some s -> s = v.
Proof. rewrite store_get_set. congruence. Qed.

(** Writing the notes in memory keeps a sound world sound. *)
Lemma sound_written (w : World) (l : list Note) (f : option exn) :
  notes w = notes_to_json l -> NoDup (map id l) ->
  (forall s, store_get storage_key (storage w) = Some s ->
             exists l', s = stringify (notes_to_json l') /\ NoDup (map id l')) ->
  sound (written (stringify (notes_to_json l)) f w).
Proof.
  intros Hl Hn Hs. destruct f as [e|]; cbn [written].
  - split; [exists l; auto | exact Hs].
  - split; [exists l; auto|].
    cbn [storage emit set_storage]. intros s H.
    apply store_get_set_inv in H. subst s. exists l. auto.
Qed.

Lemma sound_saveToLocalStorage (w : World) :
  sound w -> sound (fst (saveToLocalStorage w)).
Proof.
  intros [[l [Hl Hn]] Hs]. rewrite saveToLocalStorage_run, Hl. cbn [fst].
  now apply sound_written.
Qed.

Lemma sound_loadNotes (w : World) : sound w -> sound (fst (loadNotes w)).
Proof.
  intros [[l [Hl Hn]] Hs]. destruct (storage_enabled w) eqn:He.
  - case_eq (store_get storage_key (storage w)); [intros s Hg | intros Hg].
    + destruct (Hs s Hg) as [l' [-> Hn']].
      rewrite (loadNotes_stored w _ (notes_to_json l') He Hg
                 (stringify_notes_not_empty l') (parse_stringify_notes l')).
      split; [exists l'; auto | exact Hs].
    + rewrite (loadNotes_absent w He Hg). split; [exists l; auto | exact Hs].
  - rewrite (loadNotes_disabled w He). split; [|exact Hs].
    exists []. split; [reflexivity | constructor].
Qed.

Lemma NoDup_without (noteId : string) (l : list Note) :
  NoDup (map id l) -> NoDup (map id (without noteId l)).
Proof.
  induction l as [|n l IH]; intros H; [constructor|].
  cbn [map] in H. inversion H as [|? ? Hin Hnd]; subst.
  unfold without in *. cbn [filter].
  destruct (negb (String.eqb (id n) noteId)); [|auto].
  cbn [map]. constructor; [|auto].
  intros Hc. apply Hin. apply in_map_iff in Hc.
  destruct Hc as [m [Hm Hf]]. apply filter_In in Hf.
  apply in_map_iff. exists m. tauto.
Qed.

Lemma sound_removeNote (noteId : string) (w : World) :
  sound w -> sound (fst (removeNote noteId w)).
Proof.
  intros [[l [Hl Hn]] Hs]. rewrite (removeNote_run noteId w l Hl). cbn [fst].
  eapply sound_frame;
    [apply (sound_written (set_notes (notes_to_json (without noteId l)) w)
                          (without noteId l)
                          (write_failure storage_key
                             (stringify (notes_to_json (without noteId l)))
                             (set_notes (notes_to_json (without noteId l)) w)))
    | reflexivity | reflexivity].
  - reflexivity.
  - now apply NoDup_without.
  - exact Hs.
Qed.

Lemma sound_fire (k : nat) (w : World) : sound w -> sound (fst (fire k w)).
Proof.
  intros Hw. unfold fire, bind at 1, gets at 1.
  destruct (nth_error (timers w) k) as [t|]; [|exact Hw].
  unfold bind, modify.
  assert (H2 : sound (set_timers (remove_nth k (timers w)) w))
    by (eapply sound_frame; [exact Hw | reflexivity | reflexivity]).
  destruct t as [noteId|m|m]; cbn [run_task].
  - now apply sound_removeNote.
  - apply sound_keeps; [apply keeps_dismissMessage | exact H2].
  - apply sound_keeps; [apply keeps_detachMessage | exact H2].
Qed.

Lemma note_ids_notes (w : World) (l : list Note) :
  notes w = notes_to_json l -> note_ids w = map Some (map id l).
Proof.
  intros H. unfold note_ids. rewrite H. cbn [notes_to_json].
  rewrite !map_map. apply map_ext. now intros [i c t d].
Qed.

Lemma fresh_not_in (g : string) (l : list string) :
  existsb (fun i => match i with
                    | Some s => String.eqb s g
                    | None => false
                    end) (map Some l) = false ->
  ~ In g l.
Proof.
  induction l as [|x l IH]; cbn; [tauto|].
  rewrite orb_false_iff. intros [H1 H2] [E|Hin].
  - subst. now rewrite String.eqb_refl in H1.
  - now apply IH.
Qed.

Lemma sound_saveNote (r : Reading) (w : World) :
  sound w ->
  is_empty (trim (noteInput w)) || unused_id (generateId r) w = true ->
  sound (fst (saveNote r w)).
Proof.
  intros Hw Hf. destruct (is_empty (trim (noteInput w))) eqn:Hb.
  - apply is_empty_true in Hb. rewrite (saveNote_blank r w Hb). cbn [fst].
    eapply sound_frame; [exact Hw | reflexivity | reflexivity].
  - apply is_empty_false in Hb. destruct Hw as [[l [Hl Hn]] Hs].
    rewrite (saveNote_run r w l Hb Hl). cbn [fst].
    cbn [orb] in Hf. unfold unused_id in Hf. apply negb_true_iff in Hf.
    rewrite (note_ids_notes w l Hl) in Hf. apply fresh_not_in in Hf.
    eapply sound_frame;
      [apply (sound_written (set_notes (notes_to_json (new_note r w :: l)) w)
                            (new_note r w :: l)
                            (write_failure storage_key
                               (stringify (notes_to_json (new_note r w :: l)))
                               (set_notes (notes_to_json (new_note r w :: l)) w)))
      | reflexivity | reflexivity].
    + reflexivity.
    + cbn [map]. constructor; assumption.
    + exact Hs.
Qed.

Lemma sound_run (ops : list Op) :
  forall w, sound w -> fresh_ids ops w = true -> sound (run ops w).
Proof.
  induction ops as [|o ops IH]; intros w Hw Hf; [exact Hw|].
  cbn [run fold_left]. cbn [fresh_ids] in Hf.
  apply andb_true_iff in Hf. destruct Hf as [Ho Hr].
  apply IH; [|exact Hr]. unfold step.
  destruct o as [input r|noteId answer|query| | |k]; cbn [perform].
  - unfold bind, modify. apply sound_saveNote.
    + eapply sound_frame; [exact Hw | reflexivity | reflexivity].
    + exact Ho.
  - apply sound_keeps; [apply keeps_deleteNote | exact Hw].
  - apply sound_keeps; [apply keeps_searchNotes | exact Hw].
  - now apply sound_saveToLocalStorage.
  - now apply sound_loadNotes.
  - now apply sound_fire.
Qed.

Lemma sound_page_load (enabled : bool) (capacity : nat) :
  sound (page_load [] enabled capacity).
Proof.
  split.
  - exists []. split; [reflexivity | constructor].
  - intros s H. discriminate.
Qed.

Lemma NoDup_map_Some {A} (l : list A) : NoDup l -> NoDup (map Some l).
Proof.
  induction 1 as [|x l Hin Hnd IH]; cbn; constructor; [|exact IH].
  intros Hc. apply in_map_iff in Hc. destruct Hc as [y [E Hy]].
  inversion E. now subst.
Qed.

End ReachFacts.

(* ================================================================== *)
(** ** The ids [generateId] makes *)

Module IdFacts.
Import Str Json Html App Props StrFacts.

Lemma selector_plain_append (a b : string) :
  selector_plain (a ++ b) = selector_plain a && selector_plain b.
Proof.
  induction a as [|x a IH]; [reflexivity|].
  cbn [append selector_plain]. now rewrite IH, andb_assoc.
Qed.

Lemma digit36_plain (d : N) :
  (d < 36)%N -> selector_special (digit36 d) = false.
Proof.
  intros H. destruct d as [|p]; [reflexivity|].
  do 6 (try destruct p as [p|p|]); try reflexivity; exfalso; lia.
Qed.

Lemma to_radix36_pos_plain (fuel : nat) :
  forall n acc, selector_plain acc = true ->
                selector_plain (to_radix36_pos fuel n acc) = true.
Proof.
  induction fuel as [|f IH]; intros n acc H; [exact H|].
  cbn [to_radix36_pos].
  assert (H1 : selector_plain (String (digit36 (n mod 36)) acc) = true).
  { cbn [selector_plain]. rewrite digit36_plain, H; [reflexivity|].
    apply N.mod_lt. discriminate. }
  destruct (n / 36 =? 0)%N; [exact H1 | now apply IH].
Qed.

Lemma toString36_plain (z : Z) : selector_plain (toString36 z) = true.
Proof.
  unfold toString36. destruct (z <? 0)%Z.
  - cbn [selector_plain]. now rewrite to_radix36_pos_plain.
  - now apply to_radix36_pos_plain.
Qed.

End IdFacts.

(* ================================================================== *)
(** ** The properties of the specification *)

Import Str Json Html App Props.
Import StrFacts WideFacts JsonFacts AppFacts HtmlFacts TokenFacts SearchFacts
       FrameFacts DeleteFacts ReachFacts IdFacts.

(** C1. [saveNote] on an input whose trim is not empty, in a world whose
    notes are the list [l]: the call returns normally; the notes become
    the new note followed by [l], so the count grows by exactly one and
    the new note is first; the new note carries the trimmed input, the id
    of [generateId], the ISO text of the first date and the formatted text
    of the second; the events the call adds hold exactly one storage write
    and exactly one render; when the write is not refused the slot holds
    the new list; the page shows the new list, the input is cleared and
    the success notice is up. *)
Theorem saveNote_adds_one_note (r : Reading) (w : World) (l : list Note) :
  trim (noteInput w) <> "" ->
  notes w = notes_to_json l ->
  let n := {| id := generateId r;
              content := trim (noteInput w);
              timestamp := toISOString (date_timestamp r);
              dateCreated := formatDate (date_created r) |} in
  let w' := fst (saveNote r w) in
  snd (saveNote r w) = Return tt
  /\ notes w' = notes_to_json (n :: l)
  /\ getNotesCount w = Some (List.length l)
  /\ getNotesCount w' = Some (S (List.length l))
  /\ (exists events,
        log w' = (events ++ log w)%list
        /\ count is_write events = 1
        /\ count is_render events = 1)
  /\ (write_failure storage_key (stringify (notes_to_json (n :: l)))
                    (set_notes (notes_to_json (n :: l)) w) = None ->
      store_get storage_key (storage w')
      = Some (stringify (notes_to_json (n :: l))))
  /\ notesContainer w' = rendered (n :: l)
  /\ noteInput w' = EmptyString
  /\ (exists m, message w'
                = Some (notice m "Note added successfully!" "success" "#2ed573")).
Proof.
  intros Hin Hl n w'. subst w'.
  rewrite (saveNote_run r w l Hin Hl).
  change (new_note r w) with n.
  set (value := stringify (notes_to_json (n :: l))).
  set (added := set_notes (notes_to_json (n :: l)) w).
  cbn [fst snd].
  assert (Hc : getNotesCount w = Some (List.length l)).
  { unfold getNotesCount. rewrite Hl. cbn. now rewrite length_map. }
  destruct (write_failure storage_key value added) as [e|] eqn:F.
  - repeat split; try reflexivity; try assumption.
    + cbn. now rewrite length_map.
    + exists [EvMessage "Note added successfully!" "success"; EvFocus; EvRender;
              EvMessage "Error saving notes. Storage might be full." "error";
              EvConsoleError "Error saving notes to localStorage:" e;
              EvSetItem storage_key value (Some e)].
      repeat split; reflexivity.
    + discriminate.
    + eexists. reflexivity.
  - repeat split; try reflexivity; try assumption.
    + cbn. now rewrite length_map.
    + exists [EvMessage "Note added successfully!" "success"; EvFocus; EvRender;
              EvSetItem storage_key value None].
      repeat split; reflexivity.
    + intros _. cbn [written storage posted set_timers emit set_message
                     set_created set_noteInput set_notesContainer set_storage].
      apply store_get_set.
    + eexists. reflexivity.
Qed.


(** C3, as amended.  The parser, given the markup [createNoteElement]
    builds for a note, reads at its head: white space; the start tag of
    the division of the content; the content, as the data of one text
    node; the end tag of the division.  Nothing of the content is taken
    as markup, whatever it holds: the escaped content has no less-than
    and no greater-than sign.  The data of the text node are the content
    with each carriage return, alone or before a line feed, read as one
    line feed, and without the characters U+0000; they are the content
    itself when it holds neither. *)
Theorem content_is_rendered_as_text (n : Note) :
  exists e rest,
    createNoteElement (note_to_json n) = Return e
    /\ take_tokens (3 + text_steps (content n))
                   (normalize_newlines (innerHTML e))
       = Return (([Text (nl ++ "            ");
                   StartTag "div" [("class", "note-content")]]
                  ++ text_node (shown_text (content n))
                  ++ [EndTag "div"])%list, rest)
    /\ has_char "<" (escapeHtml (content n)) = false
    /\ has_char ">" (escapeHtml (content n)) = false
    /\ (has_char (ascii_of_nat 13) (content n) = false ->
        has_char (ascii_of_nat 0) (content n) = false ->
        shown_text (content n) = content n).
Proof.
  exists (note_element n). eexists.
  split; [apply createNoteElement_note|].
  split.
  - rewrite normalize_note_markup_date.
    replace (3 + text_steps (content n))
      with (2 + text_steps (content n) + 1) by lia.
    apply take_tokens_content.
  - destruct (escape_text_no_angle (content n)) as [H1 H2].
    split; [exact H1|]. split; [exact H2|]. apply shown_text_plain.
Qed.

(** C4. When [saveToLocalStorage] writes the notes [l] without a refusal,
    [loadNotes] in any world that holds the storage so written and can
    read it, a fresh page load among them, returns normally and leaves in
    memory the same notes in the same order. *)
Theorem persist_then_load_is_identity (w w2 : World) (l : list Note) :
  notes w = notes_to_json l ->
  write_failure storage_key (stringify (notes w)) w = None ->
  storage w2 = storage (fst (saveToLocalStorage w)) ->
  storage_enabled w2 = true ->
  snd (loadNotes w2) = Return tt
  /\ notes (fst (loadNotes w2)) = notes_to_json l.
Proof.
  intros Hl F Hs He.
  rewrite saveToLocalStorage_run, F, Hl in Hs. cbn in Hs.
  rewrite (loadNotes_stored w2 (stringify (notes_to_json l)) (notes_to_json l)).
  - split; reflexivity.
  - exact He.
  - rewrite Hs. apply store_get_set.
  - apply stringify_notes_not_empty.
  - apply parse_stringify_notes.
Qed.

(** C5, as amended.  In a world whose notes are the list [l]: for a
    query whose trim is not empty, [searchNotes] returns normally and the
    page shows the elements of the notes of [l] that pass the test, in
    the order of [l], or the no-match message when none passes; the test
    is that the content in lower case includes the query in lower case,
    which for these strings, of code units below 256, is to say that the
    query occurs in the content as a substring, case not counting; the
    notes and the storage are untouched.  For a query whose trim is
    empty, [searchNotes] does what [showNotes] does: it returns normally
    and the page shows all the notes of [l], or the empty state. *)
Theorem searchNotes_shows_the_matching_notes
        (w : World) (l : list Note) (query : string) :
  notes w = notes_to_json l ->
  (trim query <> "" ->
     let shown := filter (note_matches query) l in
     let w' := fst (searchNotes query w) in
     snd (searchNotes query w) = Return tt
     /\ notesContainer w'
        = match shown with
          | [] => [Parsed no_match_markup]
          | _ => rendered shown
          end
     /\ (forall n, In n shown
                   <-> In n l /\ occurs_ignoring_case query (content n))
     /\ (forall n, Wide.content_matches (Wide.of_string query)
                                        (Wide.of_string (content n))
                   = Some (note_matches query n))
     /\ notes w' = notes w
     /\ storage w' = storage w)
  /\ (trim query = "" ->
      searchNotes query w = showNotes w
      /\ snd (searchNotes query w) = Return tt
      /\ notesContainer (fst (searchNotes query w))
         = match l with
           | [] => [Parsed empty_state_markup]
           | _ => rendered l
           end
      /\ notes (fst (searchNotes query w)) = notes w
      /\ storage (fst (searchNotes query w)) = storage w).
Proof.
  intros Hl. split.
  - intros Hq shown w'. subst w'.
    rewrite (searchNotes_notes query l w Hl Hq). fold shown.
    split; [reflexivity|]. split; [reflexivity|].
    split; [|split; [|split; reflexivity]].
    + intros n. unfold shown. rewrite filter_In. unfold note_matches.
      now rewrite includes_ignoring_case.
    + intros n. apply content_matches_of_string.
  - intros Hq.
    assert (E : searchNotes query w = showNotes w)
      by (unfold searchNotes; now rewrite Hq).
    rewrite E, (showNotes_notes l w Hl).
    repeat split.
Qed.

(** C6. [saveNote] on an input that is empty, or white space only: the
    call returns normally; the notes, the storage, the page and the input
    are as before; the only event it adds is the validation notice, so
    nothing is written; the error notice is up, its dismissal is
    scheduled, and it is gone once its two timers have run. *)
Theorem saveNote_rejects_blank_input (r : Reading) (w : World) :
  trim (noteInput w) = "" ->
  let w' := fst (saveNote r w) in
  snd (saveNote r w) = Return tt
  /\ notes w' = notes w
  /\ storage w' = storage w
  /\ notesContainer w' = notesContainer w
  /\ noteInput w' = noteInput w
  /\ (exists events,
        log w' = (events ++ log w)%list
        /\ events = [EvMessage "Please enter a note before adding!" "error"]
        /\ count is_write events = 0)
  /\ message w'
     = Some (notice (created w) "Please enter a note before adding!" "error"
                    "#ff4757")
  /\ timers w' = (timers w ++ [DismissMessage (created w)])%list
  /\ message (fst (detachMessage (created w)
                     (fst (dismissMessage (created w) w')))) = None.
Proof.
  intros H w'. subst w'. rewrite (saveNote_blank r w H).
  destruct w. cbn. rewrite Nat.eqb_refl. cbn. rewrite Nat.eqb_refl.
  repeat split; try reflexivity.
  eexists. repeat split; reflexivity.
Qed.

(** C7, as amended.  From a page load with nothing stored, after any
    sequence of create, delete, search, persist and load operations and
    timers, no two notes in memory share an id, provided each note that is
    created gets an id that no note in memory carries at that moment. *)
Theorem ids_stay_distinct_while_generated_ids_are_fresh
        (ops : list Op) (enabled : bool) (capacity : nat) :
  fresh_ids ops (page_load [] enabled capacity) = true ->
  NoDup (note_ids (run ops (page_load [] enabled capacity))).
Proof.
  intros Hf.
  destruct (sound_run ops _ (sound_page_load enabled capacity) Hf)
    as [[l [Hl Hn]] _].
  rewrite (note_ids_notes _ l Hl). now apply NoDup_map_Some.
Qed.

(** C8. A call of [saveToLocalStorage] whose write is refused, for lack of
    room or because storage is disabled: the call returns normally; the
    refusal is logged to the console and shown as an error notice whose
    dismissal is scheduled; the notes in memory and the storage are what
    they were before the call. *)
Theorem saveToLocalStorage_failure_is_contained (w : World) (e : exn) :
  write_failure storage_key (stringify (notes w)) w = Some e ->
  let w' := fst (saveToLocalStorage w) in
  snd (saveToLocalStorage w) = Return tt
  /\ (e = QuotaExceededError \/ e = SecurityError)
  /\ notes w' = notes w
  /\ storage w' = storage w
  /\ log w'
     = EvMessage "Error saving notes. Storage might be full." "error"
       :: EvConsoleError "Error saving notes to localStorage:" e
       :: EvSetItem storage_key (stringify (notes w)) (Some e)
       :: log w
  /\ message w'
     = Some (notice (created w) "Error saving notes. Storage might be full."
                    "error" "#ff4757")
  /\ timers w' = (timers w ++ [DismissMessage (created w)])%list.
Proof.
  intros F w'. subst w'. rewrite saveToLocalStorage_run, F.
  destruct (write_failure_js _ _ _ _ F) as [He _].
  repeat split; try reflexivity. exact He.
Qed.


(** C10. [loadNotes] takes whatever [JSON.parse] returns.  When the slot
    holds the text of the number 42, or of the object without members,
    both well-formed JSON, the call returns normally and [this.notes] is
    that number, or that object: a value that is no array, where the
    array methods throw, and not the empty list of the error path. *)
Theorem loadNotes_keeps_a_value_that_is_no_array (w : World) :
  storage_enabled w = true ->
  (store_get storage_key (storage w) = Some "42" ->
     Json.parse "42" = Return (JNum "42")
     /\ snd (loadNotes w) = Return tt
     /\ notes (fst (loadNotes w)) = JNum "42"
     /\ as_array (notes (fst (loadNotes w))) = Throw TypeError)
  /\ (store_get storage_key (storage w) = Some "{}" ->
     Json.parse "{}" = Return (JObj [])
     /\ snd (loadNotes w) = Return tt
     /\ notes (fst (loadNotes w)) = JObj []
     /\ as_array (notes (fst (loadNotes w))) = Throw TypeError).
Proof.
  intros He. split; intros Hs.
  - rewrite (loadNotes_stored w "42" (JNum "42") He Hs); [|discriminate|reflexivity].
    repeat split; reflexivity.
  - rewrite (loadNotes_stored w "{}" (JObj []) He Hs); [|discriminate|reflexivity].
    repeat split; reflexivity.
Qed.

(* ================================================================== *)
(** ** The properties at sample inputs *)

Import Sample.

(** C1 at the first step of the scenario: [Hello] is added to an empty
    list. *)
Lemma saveNote_adds_one_note_witness :
  trim (noteInput (set_noteInput "  Hello " fresh_page)) <> ""
  /\ notes (fst (saveNote first_reading (set_noteInput "  Hello " fresh_page)))
     = notes_to_json [hello]
  /\ getNotesCount (fst (saveNote first_reading
                                  (set_noteInput "  Hello " fresh_page)))
     = Some 1.
Proof.
  assert (H : trim (noteInput (set_noteInput "  Hello " fresh_page)) <> "")
    by (vm_compute; discriminate).
  destruct (saveNote_adds_one_note first_reading
              (set_noteInput "  Hello " fresh_page) [] H eq_refl)
    as [_ [H1 [_ [H2 _]]]].
  split; [exact H|]. split; [exact H1 | exact H2].
Defined.



(** C3, as amended, on the content [<script>alert(1)</script>]: it is
    the data of one text node, sign for sign. *)
Lemma content_is_rendered_as_text_witness :
  escapeHtml (content hostile) = "&lt;script&gt;alert(1)&lt;/script&gt;"
  /\ shown_text (content hostile) = "<script>alert(1)</script>"
  /\ exists e rest,
       createNoteElement (note_to_json hostile) = Return e
       /\ take_tokens 4 (normalize_newlines (innerHTML e))
          = Return ([Text (nl ++ "            ");
                     StartTag "div" [("class", "note-content")];
                     Text "<script>alert(1)</script>"; EndTag "div"], rest).
Proof.
  split; [reflexivity|].
  destruct (content_is_rendered_as_text hostile)
    as [e [rest [H1 [H2 [_ [_ H3]]]]]].
  split; [apply H3; reflexivity|].
  exists e, rest. split; [exact H1 | exact H2].
Defined.

(** C3 as stated fails on a content with a carriage return or the
    character U+0000: the text node holds a line feed for the one and
    nothing for the other, so the text shown is not the content. *)
Lemma content_with_a_carriage_return_is_not_shown_verbatim :
  parse_fragment (innerHTML (note_element carriage))
  = Return [Text (nl ++ "            ");
            StartTag "div" [("class", "note-content")];
            Text ("one" ++ nl ++ "two!"); EndTag "div";
            Text (nl ++ "            ");
            StartTag "div" [("class", "note-footer")];
            Text (nl ++ "                ");
            StartTag "span" [("class", "note-date")]; EndTag "span";
            Text (nl ++ "                ");
            StartTag "button"
              [("class", "delete-btn");
               ("onclick", "notesApp.deleteNote('c1')")];
            Text (nl ++ "                    🗑️ Delete" ++ nl
                  ++ "                ");
            EndTag "button"; Text (nl ++ "            "); EndTag "div";
            Text (nl ++ "        ")]
  /\ createNoteElement (note_to_json carriage)
     = Return (note_element carriage)
  /\ String.eqb ("one" ++ nl ++ "two!") (content carriage) = false.
Proof. split; [|split]; vm_compute; reflexivity. Qed.

(** C4 on the scenario: the two notes are written, and a fresh page load
    reads them back in the same order. *)
Lemma persist_then_load_is_identity_witness :
  write_failure storage_key (stringify (notes two_notes)) two_notes = None
  /\ notes (fst (loadNotes
                   (page_load (storage (fst (saveToLocalStorage two_notes)))
                              true 4096)))
     = notes_to_json [world; hello].
Proof.
  assert (F : write_failure storage_key (stringify (notes two_notes)) two_notes
              = None) by (vm_compute; reflexivity).
  split; [exact F|].
  apply (persist_then_load_is_identity two_notes
           (page_load (storage (fst (saveToLocalStorage two_notes))) true 4096)
           [world; hello]).
  - vm_compute; reflexivity.
  - exact F.
  - reflexivity.
  - reflexivity.
Defined.

(** C5, as amended, on the example of the specification: of [Buy milk],
    [Call mom] and [BUY bread], the query [buy] shows the first and the
    third, in that order; the empty query shows all three. *)
Lemma searchNotes_shows_the_matching_notes_witness :
  notesContainer (fst (searchNotes "buy" shopping_page))
  = rendered
      [ {| id := "n3"; content := "Buy milk"; timestamp := ""; dateCreated := "" |};
        {| id := "n1"; content := "BUY bread"; timestamp := ""; dateCreated := "" |} ]
  /\ notesContainer (fst (searchNotes "" shopping_page)) = rendered shopping.
Proof.
  destruct (searchNotes_shows_the_matching_notes shopping_page shopping "buy"
              eq_refl) as [H _].
  destruct (searchNotes_shows_the_matching_notes shopping_page shopping ""
              eq_refl) as [_ H0].
  split.
  - assert (Hq : trim "buy" <> "") by (vm_compute; discriminate).
    destruct (H Hq) as [_ [H1 _]]. exact H1.
  - destruct (H0 eq_refl) as [_ [_ [H1 _]]]. exact H1.
Defined.

(** C5 as stated fails outside those strings.  The query [ΟΣ] stands at
    the head of the content [ΟΣΑ], letter for letter; but the sigma that
    ends the query becomes a final sigma in lower case, the sigma inside
    the content does not, and the test fails: the note is not shown. *)
Lemma searchNotes_misses_a_query_that_ends_in_sigma :
  Wide.omicron_sigma_alpha = (Wide.omicron_sigma ++ [913%N])%list
  /\ Wide.toLowerCase Wide.omicron_sigma = Some [959; 962]%N
  /\ Wide.toLowerCase Wide.omicron_sigma_alpha = Some [959; 963; 945]%N
  /\ Wide.content_matches Wide.omicron_sigma Wide.omicron_sigma_alpha
     = Some false.
Proof. repeat split. Qed.

(** C6 on an input of three spaces. *)
Lemma saveNote_rejects_blank_input_witness :
  trim (noteInput (set_noteInput "   " fresh_page)) = ""
  /\ snd (saveNote first_reading (set_noteInput "   " fresh_page)) = Return tt
  /\ notes (fst (saveNote first_reading (set_noteInput "   " fresh_page)))
     = notes (set_noteInput "   " fresh_page)
  /\ storage (fst (saveNote first_reading (set_noteInput "   " fresh_page)))
     = storage (set_noteInput "   " fresh_page).
Proof.
  assert (H : trim (noteInput (set_noteInput "   " fresh_page)) = "")
    by (vm_compute; reflexivity).
  destruct (saveNote_rejects_blank_input first_reading
              (set_noteInput "   " fresh_page) H)
    as [H0 [H1 [H2 _]]].
  split; [exact H|]. split; [exact H0|]. split; [exact H1 | exact H2].
Defined.

(** C7, as amended, on a session that creates, persists, deletes, loads
    and searches. *)
Lemma ids_stay_distinct_witness :
  fresh_ids long_session (page_load [] true 4096) = true
  /\ NoDup (note_ids (run long_session (page_load [] true 4096))).
Proof.
  assert (H : fresh_ids long_session (page_load [] true 4096) = true)
    by (vm_compute; reflexivity).
  split; [exact H|].
  exact (ids_stay_distinct_while_generated_ids_are_fresh
           long_session true 4096 H).
Defined.

(** C7 as stated fails: when the host answers two calls of [saveNote]
    with the same time and the same random number, the two notes share
    their id. *)
Lemma two_creations_can_share_an_id :
  twins = run [OpCreate "a" first_reading; OpCreate "b" first_reading]
              (page_load [] true 4096)
  /\ note_ids twins = [Some "loyw3v284fzyo82mvyr"; Some "loyw3v284fzyo82mvyr"]
  /\ ~ NoDup (note_ids twins).
Proof.
  split; [reflexivity|].
  assert (E : note_ids twins
              = [Some "loyw3v284fzyo82mvyr"; Some "loyw3v284fzyo82mvyr"])
    by (vm_compute; reflexivity).
  split; [exact E|]. rewrite E. intros H.
  inversion H as [|x l Hin _]. apply Hin. now left.
Qed.

(** C8 on a storage with room for two code units: the key and the text
    of the empty list take ten. *)
Lemma saveToLocalStorage_failure_is_contained_witness :
  write_failure storage_key (stringify (notes cramped)) cramped
  = Some QuotaExceededError
  /\ snd (saveToLocalStorage cramped) = Return tt
  /\ notes (fst (saveToLocalStorage cramped)) = notes cramped
  /\ storage (fst (saveToLocalStorage cramped)) = storage cramped.
Proof.
  destruct (saveToLocalStorage_failure_is_contained cramped QuotaExceededError
              eq_refl) as [H1 [_ [H2 [H3 _]]]].
  split; [reflexivity|]. split; [exact H1|]. split; [exact H2 | exact H3].
Defined.


(** C10 on a page load that finds [42], and one that finds [{}], in the
    slot. *)
Lemma loadNotes_keeps_a_value_that_is_no_array_witness :
  notes (fst (loadNotes (page_load [(storage_key, "42")] true 64))) = JNum "42"
  /\ notes (fst (loadNotes (page_load [(storage_key, "{}")] true 64))) = JObj [].
Proof.
  split.
  - destruct (loadNotes_keeps_a_value_that_is_no_array
                (page_load [(storage_key, "42")] true 64) eq_refl) as [H _].
    destruct (H eq_refl) as [_ [_ [H1 _]]]. exact H1.
  - destruct (loadNotes_keeps_a_value_that_is_no_array
                (page_load [(storage_key, "{}")] true 64) eq_refl) as [_ H].
    destruct (H eq_refl) as [_ [_ [H1 _]]]. exact H1.
Defined.

Import More Cases.

(* ================================================================== *)
(** ** What a computation maintains *)

Module KeepFacts.

Lemma maintains_ret {A} I (a : A) : maintains I (ret a).
Proof. intros w H. exact H. Qed.

Lemma maintains_throw {A} I (e : exn) : maintains I (@throw A e).
Proof. intros w H. exact H. Qed.

Lemma maintains_lift {A} I (o : outcome A) : maintains I (lift o).
Proof. intros w H. exact H. Qed.

Lemma maintains_gets {A} I (f : World -> A) : maintains I (gets f).
Proof. intros w H. exact H. Qed.

Lemma maintains_modify I (f : World -> World) :
  (forall w, I w -> I (f w)) -> maintains I (modify f).
Proof. intros H w Hw. apply H, Hw. Qed.

Lemma maintains_bind {A B} I (m : M A) (k : A -> M B) :
  maintains I m -> (forall a, maintains I (k a)) -> maintains I (bind m k).
Proof.
  intros Hm Hk w Hw. unfold bind. specialize (Hm w Hw).
  destruct (m w) as [w1 [a|e]]; cbn [fst] in *; [apply Hk, Hm | exact Hm].
Qed.

Lemma maintains_try_catch {A} I (m : M A) (h : exn -> M A) :
  maintains I m -> (forall e, maintains I (h e)) -> maintains I (try_catch m h).
Proof.
  intros Hm Hh w Hw. unfold try_catch. specialize (Hm w Hw).
  destruct (m w) as [w1 [a|e]]; cbn [fst] in *; [exact Hm|].
  destruct (is_js_exception e); [apply Hh, Hm | exact Hm].
Qed.

Lemma maintains_for_each {A} I (f : A -> M unit) (l : list A) :
  (forall a, maintains I (f a)) -> maintains I (for_each f l).
Proof.
  intros H. induction l as [|x l IH]; cbn [for_each].
  - apply maintains_ret.
  - apply maintains_bind; [apply H | intros _; exact IH].
Qed.

Lemma store_get_set_other (k k' v : string) (st : list (string * string)) :
  k' <> k -> store_get k' (store_set k v st) = store_get k' st.
Proof.
  intros H. induction st as [|[k0 v0] st IH]; cbn.
  - destruct (String.eqb_spec k' k); [contradiction | reflexivity].
  - destruct (String.eqb_spec k k0) as [E|E]; cbn.
    + subst k0. destruct (String.eqb_spec k' k); [contradiction|]. reflexivity.
    + destruct (String.eqb k' k0); [reflexivity | exact IH].
Qed.

Lemma maintains_setItem (k k' v : string) (x : option string) :
  k' <> k -> maintains (holds_under k' x) (setItem k v).
Proof.
  intros H w Hw. unfold setItem.
  destruct (write_failure k v w); cbn [fst]; [exact Hw|].
  unfold holds_under in *. cbn [storage emit set_storage].
  now rewrite store_get_set_other.
Qed.

Create HintDb maintains_db.

Ltac maintained :=
  repeat first
    [ solve [auto 1 with maintains_db nocore]
    | apply maintains_ret | apply maintains_throw | apply maintains_lift
    | apply maintains_gets
    | apply maintains_modify; intros ? ?; assumption
    | apply maintains_bind; [|intros ?]
    | apply maintains_try_catch; [|intros ?]
    | apply maintains_for_each; intros ?
    | match goal with
      | |- maintains _ (if ?b then _ else _) => destruct b
      | |- maintains _ (match ?o with Some _ => _ | None => _ end) => destruct o
      | |- maintains _ (modify (add_removing _ ?h)) => destruct h
      end ].

Section OtherKeys.
Variable k : string.
Variable x : option string.
Hypothesis other : k <> storage_key.

Lemma other_saveToLocalStorage : maintains (holds_under k x) saveToLocalStorage.
Proof.
  unfold saveToLocalStorage, console_error. maintained.
  now apply maintains_setItem.
Qed.

#[local] Hint Resolve other_saveToLocalStorage : maintains_db.

Lemma other_perform o : maintains (holds_under k x) (perform o).
Proof.
  destruct o; cbn [perform].
  - unfold saveNote, clearInput. maintained.
  - unfold deleteNote, querySelector_note, setTimeout. maintained.
  - unfold searchNotes. maintained.
  - maintained.
  - unfold loadNotes, getItem, console_error. maintained.
  - unfold fire. maintained. destruct t; cbn [run_task].
    + unfold removeNote. maintained.
    + unfold dismissMessage, setTimeout. maintained.
    + unfold detachMessage. maintained.
Qed.

Lemma other_run ops :
  forall w, holds_under k x w -> holds_under k x (run ops w).
Proof.
  induction ops as [|o ops IH]; intros w H; [exact H|].
  cbn [run fold_left]. apply IH. apply other_perform, H.
Qed.

End OtherKeys.

End KeepFacts.
Import KeepFacts.

(* ================================================================== *)
(** ** Notices and their timers *)

Module NoticeFacts.

Lemma task_before_mono (n : nat) (t : Task) :
  task_before n t -> task_before (S n) t.
Proof. destruct t; cbn; auto. Qed.

Lemma numbered_showMessage (text type : string) :
  maintains notices_numbered (showMessage text type).
Proof.
  intros w [H1 H2]. rewrite showMessage_run. cbn [fst]. split.
  - intros x Hx. cbn in Hx. inversion Hx. cbn. lia.
  - cbn. apply Forall_app. split.
    + eapply Forall_impl; [|exact H2]. apply task_before_mono.
    + constructor; [cbn; lia | constructor].
Qed.

Lemma numbered_setTimeout_RemoveNote (noteId : string) :
  maintains notices_numbered (setTimeout (RemoveNote noteId)).
Proof.
  intros w [H1 H2]. split; [exact H1|]. cbn. apply Forall_app. split.
  - exact H2.
  - constructor; [exact I | constructor].
Qed.

Lemma numbered_dismissMessage (m : nat) :
  maintains notices_numbered (dismissMessage m).
Proof.
  intros w [H1 H2]. unfold dismissMessage, bind, gets, modify, setTimeout.
  destruct (attached m w) eqn:Ha; [|split; assumption].
  unfold attached in Ha. destruct (message w) as [x|] eqn:Hx; [|discriminate].
  apply Nat.eqb_eq in Ha. specialize (H1 x eq_refl).
  destruct w. cbn in *. subst. split.
  - intros y Hy. inversion Hy. cbn. exact H1.
  - apply Forall_app. split; [exact H2|].
    constructor; [exact H1 | constructor].
Qed.

Lemma numbered_detachMessage (m : nat) :
  maintains notices_numbered (detachMessage m).
Proof.
  intros w [H1 H2]. unfold detachMessage, bind, gets, modify.
  destruct (attached m w); [|split; assumption].
  split; [intros x Hx; discriminate | exact H2].
Qed.

Lemma numbered_setItem (k v : string) :
  maintains notices_numbered (setItem k v).
Proof.
  intros w H. unfold setItem. destruct (write_failure k v w); exact H.
Qed.

#[local] Hint Resolve numbered_showMessage numbered_setTimeout_RemoveNote
  numbered_dismissMessage numbered_detachMessage numbered_setItem
  : maintains_db.

Lemma Forall_remove_nth {A} (P : A -> Prop) (k : nat) (l : list A) :
  Forall P l -> Forall P (remove_nth k l).
Proof.
  intros H. revert k. induction H as [|x l Hx Hl IH]; intros k.
  - destruct k; constructor.
  - destruct k; cbn; [exact Hl | constructor; auto].
Qed.

Lemma fire_run (k : nat) (w : World) :
  fire k w
  = match nth_error (timers w) k with
    | Some t => run_task t (set_timers (remove_nth k (timers w)) w)
    | None => (w, Return tt)
    end.
Proof.
  unfold fire, bind at 1, gets at 1.
  destruct (nth_error (timers w) k); reflexivity.
Qed.

Lemma numbered_perform (o : Op) : maintains notices_numbered (perform o).
Proof.
  destruct o; cbn [perform].
  - unfold saveNote, saveToLocalStorage, console_error, clearInput.
    maintained.
  - unfold deleteNote, querySelector_note. maintained.
  - unfold searchNotes. maintained.
  - unfold saveToLocalStorage, console_error. maintained.
  - unfold loadNotes, getItem, console_error. maintained.
  - intros w [H1 H2]. rewrite fire_run.
    destruct (nth_error (timers w) k) as [t|]; [|split; assumption].
    assert (H : notices_numbered (set_timers (remove_nth k (timers w)) w))
      by (split; [exact H1 | now apply Forall_remove_nth]).
    revert H. generalize (set_timers (remove_nth k (timers w)) w).
    change (maintains notices_numbered (run_task t)).
    destruct t; cbn [run_task].
    + unfold removeNote, saveToLocalStorage, console_error. maintained.
    + maintained.
    + maintained.
Qed.

Lemma numbered_run (ops : list Op) :
  forall w, notices_numbered w -> notices_numbered (run ops w).
Proof.
  induction ops as [|o ops IH]; intros w H; [exact H|].
  cbn [run fold_left]. apply IH. apply numbered_perform, H.
Qed.

Lemma numbered_page_load st e c : notices_numbered (page_load st e c).
Proof. split; [intros x H; discriminate | constructor]. Qed.

Lemma nth_error_app_left {A} (l r : list A) (k : nat) (x : A) :
  nth_error l k = Some x -> nth_error (l ++ r) k = Some x.
Proof.
  intros H. rewrite nth_error_app1; [exact H|].
  apply nth_error_Some. congruence.
Qed.

End NoticeFacts.
Import NoticeFacts.

(* ================================================================== *)
(** ** Reading radix-36 digits back *)

Module RadixFacts.

Lemma digit36_value_digit36 (d : N) :
  (d < 36)%N -> digit36_value (digit36 d) = d.
Proof.
  intros H. destruct d as [|p]; [reflexivity|].
  do 6 (try destruct p as [p|p|]); try reflexivity; exfalso; lia.
Qed.

Lemma from36_append (a : N) (x y : string) :
  from36 a (x ++ y) = from36 (from36 a x) y.
Proof. revert a. induction x as [|c x IH]; intros a; cbn; auto. Qed.

Lemma pos_below_size (p : positive) :
  (N.pos p < 2 ^ N.of_nat (Pos.size_nat p))%N.
Proof.
  induction p as [p IH|p IH|]; cbn [Pos.size_nat];
    rewrite ?Nat2N.inj_succ, ?N.pow_succ_r'; lia.
Qed.

Lemma below_size (n : N) : (n < 2 ^ N.of_nat (N.size_nat n))%N.
Proof. destruct n as [|p]; [cbn; lia | apply pos_below_size]. Qed.

Lemma to_radix36_pos_S (f : nat) (n : N) (acc : string) :
  to_radix36_pos (S f) n acc
  = if (n / 36 =? 0)%N then String (digit36 (n mod 36)) acc
    else to_radix36_pos f (n / 36) (String (digit36 (n mod 36)) acc).
Proof. reflexivity. Qed.

(** With fuel for its size, the digits of [n] are put before [acc], and
    they stand for [n]. *)
Lemma to_radix36_pos_digits (f : nat) :
  forall n acc, (n < 2 ^ N.of_nat f)%N ->
    exists ds, to_radix36_pos (S f) n acc = ds ++ acc /\ from36 0 ds = n.
Proof.
  induction f as [|f IH]; intros n acc H.
  - cbn in H. assert (n = 0%N) by lia. subst. exists "0". split; reflexivity.
  - rewrite to_radix36_pos_S.
    assert (Hd : (n mod 36 < 36)%N) by (apply N.mod_lt; discriminate).
    assert (Hn : (n = 36 * (n / 36) + n mod 36)%N)
      by (apply N.div_mod; discriminate).
    destruct (N.eqb_spec (n / 36) 0) as [E|E].
    + exists (String (digit36 (n mod 36)) ""). split; [reflexivity|].
      cbn [from36]. rewrite digit36_value_digit36 by exact Hd. lia.
    + assert (Hq : (n / 36 < 2 ^ N.of_nat f)%N).
      { rewrite Nat2N.inj_succ, N.pow_succ_r' in H.
        apply N.Div0.div_lt_upper_bound. lia. }
      destruct (IH (n / 36)%N (String (digit36 (n mod 36)) acc) Hq)
        as [ds [H1 H2]].
      exists (ds ++ String (digit36 (n mod 36)) "").
      split.
      * rewrite H1, append_assoc. reflexivity.
      * rewrite from36_append, H2. cbn [from36].
        rewrite digit36_value_digit36 by exact Hd. lia.
Qed.

Lemma from36_toString36 (z : Z) :
  (0 <= z)%Z -> from36 0 (toString36 z) = Z.abs_N z.
Proof.
  intros H. unfold toString36.
  replace (z <? 0)%Z with false by (symmetry; apply Z.ltb_ge; exact H).
  destruct (to_radix36_pos_digits (N.size_nat (Z.abs_N z)) (Z.abs_N z) ""
              (below_size _)) as [ds [H1 H2]].
  rewrite H1, append_nil_r. exact H2.
Qed.

Lemma toString36_injective (a b : Z) :
  (0 <= a)%Z -> (0 <= b)%Z -> toString36 a = toString36 b -> a = b.
Proof.
  intros Ha Hb E.
  assert (H : Z.abs_N a = Z.abs_N b)
    by (rewrite <- !from36_toString36 by assumption; now rewrite E).
  lia.
Qed.

Lemma append_same_length (a b c d : string) :
  String.length a = String.length c -> a ++ b = c ++ d -> a = c /\ b = d.
Proof.
  revert c. induction a as [|x a IH]; intros [|y c] H E;
    try discriminate; [split; [reflexivity | exact E]|].
  cbn in *. inversion E. destruct (IH c) as [-> ->]; auto.
Qed.

Lemma to_radix36_pos_length (k : nat) :
  forall f n acc,
    (36 ^ N.of_nat k <= n < 36 ^ N.of_nat (S k))%N ->
    (n < 2 ^ N.of_nat f)%N ->
    String.length (to_radix36_pos (S f) n acc) = S k + String.length acc.
Proof.
  induction k as [|k IH]; intros f n acc Hn Hf; rewrite to_radix36_pos_S.
  - assert (E : (n / 36 = 0)%N) by (apply N.div_small; cbn in Hn; lia).
    rewrite E. reflexivity.
  - rewrite !Nat2N.inj_succ, !N.pow_succ_r' in Hn.
    rewrite Nat2N.inj_succ in IH.  rewrite N.pow_succ_r' in IH.
    assert (Hp : (36 ^ N.of_nat k <> 0)%N) by (apply N.pow_nonzero; lia).
    assert (Hq : (36 ^ N.of_nat k <= n / 36 < 36 * 36 ^ N.of_nat k)%N).
    { split.
      - apply N.div_le_lower_bound; lia.
      - apply N.Div0.div_lt_upper_bound; lia. }
    destruct (N.eqb_spec (n / 36) 0) as [E|E]; [lia|].
    destruct f as [|f].
    + cbn in Hf. lia.
    + rewrite Nat2N.inj_succ, N.pow_succ_r' in Hf.
      assert (Hf' : (n / 36 < 2 ^ N.of_nat f)%N).
      { apply N.Div0.div_lt_upper_bound. lia. }
      rewrite (IH f (n / 36)%N _ Hq Hf'). cbn [String.length]. lia.
Qed.

(** A number of [S k] radix-36 digits has a text that long. *)
Lemma toString36_length (k : nat) (z : Z) :
  in_digits k z -> String.length (toString36 z) = S k.
Proof.
  intros H. unfold in_digits in H.
  assert (Hp : (0 < 36 ^ Z.of_nat k)%Z) by (apply Z.pow_pos_nonneg; lia).
  unfold toString36.
  replace (z <? 0)%Z with false by (symmetry; apply Z.ltb_ge; lia).
  rewrite (to_radix36_pos_length k _ (Z.abs_N z) "").
  - cbn. lia.
  - assert (E : forall m, (36 ^ N.of_nat m)%N = Z.to_N (36 ^ Z.of_nat m)).
    { intros m. rewrite <- nat_N_Z, <- (N2Z.id (36 ^ N.of_nat m)).
      rewrite N2Z.inj_pow. reflexivity. }
    rewrite !E. lia.
  - apply below_size.
Qed.

Lemma generateId_differs (r1 r2 : Reading) :
  (0 <= date_now r1)%Z -> (0 <= date_now r2)%Z ->
  String.length (toString36 (date_now r1))
  = String.length (toString36 (date_now r2)) ->
  date_now r1 <> date_now r2 ->
  generateId r1 <> generateId r2.
Proof.
  intros H1 H2 Hl Hn E. unfold generateId in E.
  destruct (append_same_length _ _ _ _ Hl E) as [Ht _].
  apply Hn. now apply toString36_injective.
Qed.

Lemma in_digits_nonneg (k : nat) (z : Z) : in_digits k z -> (0 <= z)%Z.
Proof.
  intros [H _].
  assert (Hp : (0 < 36 ^ Z.of_nat k)%Z) by (apply Z.pow_pos_nonneg; lia).
  lia.
Qed.

End RadixFacts.
Import RadixFacts.

(* ================================================================== *)
(** ** Properties of the list that every operation keeps *)

Module InvariantFacts.

Section OneProperty.
Variable Q : list Note -> Prop.
Hypothesis Q_nil : Q [].
Hypothesis Q_without : forall i l, Q l -> Q (without i l).

Lemma all_frame (w w' : World) :
  all_notes Q w -> notes w' = notes w -> storage w' = storage w ->
  all_notes Q w'.
Proof. intros [H1 H2] Hn Hs. split; [rewrite Hn | rewrite Hs]; assumption. Qed.

Lemma all_keeps {A} (m : M A) (w : World) :
  keeps_data m -> all_notes Q w -> all_notes Q (fst (m w)).
Proof. intros Hk Hw. destruct (Hk w). eapply all_frame; eauto. Qed.

Lemma all_written (w : World) (l : list Note) (f : option exn) :
  notes w = notes_to_json l -> Q l ->
  (forall s, store_get storage_key (storage w) = Some s ->
             exists l', s = stringify (notes_to_json l') /\ Q l') ->
  all_notes Q (written (stringify (notes_to_json l)) f w).
Proof.
  intros Hl Hn Hs. destruct f as [e|]; cbn [written].
  - split; [exists l; auto | exact Hs].
  - split; [exists l; auto|].
    cbn [storage emit set_storage]. intros s H.
    apply store_get_set_inv in H. subst s. exists l. auto.
Qed.

Lemma all_saveToLocalStorage (w : World) :
  all_notes Q w -> all_notes Q (fst (saveToLocalStorage w)).
Proof.
  intros [[l [Hl Hn]] Hs]. rewrite saveToLocalStorage_run, Hl. cbn [fst].
  now apply all_written.
Qed.

Lemma all_loadNotes (w : World) :
  all_notes Q w -> all_notes Q (fst (loadNotes w)).
Proof.
  intros [[l [Hl Hn]] Hs]. destruct (storage_enabled w) eqn:He.
  - case_eq (store_get storage_key (storage w)); [intros s Hg | intros Hg].
    + destruct (Hs s Hg) as [l' [-> Hn']].
      rewrite (loadNotes_stored w _ (notes_to_json l') He Hg
                 (stringify_notes_not_empty l') (parse_stringify_notes l')).
      split; [exists l'; auto | exact Hs].
    + rewrite (loadNotes_absent w He Hg). split; [exists l; auto | exact Hs].
  - rewrite (loadNotes_disabled w He). split; [|exact Hs].
    exists []. split; [reflexivity | exact Q_nil].
Qed.

Lemma all_removeNote (noteId : string) (w : World) :
  all_notes Q w -> all_notes Q (fst (removeNote noteId w)).
Proof.
  intros [[l [Hl Hn]] Hs]. rewrite (removeNote_run noteId w l Hl). cbn [fst].
  eapply all_frame;
    [apply (all_written (set_notes (notes_to_json (without noteId l)) w)
                        (without noteId l)
                        (write_failure storage_key
                           (stringify (notes_to_json (without noteId l)))
                           (set_notes (notes_to_json (without noteId l)) w)))
    | reflexivity | reflexivity].
  - reflexivity.
  - now apply Q_without.
  - exact Hs.
Qed.

Lemma all_fire (k : nat) (w : World) :
  all_notes Q w -> all_notes Q (fst (fire k w)).
Proof.
  intros Hw. unfold fire, bind at 1, gets at 1.
  destruct (nth_error (timers w) k) as [t|]; [|exact Hw].
  unfold bind, modify.
  assert (H2 : all_notes Q (set_timers (remove_nth k (timers w)) w))
    by (eapply all_frame; [exact Hw | reflexivity | reflexivity]).
  destruct t as [noteId|m|m]; cbn [run_task].
  - now apply all_removeNote.
  - apply all_keeps; [apply keeps_dismissMessage | exact H2].
  - apply all_keeps; [apply keeps_detachMessage | exact H2].
Qed.

(** Every operation but a creation that adds a note keeps the
    property. *)
Lemma all_step_other (o : Op) (w : World) :
  match o with
  | OpCreate input _ => trim input = ""
  | _ => True
  end ->
  all_notes Q w -> all_notes Q (step w o).
Proof.
  intros Ho Hw. unfold step.
  destruct o as [input r|noteId answer|query| | |k]; cbn [perform].
  - unfold bind, modify.
    rewrite (saveNote_blank r (set_noteInput input w) Ho). cbn [fst].
    eapply all_frame; [exact Hw | reflexivity | reflexivity].
  - apply all_keeps; [apply keeps_deleteNote | exact Hw].
  - apply all_keeps; [apply keeps_searchNotes | exact Hw].
  - now apply all_saveToLocalStorage.
  - now apply all_loadNotes.
  - now apply all_fire.
Qed.

End OneProperty.

Lemma all_weaken (Q Q' : list Note -> Prop) (w : World) :
  (forall l, Q l -> Q' l) -> all_notes Q w -> all_notes Q' w.
Proof.
  intros H [[l [Hl Hq]] Hs]. split; [exists l; auto|].
  intros s Hg. destruct (Hs s Hg) as [l' [E Hq']]. exists l'. auto.
Qed.

(** A creation that adds a note takes a property [Q] of the list to a
    property [Q'] that [Q] implies and that holds with the new note in
    front. *)
Lemma all_step_create (Q Q' : list Note -> Prop)
      (input : string) (r : Reading) (w : World) :
  trim input <> "" ->
  (forall l, Q l -> Q' l) ->
  (forall l, Q l -> Q' (new_note r (set_noteInput input w) :: l)) ->
  all_notes Q w -> all_notes Q' (step w (OpCreate input r)).
Proof.
  intros Hin Hw Hc [[l [Hl Hq]] Hs]. unfold step. cbn [perform].
  unfold bind, modify.
  rewrite (saveNote_run r (set_noteInput input w) l Hin Hl). cbn [fst].
  set (n := new_note r (set_noteInput input w)).
  assert (Ha : all_notes Q'
                 (written (stringify (notes_to_json (n :: l)))
                    (write_failure storage_key
                       (stringify (notes_to_json (n :: l)))
                       (set_notes (notes_to_json (n :: l))
                                  (set_noteInput input w)))
                    (set_notes (notes_to_json (n :: l))
                               (set_noteInput input w)))).
  { destruct (write_failure _ _ _) as [e|]; cbn [written].
    - split; [exists (n :: l); split; [reflexivity | now apply Hc]|].
      intros s Hg. destruct (Hs s Hg) as [l' [E Hq']]. exists l'. auto.
    - split; [exists (n :: l); split; [reflexivity | now apply Hc]|].
      cbn [storage emit set_storage]. intros s H.
      apply store_get_set_inv in H. subst s. exists (n :: l). auto. }
  destruct Ha as [H1 H2]. split; [exact H1 | exact H2].
Qed.

End InvariantFacts.
Import InvariantFacts.

(* ================================================================== *)
(** ** Trimming twice *)

Module TrimFacts.

Lemma trimStart_head (s : string) :
  trimStart s = "" \/ exists c r, trimStart s = String c r /\ is_space c = false.
Proof.
  induction s as [|c s IH]; [now left|]. cbn.
  destruct (is_space c) eqn:E; [exact IH | right; now exists c, s].
Qed.

Lemma trimStart_fixed (c : ascii) (r : string) :
  is_space c = false -> trimStart (String c r) = String c r.
Proof. intros H. cbn. now rewrite H. Qed.

Lemma trimEnd_idempotent (s : string) : trimEnd (trimEnd s) = trimEnd s.
Proof.
  induction s as [|c s IH]; [reflexivity|]. cbn [trimEnd].
  destruct (trimEnd s) as [|d t] eqn:E.
  - destruct (is_space c) eqn:Hc; [reflexivity|]. cbn. now rewrite Hc.
  - change (trimEnd (String c (String d t)))
      with (match trimEnd (String d t) with
            | EmptyString => if is_space c then EmptyString
                             else String c EmptyString
            | String x y => String c (String x y)
            end).
    rewrite IH. reflexivity.
Qed.

(** Trimming at the end keeps the first character of a text that does
    not begin with white space. *)
Lemma trimEnd_head (c : ascii) (r : string) :
  is_space c = false -> exists t, trimEnd (String c r) = String c t.
Proof.
  intros H. cbn [trimEnd]. destruct (trimEnd r) as [|d t].
  - rewrite H. now exists "".
  - now exists (String d t).
Qed.

Lemma trim_idempotent (s : string) : trim (trim s) = trim s.
Proof.
  unfold trim. destruct (trimStart_head s) as [E | [c [r [E Hc]]]]; rewrite E.
  - reflexivity.
  - destruct (trimEnd_head c r Hc) as [t Ht]. rewrite Ht.
    rewrite (trimStart_fixed c t Hc), <- Ht. apply trimEnd_idempotent.
Qed.

End TrimFacts.
Import TrimFacts.

(* ================================================================== *)
(** ** Stored contents are trimmed *)

Module TidyFacts.

Lemma tidy_without (i : string) (l : list Note) :
  Forall tidy l -> Forall tidy (without i l).
Proof.
  intros H. unfold without. rewrite Forall_forall in *.
  intros n Hn. apply filter_In in Hn. now apply H.
Qed.

Lemma tidy_run (ops : list Op) :
  forall w, all_notes (Forall tidy) w -> all_notes (Forall tidy) (run ops w).
Proof.
  induction ops as [|o ops IH]; intros w Hw; [exact Hw|].
  cbn [run fold_left]. apply IH.
  pose proof (all_step_other (Forall tidy) (Forall_nil _) tidy_without)
    as Hother.
  destruct o as [input r| | | | |]; try (now apply Hother).
  destruct (trim input) as [|c t] eqn:Hb; [now apply Hother|].
  apply (all_step_create (Forall tidy) (Forall tidy));
    [rewrite Hb; discriminate | auto | | exact Hw].
  intros l Hl. constructor; [|exact Hl].
  split; cbn [content new_note noteInput set_noteInput].
  - rewrite Hb. discriminate.
  - apply trim_idempotent.
Qed.

Lemma all_page_load (Q : list Note -> Prop) (e : bool) (c : nat) :
  Q [] -> all_notes Q (page_load [] e c).
Proof.
  intros H. split; [exists []; split; [reflexivity | exact H]|].
  intros s Hs. discriminate.
Qed.

End TidyFacts.
Import TidyFacts.

(* ================================================================== *)
(** ** Ids under a clock that ticks *)

Module ClockFacts.

Lemma ids_from_without (rs : list Reading) (i : string) (l : list Note) :
  ids_from rs l -> ids_from rs (without i l).
Proof.
  intros [H1 H2]. split; [now apply NoDup_without|].
  unfold without. rewrite Forall_forall in *.
  intros n Hn. apply filter_In in Hn. now apply H2.
Qed.

Lemma ids_from_more (rs rs' : list Reading) (l : list Note) :
  ids_from rs l -> ids_from (rs ++ rs') l.
Proof.
  intros [H1 H2]. split; [exact H1|].
  eapply Forall_impl; [|exact H2]. intros n Hn. cbn in Hn.
  rewrite map_app. apply in_or_app. now left.
Qed.

Lemma ids_from_new (digits : nat) (rs : list Reading) (r : Reading)
      (n : Note) (l : list Note) :
  clock_ticks digits (rs ++ [r]) ->
  id n = generateId r ->
  ids_from rs l -> ids_from (rs ++ [r]) (n :: l).
Proof.
  intros [Hd Hw] Hn [H1 H2]. split.
  - cbn [map]. constructor; [|exact H1].
    intros Hin. rewrite Forall_forall in H2.
    apply in_map_iff in Hin. destruct Hin as [m [Hm Hml]].
    specialize (H2 m Hml). apply in_map_iff in H2.
    destruct H2 as [r' [Hr' Hin']].
    rewrite Forall_forall in Hw.
    pose proof (Hw r' (in_or_app _ _ _ (or_introl Hin'))) as P1.
    assert (Hr : In r (rs ++ [r])) by (apply in_or_app; right; now left).
    pose proof (Hw r Hr) as P2.
    apply (generateId_differs r' r (in_digits_nonneg _ _ P1)
             (in_digits_nonneg _ _ P2));
      [now rewrite (toString36_length _ _ P1), (toString36_length _ _ P2)
      | | congruence].
    rewrite map_app in Hd. cbn [map] in Hd.
    apply NoDup_remove_2 in Hd. rewrite app_nil_r in Hd.
    intros E. apply Hd. rewrite <- E. now apply in_map.
  - constructor.
    + rewrite Hn, map_app. apply in_or_app. right. now left.
    + eapply Forall_impl; [|exact H2]. intros m Hm. cbn in Hm.
      rewrite map_app. apply in_or_app. now left.
Qed.

Lemma clock_ticks_prefix (digits : nat) (rs rs' : list Reading) :
  clock_ticks digits (rs ++ rs') -> clock_ticks digits rs.
Proof.
  intros [Hd Hw]. split.
  - rewrite map_app in Hd. revert Hd. clear.
    induction (map date_now rs) as [|x xs IH]; cbn; intros H; [constructor|].
    inversion H; subst. constructor; [|auto].
    intros Hin. apply H2. apply in_or_app. now left.
  - apply Forall_app in Hw. tauto.
Qed.

Lemma ids_from_run (digits : nat) (ops : list Op) :
  forall w rs,
    all_notes (ids_from rs) w ->
    clock_ticks digits (rs ++ readings_of ops) ->
    all_notes (ids_from (rs ++ readings_of ops)) (run ops w).
Proof.
  induction ops as [|o ops IH]; intros w rs Hw Hc.
  - cbn. now rewrite app_nil_r.
  - cbn [run fold_left].
    assert (Hn : ids_from rs []) by (split; constructor).
    pose proof (all_step_other (ids_from rs) Hn (ids_from_without rs))
      as Hother.
    destruct o as [input r| | | | |]; cbn [readings_of] in *;
      try (apply IH; [now apply Hother | exact Hc]).
    destruct (is_empty (trim input)) eqn:Hb.
    + apply is_empty_true in Hb. apply IH; [now apply Hother | exact Hc].
    + apply is_empty_false in Hb.
      replace (rs ++ r :: readings_of ops)%list
        with ((rs ++ [r]) ++ readings_of ops)%list
        in * by (rewrite <- app_assoc; reflexivity).
      apply IH; [|exact Hc].
      apply (all_step_create (ids_from rs) (ids_from (rs ++ [r]))); auto.
      * intros l. apply ids_from_more.
      * intros l. apply (ids_from_new digits); [|reflexivity].
        eapply clock_ticks_prefix, Hc.
Qed.

End ClockFacts.
Import ClockFacts.

(* ================================================================== *)
(** ** Rendering, then deleting *)

Module FlowFacts.

Lemma find_note_rendered (n : Note) (l : list Note) :
  In n l -> exists k, find_note (id n) (rendered l) = Some k.
Proof.
  induction l as [|m l IH]; intros H; [contradiction|].
  cbn [rendered map find_note has_note_id note_element attributes attr_get].
  cbn. destruct (String.eqb (id m) (id n)) eqn:E; [now exists 0|].
  destruct H as [->|H]; [now rewrite String.eqb_refl in E|].
  destruct (IH H) as [k Hk]. unfold rendered in Hk. rewrite Hk.
  now exists (S k).
Qed.

Lemma view_rendered (n : Note) (l : list Note) :
  In n l -> view l = rendered l.
Proof. destruct l; [contradiction | reflexivity]. Qed.

Lemma in_without (i : string) (m : Note) (l : list Note) :
  In m (without i l) <-> In m l /\ id m <> i.
Proof.
  unfold without. rewrite filter_In, negb_true_iff, String.eqb_neq. tauto.
Qed.

Lemma without_twice (i : string) (l : list Note) :
  without i (without i l) = without i l.
Proof.
  unfold without. induction l as [|n l IH]; [reflexivity|].
  cbn [filter]. destruct (negb (String.eqb (id n) i)) eqn:E; [|exact IH].
  cbn [filter]. rewrite E. now f_equal.
Qed.

Lemma no_list_throws (j : json) :
  no_list j = true ->
  as_array j = Throw TypeError
  /\ (length_is_zero j = Return false \/ length_is_zero j = Throw TypeError).
Proof.
  destruct j as [| | |s| |o]; cbn; try discriminate; auto.
  - destruct s; [discriminate | auto].
  - destruct (obj_get "length" o) as [[]|]; try discriminate; auto.
Qed.

End FlowFacts.
Import FlowFacts.

(* ================================================================== *)
(** ** Loading a text that is no JSON; escaping *)

Module MoreFacts.

Lemma loadNotes_corrupt (w : World) (s : string) :
  storage_enabled w = true ->
  store_get storage_key (storage w) = Some s ->
  s <> "" ->
  Json.parse s = Throw SyntaxError ->
  loadNotes w
  = (set_notes (JArr [])
       (emit (EvConsoleError "Error loading notes from localStorage:"
                             SyntaxError)
             (emit (EvGetItem storage_key) w)), Return tt).
Proof.
  intros He Hs Hn Hp. unfold loadNotes, try_catch.
  rewrite (bind_return _ _ _ _ _ (getItem_run storage_key w He)), Hs.
  apply is_empty_false in Hn. rewrite Hn.
  unfold bind at 1, lift at 1. rewrite Hp. reflexivity.
Qed.

Lemma loadNotes_empty_text (w : World) :
  storage_enabled w = true ->
  store_get storage_key (storage w) = Some "" ->
  loadNotes w = (emit (EvGetItem storage_key) w, Return tt).
Proof.
  intros He Hs. unfold loadNotes, try_catch.
  rewrite (bind_return _ _ _ _ _ (getItem_run storage_key w He)), Hs.
  reflexivity.
Qed.

Lemma escape_text_injective (a b : string) :
  escape_text a = escape_text b -> a = b.
Proof.
  intros E.
  pose proof (character_data_escape_text a "") as Ha.
  pose proof (character_data_escape_text b "") as Hb.
  rewrite E in Ha. rewrite Ha in Hb. now inversion Hb.
Qed.

Lemma escape_char_plain (c : ascii) :
  plain_text (String c "") = true -> escape_char c = String c "".
Proof.
  destruct c as [[] [] [] [] [] [] [] []]; vm_compute; intros H;
    first [discriminate H | reflexivity].
Qed.

Lemma plain_text_cons (c : ascii) (s : string) :
  plain_text (String c s) = plain_text (String c "") && plain_text s.
Proof.
  unfold plain_text. cbn [has_char].
  rewrite !orb_false_r, !negb_orb.
  destruct (eqc c "&"), (eqc c "<"), (eqc c ">"), (eqc c (ascii_of_nat 160)),
    (has_char "&" s), (has_char "<" s), (has_char ">" s),
    (has_char (ascii_of_nat 160) s); reflexivity.
Qed.

Lemma escape_text_plain (s : string) :
  plain_text s = true -> escape_text s = s.
Proof.
  induction s as [|c s IH]; [reflexivity|].
  rewrite plain_text_cons, andb_true_iff. intros [Hc Hs].
  cbn [escape_text]. rewrite (escape_char_plain c Hc), (IH Hs). reflexivity.
Qed.

Lemma length_escape_char (c : ascii) : 1 <= String.length (escape_char c).
Proof.
  destruct c as [[] [] [] [] [] [] [] []]; vm_compute; repeat constructor.
Qed.

Lemma length_escape_text (s : string) :
  String.length s <= String.length (escape_text s).
Proof.
  induction s as [|c s IH]; [apply Nat.le_refl|].
  cbn [escape_text String.length]. rewrite length_append.
  pose proof (length_escape_char c). lia.
Qed.

End MoreFacts.
Import MoreFacts.

(* ================================================================== *)
(** ** A page with nothing to show *)

Module StartFacts.

Lemma showNotes_empty (w : World) :
  notes w = JArr [] ->
  showNotes w
  = (set_notesContainer [Parsed empty_state_markup] (emit EvRender w),
     Return tt).
Proof. intros H. apply (showNotes_notes [] w H). Qed.

End StartFacts.
Import StartFacts.

(* ================================================================== *)
(** ** Further properties *)

(** X1. Rendering twice in a row shows the same: after [showNotes] on a
    list of notes, a second [showNotes] leaves the same children in the
    container. *)
Theorem showNotes_twice_shows_the_same (w : World) (l : list Note) :
  notes w = notes_to_json l ->
  snd (showNotes (fst (showNotes w))) = Return tt
  /\ notesContainer (fst (showNotes (fst (showNotes w))))
     = notesContainer (fst (showNotes w)).
Proof.
  intros Hl. rewrite (showNotes_notes l w Hl). cbn [fst].
  rewrite (showNotes_notes l (set_notesContainer (view l) (emit EvRender w)) Hl).
  split; reflexivity.
Qed.

Lemma showNotes_twice_shows_the_same_witness :
  notesContainer (fst (showNotes (fst (showNotes shopping_page))))
  = notesContainer (fst (showNotes shopping_page)).
Proof.
  destruct (showNotes_twice_shows_the_same shopping_page shopping eq_refl)
    as [_ H].
  exact H.
Defined.

(** X2. The scenario of the specification: from a page with nothing
    stored, creating [Hello] and then [World] gives the list [World],
    [Hello]; the slot holds its text; and a new page load on that storage
    has the same list in memory and on the page. *)
Theorem scenario_hello_then_world :
  notes two_notes = notes_to_json [world; hello]
  /\ store_get storage_key (storage two_notes)
     = Some (stringify (notes_to_json [world; hello]))
  /\ snd (init (page_load (storage two_notes) true 4096)) = Return tt
  /\ notes (fst (init (page_load (storage two_notes) true 4096)))
     = notes_to_json [world; hello]
  /\ notesContainer (fst (init (page_load (storage two_notes) true 4096)))
     = rendered [world; hello].
Proof.
  split; [|split; [|split; [|split]]]; vm_compute; reflexivity.
Qed.

(** X3. After [loadNotes] has taken a stored object for the notes,
    [showNotes] throws: [init] ends with a [TypeError], the object still
    in memory. *)
Theorem init_throws_on_a_stored_object (w : World) :
  storage_enabled w = true ->
  store_get storage_key (storage w) = Some "{}" ->
  snd (init w) = Throw TypeError
  /\ notes (fst (init w)) = JObj [].
Proof.
  intros He Hs. unfold init.
  rewrite (bind_return _ _ _ _ _
             (loadNotes_stored w "{}" (JObj []) He Hs
                               ltac:(discriminate) eq_refl)).
  split; reflexivity.
Qed.

Lemma init_throws_on_a_stored_object_witness :
  snd (init (page_load [(storage_key, "{}")] true 64)) = Throw TypeError.
Proof.
  destruct (init_throws_on_a_stored_object
              (page_load [(storage_key, "{}")] true 64) eq_refl eq_refl)
    as [H _].
  exact H.
Defined.

(** X4. [JSON.parse] reads back the text [JSON.stringify] writes for a
    list of notes, whatever their strings hold: quotation marks, reverse
    solidi and control characters included. *)
Theorem parse_inverts_stringify_on_notes (l : list Note) :
  Json.parse (stringify (notes_to_json l)) = Return (notes_to_json l).
Proof. apply parse_stringify_notes. Qed.

(** X5. An id made by [generateId] has no character that is special in
    the selector of [deleteNote], as long as the digits of the random
    number have none: the radix-36 text of the time never has one. *)
Theorem generated_ids_are_plain (r : Reading) :
  selector_plain (substr 2 (random36 r)) = true ->
  selector_plain (generateId r) = true.
Proof.
  intros H. unfold generateId.
  now rewrite selector_plain_append, toString36_plain, H.
Qed.

Lemma generated_ids_are_plain_witness :
  selector_plain (generateId first_reading) = true.
Proof.
  apply (generated_ids_are_plain first_reading). reflexivity.
Defined.

(** X6. The application writes its own key of [localStorage] and no
    other: whatever the user does (creating, deleting, searching, saving,
    loading, timers running), what any other key holds stays what it
    was. *)
Theorem only_the_notes_key_is_written (ops : list Op) (w : World) (k : string) :
  k <> storage_key ->
  store_get k (storage (run ops w)) = store_get k (storage w).
Proof.
  intros H. apply (other_run k (store_get k (storage w)) H ops w). reflexivity.
Qed.

Lemma only_the_notes_key_is_written_witness :
  store_get "theme" (storage (run long_session settings_page)) = Some "dark".
Proof.
  assert (H : "theme" <> storage_key) by discriminate.
  rewrite (only_the_notes_key_is_written long_session settings_page "theme" H).
  reflexivity.
Defined.

(** X7. A notice is not taken down by the timer of an older notice.  In a
    world reached from a page load, [showMessage] puts up its notice, and
    a timer that was pending before and belongs to a notice leaves the
    new notice on the page when it runs: the callback looks at the
    element it was made for, and that element is off the page. *)
Theorem older_timers_spare_a_new_notice
        (ops : list Op) (st : list (string * string)) (e : bool) (c : nat)
        (text type : string) (k : nat) (t : Task) :
  let w := run ops (page_load st e c) in
  let w' := fst (showMessage text type w) in
  nth_error (timers w) k = Some t ->
  notice_task t = true ->
  message w' = Some (notice (created w) text type (background_of type))
  /\ message (fst (fire k w')) = message w'.
Proof.
  intros w w' Hk Ht. subst w'.
  pose proof (numbered_run ops _ (numbered_page_load st e c)) as [_ H2].
  fold w in H2. clearbody w.
  rewrite showMessage_run. cbn [fst].
  split; [reflexivity|].
  assert (Hb : task_before (created w) t).
  { rewrite Forall_forall in H2. apply H2. eapply nth_error_In, Hk. }
  rewrite fire_run. cbn [timers posted set_timers].
  rewrite (nth_error_app_left _ _ _ _ Hk).
  destruct t as [i|m|m]; [discriminate| |]; cbn [run_task task_before] in *.
  - unfold dismissMessage, bind, gets. unfold attached. cbn.
    destruct (Nat.eqb_spec (created w) m); [lia | reflexivity].
  - unfold detachMessage, bind, gets. unfold attached. cbn.
    destruct (Nat.eqb_spec (created w) m); [lia | reflexivity].
Qed.

Lemma older_timers_spare_a_new_notice_witness :
  message (fst (fire 0 (fst (showMessage "Again" "error"
                               (run [OpCreate "Hello" first_reading]
                                    (page_load [] true 4096))))))
  = Some (notice 1 "Again" "error" "#ff4757").
Proof.
  assert (H1 : nth_error (timers (run [OpCreate "Hello" first_reading]
                                      (page_load [] true 4096))) 0
               = Some (DismissMessage 0)) by (vm_compute; reflexivity).
  destruct (older_timers_spare_a_new_notice
              [OpCreate "Hello" first_reading] [] true 4096 "Again" "error"
              0 (DismissMessage 0) H1 eq_refl) as [H2 H3].
  rewrite H3, H2. vm_compute. reflexivity.
Defined.

(** X8. Two ids that [generateId] makes at different times differ,
    whatever the random numbers, when both times are written with the
    same number of radix-36 digits (eight, for times in milliseconds
    from the middle of 1972 to the middle of 2059): the text of such a
    time has exactly that many digits, [toString36] loses nothing of the
    time, and texts of one length can be cut off the front of the ids. *)
Theorem ids_of_different_times_differ (k : nat) (r1 r2 : Reading) :
  in_digits k (date_now r1) -> in_digits k (date_now r2) ->
  date_now r1 <> date_now r2 ->
  String.length (toString36 (date_now r1)) = S k
  /\ generateId r1 <> generateId r2.
Proof.
  intros H1 H2 Hn. split; [now apply toString36_length|].
  apply generateId_differs; try (eapply in_digits_nonneg; eassumption);
    [|exact Hn].
  now rewrite (toString36_length k _ H1), (toString36_length k _ H2).
Qed.

Lemma ids_of_different_times_differ_witness :
  String.length (toString36 (date_now first_reading)) = 8
  /\ generateId first_reading <> generateId second_reading.
Proof.
  assert (H1 : in_digits 7 (date_now first_reading))
    by (split; vm_compute; [discriminate | reflexivity]).
  assert (H2 : in_digits 7 (date_now second_reading))
    by (split; vm_compute; [discriminate | reflexivity]).
  assert (H3 : date_now first_reading <> date_now second_reading)
    by (vm_compute; discriminate).
  exact (ids_of_different_times_differ 7 first_reading second_reading
           H1 H2 H3).
Defined.

(** X9. From a page load that finds nothing stored, every note in memory
    has a content that is not empty and has no white space at either end,
    after whatever operations: [saveNote] stores the trimmed input, and
    nothing else makes a note. *)
Theorem contents_stay_tidy (ops : list Op) (enabled : bool) (capacity : nat) :
  exists l,
    notes (run ops (page_load [] enabled capacity)) = notes_to_json l
    /\ Forall (fun n => content n <> "" /\ trim (content n) = content n) l.
Proof.
  destruct (tidy_run ops _ (all_page_load (Forall tidy) enabled capacity
                                          (Forall_nil _)))
    as [[l [Hl Hq]] _].
  exists l. split; [exact Hl | exact Hq].
Qed.

(** X10. From a page load that finds nothing stored, the ids of the notes
    in memory are distinct after any operations, as long as the clock
    showed a different time, of one number of radix-36 digits, at each
    creation that added a note.  No assumption is made on the random
    numbers. *)
Theorem ids_stay_distinct_while_the_clock_ticks
        (ops : list Op) (enabled : bool) (capacity digits : nat) :
  clock_ticks digits (readings_of ops) ->
  NoDup (note_ids (run ops (page_load [] enabled capacity))).
Proof.
  intros Hc.
  assert (H0 : all_notes (ids_from []) (page_load [] enabled capacity))
    by (apply all_page_load; split; constructor).
  destruct (ids_from_run digits ops _ [] H0 Hc) as [[l [Hl [Hn _]]] _].
  rewrite (note_ids_notes _ l Hl). now apply NoDup_map_Some.
Qed.

Lemma ids_stay_distinct_while_the_clock_ticks_witness :
  readings_of long_session = [first_reading; second_reading]
  /\ NoDup (note_ids (run long_session (page_load [] true 4096))).
Proof.
  assert (H0 : readings_of long_session = [first_reading; second_reading])
    by (vm_compute; reflexivity).
  assert (H1 : in_digits 7 (date_now first_reading))
    by (split; vm_compute; [discriminate | reflexivity]).
  assert (H2 : in_digits 7 (date_now second_reading))
    by (split; vm_compute; [discriminate | reflexivity]).
  split; [exact H0|].
  apply (ids_stay_distinct_while_the_clock_ticks long_session true 4096 7).
  rewrite H0. split.
  - cbn [map]. constructor.
    + intros [H|[]]. vm_compute in H. discriminate H.
    + constructor; [intros [] | constructor].
  - constructor; [exact H1|]. constructor; [exact H2 | constructor].
Defined.

(** X11. The delete button works on what [showNotes] has just rendered.  For
    a list of notes with distinct ids and a note [n] of it whose id is
    plain in a selector: after [showNotes] the element of [n] is on the
    page; a confirmed [deleteNote], its timer run, leaves the list without
    [n] in memory and on the page; exactly the notes other than [n] stay;
    and the slot holds the new list when the write is not refused. *)
Theorem a_rendered_note_can_be_deleted
        (w : World) (l : list Note) (n : Note) :
  notes w = notes_to_json l ->
  In n l ->
  NoDup (map id l) ->
  selector_plain (id n) = true ->
  let shown := fst (showNotes w) in
  let after := delete_confirmed (id n) shown in
  displayed (id n) shown = true
  /\ notes after = notes_to_json (without (id n) l)
  /\ notesContainer after = view (without (id n) l)
  /\ (forall m, In m (without (id n) l) <-> In m l /\ m <> n)
  /\ (write_failure storage_key (stringify (notes_to_json (without (id n) l)))
                    (set_notes (notes_to_json (without (id n) l)) w) = None ->
      store_get storage_key (storage after)
      = Some (stringify (notes_to_json (without (id n) l)))).
Proof.
  intros Hl Hin Hnd Hp shown after. subst after shown.
  rewrite (showNotes_notes l w Hl). cbn [fst].
  rewrite (view_rendered n l Hin).
  destruct (find_note_rendered n l Hin) as [k Hk].
  set (w1 := set_notesContainer (rendered l) (emit EvRender w)).
  assert (Hf : find_note (id n) (notesContainer w1) = Some k) by exact Hk.
  split; [unfold displayed; now rewrite Hf|].
  destruct (delete_confirmed_found (id n) w1 k Hp Hf) as [h ->].
  rewrite (removeNote_after_mark (id n) h w1 l Hl).
  cbn [fst].
  split; [destruct (write_failure _ _ _); reflexivity|].
  split; [destruct (write_failure _ _ _); reflexivity|].
  split.
  - intros m. rewrite in_without. split.
    + intros [H1 H2]. split; [exact H1 | congruence].
    + intros [H1 H2]. split; [exact H1|]. intros E. apply H2.
      clear - Hnd Hin H1 E. induction l as [|x l IH]; [contradiction|].
      cbn [map] in Hnd. inversion Hnd as [|? ? Hx Hr]; subst.
      destruct Hin as [->|Hin], H1 as [->|H1]; auto.
      * exfalso. apply Hx. rewrite <- E. now apply in_map.
      * exfalso. apply Hx. rewrite E. now apply in_map.
  - intros F.
    change (write_failure storage_key
              (stringify (notes_to_json (without (id n) l)))
              (set_notes (notes_to_json (without (id n) l)) w1))
      with (write_failure storage_key
              (stringify (notes_to_json (without (id n) l)))
              (set_notes (notes_to_json (without (id n) l)) w)).
    rewrite F. destruct h; cbn; apply store_get_set.
Qed.

Lemma a_rendered_note_can_be_deleted_witness :
  displayed "n2" (fst (showNotes shopping_page)) = true
  /\ notes (delete_confirmed "n2" (fst (showNotes shopping_page)))
     = notes_to_json (without "n2" shopping).
Proof.
  assert (H1 : In call_mom shopping) by (right; left; reflexivity).
  assert (H2 : NoDup (map id shopping)).
  { cbn [map shopping id]. constructor.
    - intros [H|[H|[]]]; discriminate H.
    - constructor.
      + intros [H|[]]; discriminate H.
      + constructor; [intros [] | constructor]. }
  assert (H3 : selector_plain (id call_mom) = true) by (vm_compute; reflexivity).
  destruct (a_rendered_note_can_be_deleted shopping_page shopping call_mom
              eq_refl H1 H2 H3) as [H4 [H5 _]].
  split; [exact H4 | exact H5].
Defined.

(** X12. When the timer of a deletion runs a second time for the same id
    (the button was pressed twice before the first timer ran), the second
    run returns normally and changes neither the notes nor the page, writes
    the storage once and renders once all the same, and puts up the
    notice of success again. *)
Theorem removing_again_changes_no_note (noteId : string) (w : World)
        (l : list Note) :
  notes w = notes_to_json l ->
  let once := fst (removeNote noteId w) in
  let twice := fst (removeNote noteId once) in
  snd (removeNote noteId once) = Return tt
  /\ notes twice = notes once
  /\ notesContainer twice = notesContainer once
  /\ (exists events,
        log twice = (events ++ log once)%list
        /\ count is_write events = 1
        /\ count is_render events = 1)
  /\ (exists m, message twice
                = Some (notice m "Note deleted successfully!" "success"
                               "#2ed573")).
Proof.
  intros Hl once twice. subst twice once.
  rewrite (removeNote_run noteId w l Hl). cbn [fst].
  set (l1 := without noteId l).
  set (w1 := posted _ _ _).
  assert (H1 : notes w1 = notes_to_json l1)
    by (subst w1; destruct (write_failure _ _ _); reflexivity).
  rewrite (removeNote_run noteId w1 l1 H1). cbn [fst snd].
  subst l1. rewrite without_twice.
  set (v := stringify _).
  split; [reflexivity|].
  destruct (write_failure storage_key v _) as [e|] eqn:F.
  - split; [exact (eq_sym H1)|].
    split; [subst w1; reflexivity|].
    split; [|eexists; reflexivity].
    exists [EvMessage "Note deleted successfully!" "success"; EvRender;
            EvMessage "Error saving notes. Storage might be full." "error";
            EvConsoleError "Error saving notes to localStorage:" e;
            EvSetItem storage_key v (Some e)].
    repeat split; reflexivity.
  - split; [exact (eq_sym H1)|].
    split; [subst w1; reflexivity|].
    split; [|eexists; reflexivity].
    exists [EvMessage "Note deleted successfully!" "success"; EvRender;
            EvSetItem storage_key v None].
    repeat split; reflexivity.
Qed.

Lemma removing_again_changes_no_note_witness :
  notes (fst (removeNote "n2" (fst (removeNote "n2" shopping_page))))
  = notes (fst (removeNote "n2" shopping_page)).
Proof.
  destruct (removing_again_changes_no_note "n2" shopping_page shopping eq_refl)
    as [_ [H _]].
  exact H.
Defined.

(** X14. When the slot holds the JSON text of a value that is no list
    ([null], a number, a boolean, a string that is not empty, an object
    without a numeric [length]), [init] throws a [TypeError] with that
    value in memory and an empty page, before it comes to [bindEvents];
    and a call of [saveNote] on an input that is not blank, in the world
    [init] leaves, throws a [TypeError] too and changes nothing. *)
Theorem a_stored_value_that_is_no_list_stops_the_application
        (w : World) (s : string) (j : json) :
  storage_enabled w = true ->
  store_get storage_key (storage w) = Some s ->
  s <> "" ->
  Json.parse s = Return j ->
  no_list j = true ->
  let w' := fst (init w) in
  snd (init w) = Throw TypeError
  /\ notes w' = j
  /\ notesContainer w' = []
  /\ (forall r input,
        trim input <> "" ->
        saveNote r (set_noteInput input w')
        = (set_noteInput input w', Throw TypeError)).
Proof.
  intros He Hs Hn Hp Hj w'. subst w'. unfold init.
  rewrite (bind_return _ _ _ _ _ (loadNotes_stored w s j He Hs Hn Hp)).
  destruct (no_list_throws j Hj) as [Ha Hz].
  assert (E : showNotes (set_notes j (emit (EvGetItem storage_key) w))
              = (set_notesContainer []
                   (emit EvRender
                      (set_notes j (emit (EvGetItem storage_key) w))),
                 Throw TypeError)).
  { unfold showNotes.
    unfold bind at 1, modify at 1. unfold bind at 1, modify at 1.
    unfold bind at 1, gets at 1. cbn [notes set_notes set_notesContainer emit].
    unfold bind at 1, lift at 1.
    destruct Hz as [Hz|Hz]; rewrite Hz; [|reflexivity].
    unfold bind, lift. rewrite Ha. reflexivity. }
  rewrite E. cbn [fst snd].
  split; [reflexivity|]. split; [reflexivity|]. split; [reflexivity|].
  intros r input Hi. apply is_empty_false in Hi.
  unfold saveNote, bind at 1, gets at 1.
  cbn [noteInput set_noteInput]. rewrite Hi.
  unfold bind at 1, gets at 1.
  cbn [notes set_noteInput set_notesContainer emit set_notes].
  unfold bind, lift. rewrite Ha. reflexivity.
Qed.

Lemma a_stored_value_that_is_no_list_stops_the_application_witness :
  snd (init number_page) = Throw TypeError
  /\ saveNote first_reading (set_noteInput "Hello" (fst (init number_page)))
     = (set_noteInput "Hello" (fst (init number_page)), Throw TypeError).
Proof.
  assert (H1 : "42" <> "") by discriminate.
  assert (H2 : Json.parse "42" = Return (JNum "42"))
    by (vm_compute; reflexivity).
  assert (H3 : trim "Hello" <> "") by (vm_compute; discriminate).
  destruct (a_stored_value_that_is_no_list_stops_the_application number_page
              "42" (JNum "42") eq_refl eq_refl H1 H2 eq_refl)
    as [H4 [_ [_ H5]]].
  split; [exact H4 | exact (H5 first_reading "Hello" H3)].
Defined.

(** X15. [loadNotes] lets no exception of the language out.  When reading
    the storage throws, and when the stored text is no JSON, it logs the
    error on the console, takes the empty list, and touches neither the
    storage nor the notice; when nothing, or the empty text, is stored it
    only reads. *)
Theorem loadNotes_falls_back_to_the_empty_list (w : World) :
  (snd (loadNotes w) = Return tt \/ snd (loadNotes w) = Throw Unmodelled)
  /\ (storage_enabled w = false ->
      snd (loadNotes w) = Return tt
      /\ notes (fst (loadNotes w)) = JArr []
      /\ storage (fst (loadNotes w)) = storage w
      /\ message (fst (loadNotes w)) = message w
      /\ log (fst (loadNotes w))
         = EvConsoleError "Error loading notes from localStorage:" SecurityError
           :: EvGetItem storage_key :: log w)
  /\ (forall s,
        storage_enabled w = true ->
        store_get storage_key (storage w) = Some s ->
        s <> "" ->
        Json.parse s = Throw SyntaxError ->
        snd (loadNotes w) = Return tt
        /\ notes (fst (loadNotes w)) = JArr []
        /\ storage (fst (loadNotes w)) = storage w
        /\ message (fst (loadNotes w)) = message w
        /\ log (fst (loadNotes w))
           = EvConsoleError "Error loading notes from localStorage:" SyntaxError
             :: EvGetItem storage_key :: log w)
  /\ (storage_enabled w = true ->
      store_get storage_key (storage w) = None
      \/ store_get storage_key (storage w) = Some "" ->
      loadNotes w = (emit (EvGetItem storage_key) w, Return tt)).
Proof.
  split; [|split; [|split]].
  - unfold loadNotes, try_catch.
    match goal with |- context [match ?m w with _ => _ end] =>
      destruct (m w) as [w1 [[]|e]] end; cbn; auto.
    destruct e; cbn; auto.
  - intros He. rewrite (loadNotes_disabled w He). repeat split.
  - intros s He Hs Hn Hp. rewrite (loadNotes_corrupt w s He Hs Hn Hp).
    repeat split.
  - intros He [Hs|Hs].
    + now apply loadNotes_absent.
    + now apply loadNotes_empty_text.
Qed.

Lemma loadNotes_falls_back_to_the_empty_list_witness :
  snd (loadNotes corrupt_page) = Return tt
  /\ notes (fst (loadNotes corrupt_page)) = JArr [].
Proof.
  assert (H1 : "[1,2" <> "") by discriminate.
  assert (H2 : Json.parse "[1,2" = Throw SyntaxError)
    by (vm_compute; reflexivity).
  destruct (loadNotes_falls_back_to_the_empty_list corrupt_page)
    as [_ [_ [H _]]].
  destruct (H "[1,2" eq_refl eq_refl H1 H2) as [H3 [H4 _]].
  split; [exact H3 | exact H4].
Defined.

(** X16. Notes are kept newest first: after a run of creations with inputs
    that are not blank, the notes are the created notes in reverse order
    of creation, before the notes that were there, in memory and (after
    one creation at least) on the page. *)
Theorem notes_are_kept_in_reverse_order_of_creation
        (cs : list (string * Reading)) :
  forall (w : World) (l : list Note),
    notes w = notes_to_json l ->
    Forall (fun c => trim (fst c) <> "") cs ->
    notes (run (creations cs) w) = notes_to_json (rev (map made cs) ++ l)
    /\ (cs <> [] ->
        notesContainer (run (creations cs) w) = rendered (rev (map made cs) ++ l)).
Proof.
  induction cs as [|[input r] cs IH]; intros w l Hl Hf.
  - split; [exact Hl | congruence].
  - inversion Hf as [|? ? Hc Hr]; subst. cbn [fst] in Hc.
    cbn [creations map run fold_left fst snd].
    set (w1 := step w (OpCreate input r)).
    assert (H1 : notes w1 = notes_to_json (made (input, r) :: l)
                 /\ notesContainer w1 = rendered (made (input, r) :: l)).
    { subst w1. unfold step. cbn [perform]. unfold bind, modify.
      rewrite (saveNote_run r (set_noteInput input w) l Hc Hl). cbn [fst].
      split; [destruct (write_failure _ _ _); reflexivity | reflexivity]. }
    destruct H1 as [H1 H2].
    destruct (IH w1 _ H1 Hr) as [H3 H4].
    fold (creations cs). cbn [map rev]. rewrite <- app_assoc. cbn [app].
    split; [exact H3|]. intros _.
    destruct cs as [|c cs]; [exact H2 | apply H4; discriminate].
Qed.

Lemma notes_are_kept_in_reverse_order_of_creation_witness :
  notes (run (creations two_creations) fresh_page)
  = notes_to_json [world; hello].
Proof.
  assert (E : (rev (map made two_creations) ++ [])%list = [world; hello])
    by (vm_compute; reflexivity).
  assert (F : Forall (fun c => trim (fst c) <> "") two_creations).
  { constructor; [vm_compute; discriminate|].
    constructor; [vm_compute; discriminate | constructor]. }
  rewrite <- E.
  destruct (notes_are_kept_in_reverse_order_of_creation two_creations
              fresh_page [] eq_refl F) as [H _].
  exact H.
Defined.

(** X17. Rendering, searching, asking for a deletion and the notices
    change neither the notes in memory nor the storage, however they end:
    [showNotes], [searchNotes], [displayFilteredNotes], [deleteNote]
    before its timer runs, [showMessage] and the two callbacks of its
    timers. *)
Theorem searching_and_rendering_change_no_data :
  keeps_data showNotes
  /\ (forall q, keeps_data (searchNotes q))
  /\ (forall l, keeps_data (displayFilteredNotes l))
  /\ (forall i a, keeps_data (deleteNote i a))
  /\ (forall m, keeps_data (dismissMessage m))
  /\ (forall m, keeps_data (detachMessage m))
  /\ (forall t ty, keeps_data (showMessage t ty)).
Proof.
  repeat split;
    first [ apply keeps_showNotes | apply keeps_searchNotes
          | apply keeps_displayFilteredNotes | apply keeps_deleteNote
          | apply keeps_dismissMessage | apply keeps_detachMessage
          | apply keeps_showMessage ].
Qed.

(** X18. [escapeHtml] loses nothing: different texts have different
    escapes, the escape is never shorter than the text, and a text
    without ampersand, angle brackets and no-break space is its own
    escape. *)
Theorem escapeHtml_loses_nothing (a b : string) :
  (escapeHtml a = escapeHtml b -> a = b)
  /\ String.length a <= String.length (escapeHtml a)
  /\ (plain_text a = true -> escapeHtml a = a).
Proof.
  split; [apply escape_text_injective|].
  split; [apply length_escape_text | apply escape_text_plain].
Qed.

Lemma escapeHtml_loses_nothing_witness :
  escapeHtml "Buy milk" = "Buy milk".
Proof.
  destruct (escapeHtml_loses_nothing "Buy milk" "") as [_ [_ H]].
  apply H. vm_compute. reflexivity.
Defined.

(** X20. What a page load shows.  When the slot holds the text
    [saveToLocalStorage] wrote for a list of notes, [init] returns
    normally with that list in memory and on the page; when the storage
    cannot be read, or holds nothing, the empty text or a text that is no
    JSON, [init] returns normally with the empty list and the empty
    state. *)
Theorem init_shows_what_is_stored
        (st : list (string * string)) (enabled : bool) (capacity : nat) :
  let w := page_load st enabled capacity in
  (forall l,
      enabled = true ->
      store_get storage_key st = Some (stringify (notes_to_json l)) ->
      snd (init w) = Return tt
      /\ notes (fst (init w)) = notes_to_json l
      /\ notesContainer (fst (init w)) = view l)
  /\ (enabled = false
      \/ store_get storage_key st = None
      \/ store_get storage_key st = Some ""
      \/ (exists s, store_get storage_key st = Some s /\ s <> ""
                    /\ Json.parse s = Throw SyntaxError) ->
      snd (init w) = Return tt
      /\ notes (fst (init w)) = JArr []
      /\ notesContainer (fst (init w)) = [Parsed empty_state_markup]).
Proof.
  intros w. split.
  - intros l -> Hs. unfold init.
    rewrite (bind_return _ _ _ _ _
               (loadNotes_stored w _ (notes_to_json l) eq_refl Hs
                  (stringify_notes_not_empty l) (parse_stringify_notes l))).
    rewrite (showNotes_notes l
               (set_notes (notes_to_json l) (emit (EvGetItem storage_key) w))
               eq_refl).
    repeat split.
  - intros H. unfold init.
    assert (E : exists w1, loadNotes w = (w1, Return tt) /\ notes w1 = JArr []).
    { destruct enabled eqn:He.
      - destruct H as [H|[H|[H|[s [H1 [H2 H3]]]]]]; [discriminate| | |].
        + eexists. split; [apply (loadNotes_absent w eq_refl H) | reflexivity].
        + eexists. split; [apply (loadNotes_empty_text w eq_refl H) | reflexivity].
        + eexists. split; [apply (loadNotes_corrupt w s eq_refl H1 H2 H3) | reflexivity].
      - eexists. split; [apply (loadNotes_disabled w eq_refl) | reflexivity]. }
    destruct E as [w1 [E1 E2]].
    rewrite (bind_return _ _ _ _ _ E1), (showNotes_empty w1 E2).
    repeat split. exact E2.
Qed.

Lemma init_shows_what_is_stored_witness :
  notes (fst (init (page_load stored_shopping true 4096)))
  = notes_to_json shopping
  /\ notesContainer (fst (init (page_load stored_shopping true 4096)))
     = view shopping.
Proof.
  assert (H1 : store_get storage_key stored_shopping
               = Some (stringify (notes_to_json shopping)))
    by (vm_compute; reflexivity).
  destruct (init_shows_what_is_stored stored_shopping true 4096) as [H _].
  destruct (H shopping eq_refl H1) as [_ [H2 H3]].
  split; [exact H2 | exact H3].
Defined.

(* ================================================================== *)
(** ** The definitions at work *)

Example trim_removes_outer_white_space :
  trim "  Buy milk  " = "Buy milk"
  /\ trim (nl ++ String (ascii_of_nat 160) " ") = ""
  /\ trim "a  b" = "a  b".
Proof. repeat split. Qed.

Example toLowerCase_of_mixed_case :
  toLowerCase "BUY Bread" = "buy bread".
Proof. reflexivity. Qed.

Example generateId_of_first_reading :
  toString36 1700000000000 = "loyw3v28"
  /\ generateId first_reading = "loyw3v284fzyo82mvyr".
Proof. split; vm_compute; reflexivity. Qed.

Example escapeHtml_of_script :
  escapeHtml "<script>alert(1)</script>"
  = "&lt;script&gt;alert(1)&lt;/script&gt;".
Proof. reflexivity. Qed.

Example stringify_of_awkward_text :
  stringify (JStr awkward_text)
  = dq ++ "say " ++ String backslash dq ++ "hi" ++ String backslash dq
    ++ String backslash (String backslash "") ++ String backslash "n"
    ++ String backslash "t" ++ String backslash "u0001"
    ++ String (ascii_of_nat 160) "" ++ "<b>&amp;" ++ dq.
Proof. vm_compute. reflexivity. Qed.

Example round_trip_of_awkward_text :
  Json.parse (stringify (notes_to_json [awkward; hello]))
  = Return (notes_to_json [awkward; hello])
  /\ character_data 0 (escapeHtml awkward_text ++ "</div>")
     = Return (awkward_text, "</div>").
Proof. split; vm_compute; reflexivity. Qed.

Example parse_rejects_and_accepts :
  Json.parse "[1,]" = Throw SyntaxError
  /\ Json.parse "01" = Throw SyntaxError
  /\ Json.parse "tru" = Throw SyntaxError
  /\ Json.parse " [ -1.5e+3 , true , null ] "
     = Return (JArr [JNum "-1.5e+3"; JBool true; JNull])
  /\ Json.parse ("{" ++ dq ++ "b" ++ dq ++ ":1," ++ dq ++ "7" ++ dq ++ ":2,"
                    ++ dq ++ "b" ++ dq ++ ":3}")
     = Return (JObj [("7", JNum "2"); ("b", JNum "3")]).
Proof. repeat split; vm_compute; reflexivity. Qed.

Example session_ends_with_one_note :
  note_ids (run long_session fresh_page) = [Some "loyw3v29abc"]
  /\ notesContainer (run long_session fresh_page) = rendered [world].
Proof. split; vm_compute; reflexivity. Qed.

Example parse_fragment_of_small_markup :
  parse_fragment "<p class=a title='x y'>1 &lt; 2</p>"
  = Return [StartTag "p" [("class", "a"); ("title", "x y")];
            Text "1 < 2"; EndTag "p"]
  /\ parse_fragment "a &amp; b" = Return [Text "a & b"]
  /\ parse_fragment "<b>bold</b>" = Throw Unmodelled.
Proof. repeat split; vm_compute; reflexivity. Qed.

Example parse_fragment_of_hostile_note :
  exists tokens,
    parse_fragment (innerHTML (note_element hostile)) = Return tokens
    /\ In (Text "<script>alert(1)</script>") tokens
    /\ In (StartTag "img" [("src", "x"); ("onerror", "alert(1)")]) tokens
    /\ In (StartTag "button"
             [("class", "delete-btn");
              ("onclick", "notesApp.deleteNote('x'); alert(1); ('')")])
          tokens.
Proof.
  eexists. split; [vm_compute; reflexivity|].
  simpl. repeat split; tauto.
Qed.

Example selectors_of_sample_ids :
  selector_plain "loyw3v284fzyo82mvyr" = true
  /\ selector_plain (id hostile) = true
  /\ selector_plain (id quoted) = false
  /\ selector_broken (id quoted) = true.
Proof. repeat split. Qed.

Example toLowerCase_of_greek_words :
  Wide.toLowerCase Wide.omicron_sigma = Some [959; 962]%N
  /\ Wide.toLowerCase Wide.omicron_sigma_alpha = Some [959; 963; 945]%N
  /\ Wide.toLowerCase (Wide.of_string "BUY Bread")
     = Some (Wide.of_string "buy bread").
Proof. repeat split. Qed.
